(** * audio-2-features: the two-stage extraction pipeline of [src/index.ts]

    A shallow embedding of the worker's request handlers ([POST /upload],
    [POST /extract-features]), of the two AI stages ([processAudioWithAI],
    [extractFeatureRequests]) and of the collaborators they talk to
    (Workers AI, the R2 bucket, the D1 database), followed by the
    properties of the specification, C1 to C10, settled on that embedding.

    Conventions.
    - A JavaScript string is a [string] of bytes: UTF-8 for text outside
      ASCII. The string operations of the code look for ASCII characters
      only, and are modelled so that they agree with their UTF-16
      originals.
    - A JavaScript value is a [value]: plain data and [undefined]. A
      number is the exact decimal [mant * 10^expo] that denotes it; the
      code tests numbers for truth and nothing else.
    - [JSON.parse] is an executable parser of the JSON grammar.
    - Effects (clock, identifiers, bucket, tables, console, backend calls)
      are threaded through a [World]. A computation is a function
      [World -> Res A * World]; a thrown exception keeps the effects that
      came before it, as in JavaScript.
    - The three bindings of [c.env] are inputs: the AI backend is a pair
      of functions from the inputs of a call to its duration and outcome,
      and each store fails when its fault schedule in the world says so.
    - The tables of the database enforce the constraints of the
      [CREATE TABLE] statements of the source.
    - [console.log] is not modelled; [console.error] is, by its label. *)

From Stdlib Require Import String Ascii List ZArith NArith Bool Lia.
From Stdlib Require Import DecimalString DecimalNat FinFun.
Import ListNotations.

Local Open Scope string_scope.
Local Open Scope list_scope.
Set Warnings "-register-all".

(* ===================================================================== *)
(** ** JavaScript strings *)
(* ===================================================================== *)

Module JsString.

(** The double quote character. *)
Definition dquote : ascii := "034"%char.

Definition code (c : ascii) : nat := nat_of_ascii c.
Definition chr (n : nat) : ascii := ascii_of_nat n.

Definition in_range (lo hi : nat) (c : ascii) : bool :=
  (lo <=? code c)%nat && (code c <=? hi)%nat.

Definition is_upper : ascii -> bool := in_range 65 90.
Definition is_lower : ascii -> bool := in_range 97 122.
Definition is_digit : ascii -> bool := in_range 48 57.

Definition lower_ascii (c : ascii) : ascii :=
  if is_upper c then chr (code c + 32) else c.

(** [String.prototype.toLowerCase]. Exact on ASCII. Outside ASCII only the
    two code points whose lower-case form contains an ASCII letter are
    mapped: U+212A KELVIN SIGN (bytes E2 84 AA) to "k", and U+0130 LATIN
    CAPITAL I WITH DOT ABOVE (bytes C4 B0) to "i" followed by U+0307 (bytes
    CC 87). Every other code point outside ASCII lower-cases to code points
    outside ASCII, whose bytes are all >= 0x80; they are left as they are,
    which does not change whether an ASCII needle occurs in the result. *)
Fixpoint toLowerCase (s : string) : string :=
  match s with
  | EmptyString => EmptyString
  | String c r =>
      if (code c =? 226)%nat then
        match r with
        | String d (String e r') =>
            if ((code d =? 132) && (code e =? 170))%nat
            then String "k" (toLowerCase r')
            else String c (toLowerCase r)
        | _ => String c (toLowerCase r)
        end
      else if (code c =? 196)%nat then
        match r with
        | String d r' =>
            if (code d =? 176)%nat
            then String "i" (String (chr 204) (String (chr 135) (toLowerCase r')))
            else String c (toLowerCase r)
        | _ => String c (toLowerCase r)
        end
      else String (lower_ascii c) (toLowerCase r)
  end.

(** [s.startsWith(p)] *)
Definition startsWith (s p : string) : bool := String.prefix p s.

(** [s.includes(needle)] *)
Fixpoint includes (s needle : string) : bool :=
  String.prefix needle s ||
  match s with
  | EmptyString => false
  | String _ r => includes r needle
  end.

(** The regular expression [/\{[\s\S]*\}/] of [extractFeatureRequests].
    [greedy_close s] is the longest prefix of [s] matched by [[\s\S]*\}]:
    the star takes as much as it can and gives characters back until a
    closing brace follows. *)
Fixpoint greedy_close (s : string) : option string :=
  match s with
  | EmptyString => None
  | String c r =>
      match greedy_close r with
      | Some m => Some (String c m)
      | None => if (c =? "}")%char then Some (String c EmptyString) else None
      end
  end.

(** [s.match(/\{[\s\S]*\}/)]: the match attempted at each position from the
    left; [Some m] is [jsonMatch[0]], [None] is [null]. *)
Fixpoint match_brace_span (s : string) : option string :=
  match s with
  | EmptyString => None
  | String c r =>
      if (c =? "{")%char then
        match greedy_close r with
        | Some m => Some (String c m)
        | None => match_brace_span r
        end
      else match_brace_span r
  end.

(** One UTF-16 code unit replaced by [/[^a-zA-Z0-9._-]/g]: the regular
    expression has no [u] flag, so it works on code units. In UTF-8 a code
    point below U+10000 (one unit) starts with a byte in C0..EF, a code
    point from U+10000 (two units) with a byte in F0..F7, and continuation
    bytes 80..BF start nothing. *)
Definition safe_char (c : ascii) : bool :=
  is_lower c || is_upper c || is_digit c ||
  (c =? ".")%char || (c =? "_")%char || (c =? "-")%char.

(** [name.replace(/[^a-zA-Z0-9._-]/g, "_")] *)
Fixpoint sanitize (s : string) : string :=
  match s with
  | EmptyString => EmptyString
  | String c r =>
      if safe_char c then String c (sanitize r)
      else if (code c <? 128)%nat then String "_" (sanitize r)
      else if (code c <? 192)%nat then sanitize r
      else if (code c <? 240)%nat then String "_" (sanitize r)
      else String "_" (String "_" (sanitize r))
  end.

(** UTF-8 bytes of a code point (a lone surrogate gets the three-byte
    form). *)
Definition utf8 (n : N) : string :=
  let b (k : N) := ascii_of_N k in
  (if n <? 128 then String (b n) EmptyString
   else if n <? 2048 then
     String (b (192 + n / 64)) (String (b (128 + n mod 64)) EmptyString)
   else if n <? 65536 then
     String (b (224 + n / 4096))
       (String (b (128 + (n / 64) mod 64))
          (String (b (128 + n mod 64)) EmptyString))
   else
     String (b (240 + n / 262144))
       (String (b (128 + (n / 4096) mod 64))
          (String (b (128 + (n / 64) mod 64))
             (String (b (128 + n mod 64)) EmptyString))))%N.

End JsString.

(* ===================================================================== *)
(** ** JavaScript values and [JSON.parse] *)
(* ===================================================================== *)

Module Js.
Import JsString.

(** A number, as the exact decimal [mant * 10^expo] that denotes it. *)
Record number : Set := Num { mant : Z; expo : Z }.

Inductive value : Set :=
| VUndefined
| VNull
| VBool (b : bool)
| VNum (n : number)
| VStr (s : string)
| VArr (items : list value)
| VObj (props : list (string * value)).

(** The properties of an object, in the order they were defined.
    (Enumeration moves integer-like keys to the front; nothing here
    depends on the order.) *)
Definition object : Set := list (string * value).

(** Does the decimal round to (plus or minus) zero as a binary64? Only then
    is a number falsy: [0], [-0], and what underflows, that is every
    magnitude up to [2^-1075], half of the least subnormal (the tie goes to
    the even neighbour, zero). [NaN] is not plain data. *)
Definition num_is_zero (n : number) : bool :=
  ((mant n =? 0) ||
   ((expo n <? 0) && (Z.abs (mant n) * 2 ^ 1075 <=? 10 ^ (- expo n))))%Z.

(** [ToBoolean] *)
Definition truthy (v : value) : bool :=
  match v with
  | VUndefined | VNull => false
  | VBool b => b
  | VNum n => negb (num_is_zero n)
  | VStr s => negb (s =? EmptyString)
  | VArr _ | VObj _ => true
  end.

(** [a || b] *)
Definition or_else (a b : value) : value := if truthy a then a else b.

(** [a ?? b] *)
Definition nullish (v : value) : bool :=
  match v with VUndefined | VNull => true | _ => false end.
Definition coalesce (a b : value) : value := if nullish a then b else a.

(** Own properties of an object literal or a decoded JSON object. *)
Fixpoint get_own (o : object) (k : string) : option value :=
  match o with
  | [] => None
  | (k', v) :: r => if (k' =? k) then Some v else get_own r k
  end.

(** Definition of a property: an existing key keeps its place and takes
    the new value, a new key goes last. *)
Fixpoint set_prop (o : object) (k : string) (v : value) : object :=
  match o with
  | [] => [(k, v)]
  | (k', v') :: r =>
      if (k' =? k) then (k, v) :: r else (k', v') :: set_prop r k v
  end.

Definition define_all (o : object) (kvs : list (string * value)) : object :=
  fold_left (fun acc kv => set_prop acc (fst kv) (snd kv)) kvs o.

(** Index keys ["0"], ["1"], ... of an array or a string. *)
Definition index_key (i : nat) : string :=
  NilEmpty.string_of_uint (Nat.to_uint i).

Fixpoint indexed {A : Type} (f : A -> value) (i : nat) (l : list A) : object :=
  match l with
  | [] => []
  | x :: r => (index_key i, f x) :: indexed f (S i) r
  end.

(** The own enumerable properties copied by a spread [{...v}]. A string
    spreads one property per character (per byte here, which is the same on
    ASCII text). *)
Definition own_enumerable (v : value) : object :=
  match v with
  | VObj o => o
  | VArr l => indexed (fun x => x) 0 l
  | VStr s => indexed (fun c => VStr (String c EmptyString)) 0 (list_ascii_of_string s)
  | _ => []
  end.

(** An object literal [{...v, k1: v1, ..., kn: vn}]. *)
Definition spread_with (v : value) (kvs : list (string * value)) : value :=
  VObj (define_all (own_enumerable v) kvs).

(** *** [JSON.parse] *)

Definition is_ws (c : ascii) : bool :=
  (c =? " ")%char || (code c =? 9)%nat || (code c =? 10)%nat || (code c =? 13)%nat.

Fixpoint skip_ws (s : string) : string :=
  match s with
  | String c r => if is_ws c then skip_ws r else s
  | EmptyString => s
  end.

Fixpoint strip_prefix (p s : string) : option string :=
  match p, s with
  | EmptyString, _ => Some s
  | String a p', String b s' => if (a =? b)%char then strip_prefix p' s' else None
  | String _ _, EmptyString => None
  end.

Definition digit_val (c : ascii) : Z := Z.of_nat (code c - 48).

Fixpoint take_digits (s : string) : list Z * string :=
  match s with
  | String c r =>
      if is_digit c then let (ds, r') := take_digits r in (digit_val c :: ds, r')
      else ([], s)
  | EmptyString => ([], s)
  end.

Definition digits_value (ds : list Z) : Z :=
  fold_left (fun acc d => 10 * acc + d)%Z ds 0%Z.

(** int: ["0"], or a non-zero digit and more digits. *)
Definition parse_int (s : string) : option (list Z * string) :=
  match s with
  | String c r =>
      if (c =? "0")%char then Some ([0%Z], r)
      else if is_digit c then
        let (ds, r') := take_digits r in Some (digit_val c :: ds, r')
      else None
  | EmptyString => None
  end.

(** frac: nothing, or ["."] and at least one digit. *)
Definition parse_frac (s : string) : option (list Z * string) :=
  match s with
  | String c r =>
      if (c =? ".")%char then
        match take_digits r with
        | ([], _) => None
        | (ds, r') => Some (ds, r')
        end
      else Some ([], s)
  | EmptyString => Some ([], s)
  end.

(** The sign of an exponent, if it has one. *)
Definition exponent_sign (s : string) : bool * string :=
  match s with
  | String sg r =>
      if (sg =? "-")%char then (true, r)
      else if (sg =? "+")%char then (false, r)
      else (false, s)
  | EmptyString => (false, s)
  end.

(** exp: nothing, or [e] or [E], an optional sign and at least one digit. *)
Definition parse_exp (s : string) : option (Z * string) :=
  match s with
  | String c r =>
      if ((c =? "e") || (c =? "E"))%char then
        let (neg, r1) := exponent_sign r in
        match take_digits r1 with
        | ([], _) => None
        | (ds, r2) =>
            Some ((if neg then - digits_value ds else digits_value ds)%Z, r2)
        end
      else Some (0%Z, s)
  | EmptyString => Some (0%Z, s)
  end.

(** The minus sign of a number, if it has one. *)
Definition leading_minus (s : string) : bool * string :=
  match s with
  | String c r => if (c =? "-")%char then (true, r) else (false, s)
  | EmptyString => (false, s)
  end.

Definition parse_number (s : string) : option (number * string) :=
  let (neg, s1) := leading_minus s in
  match parse_int s1 with
  | None => None
  | Some (ip, s2) =>
      match parse_frac s2 with
      | None => None
      | Some (fp, s3) =>
          match parse_exp s3 with
          | None => None
          | Some (e, s4) =>
              let m := digits_value (ip ++ fp) in
              Some (Num (if neg then - m else m)%Z (e - Z.of_nat (length fp))%Z, s4)
          end
      end
  end.

Definition hex_val (c : ascii) : option N :=
  if is_digit c then Some (N.of_nat (code c - 48))
  else if in_range 97 102 c then Some (N.of_nat (code c - 87))
  else if in_range 65 70 c then Some (N.of_nat (code c - 55))
  else None.

Definition hex4 (a b c d : ascii) : option N :=
  match hex_val a, hex_val b, hex_val c, hex_val d with
  | Some x, Some y, Some z, Some w => Some (((x * 16 + y) * 16 + z) * 16 + w)%N
  | _, _, _, _ => None
  end.

(** The character an escape [\c] stands for. *)
Definition simple_escape (c : ascii) : option ascii :=
  if (c =? dquote)%char then Some c
  else if (c =? "\")%char then Some c
  else if (c =? "/")%char then Some c
  else if (c =? "b")%char then Some (chr 8)
  else if (c =? "f")%char then Some (chr 12)
  else if (c =? "n")%char then Some (chr 10)
  else if (c =? "r")%char then Some (chr 13)
  else if (c =? "t")%char then Some (chr 9)
  else None.

(** A piece of a string literal: a byte copied from the text, or the code
    unit of a [\uXXXX] escape. *)
Inductive piece : Set := Raw (c : ascii) | Unit16 (u : N).

(** The body of a string literal, after its opening quote, up to and
    without its closing quote. Control characters must be escaped. *)
Fixpoint parse_string_body (s : string) : option (list piece * string) :=
  match s with
  | EmptyString => None
  | String c r =>
      if (c =? dquote)%char then Some ([], r)
      else if (c =? "\")%char then
        match r with
        | String e r1 =>
            if (e =? "u")%char then
              match r1 with
              | String h1 (String h2 (String h3 (String h4 r2))) =>
                  match hex4 h1 h2 h3 h4 with
                  | Some u =>
                      match parse_string_body r2 with
                      | Some (ps, r3) => Some (Unit16 u :: ps, r3)
                      | None => None
                      end
                  | None => None
                  end
              | _ => None
              end
            else
              match simple_escape e with
              | Some x =>
                  match parse_string_body r1 with
                  | Some (ps, r3) => Some (Raw x :: ps, r3)
                  | None => None
                  end
              | None => None
              end
        | EmptyString => None
        end
      else if (code c <? 32)%nat then None
      else
        match parse_string_body r with
        | Some (ps, r3) => Some (Raw c :: ps, r3)
        | None => None
        end
  end.

Definition is_high_surrogate (u : N) : bool := ((55296 <=? u) && (u <=? 56319))%N.
Definition is_low_surrogate (u : N) : bool := ((56320 <=? u) && (u <=? 57343))%N.

(** The string a literal denotes: a high surrogate followed by a low one
    is one code point. *)
Fixpoint assemble (ps : list piece) : string :=
  match ps with
  | [] => EmptyString
  | Raw c :: r => String c (assemble r)
  | Unit16 u :: r =>
      match r with
      | Unit16 v :: r' =>
          if is_high_surrogate u && is_low_surrogate v
          then utf8 (65536 + (u - 55296) * 1024 + (v - 56320))%N ++ assemble r'
          else utf8 u ++ assemble r
      | _ => utf8 u ++ assemble r
      end
  end.

Definition parse_string (s : string) : option (string * string) :=
  match parse_string_body s with
  | Some (ps, r) => Some (assemble ps, r)
  | None => None
  end.

(** Recursive descent over the JSON grammar. Each call either consumes a
    character or passes to the other function with the same text, so
    [2 * length s + 2] units of fuel are never used up (see
    [parse_fuel]). A member list keeps the source order; a repeated
    key keeps its first place and its last value ([define_all]). *)
Fixpoint parse_value (fuel : nat) (s : string) {struct fuel}
  : option (value * string) :=
  match fuel with
  | O => None
  | S fuel' =>
      match skip_ws s with
      | EmptyString => None
      | String c r =>
          if (c =? "{")%char then
            match skip_ws r with
            | String c' r' =>
                if (c' =? "}")%char then Some (VObj [], r')
                else
                  match parse_members fuel' (String c' r') with
                  | Some (kvs, r'') => Some (VObj (define_all [] kvs), r'')
                  | None => None
                  end
            | EmptyString => None
            end
          else if (c =? "[")%char then
            match skip_ws r with
            | String c' r' =>
                if (c' =? "]")%char then Some (VArr [], r')
                else
                  match parse_elements fuel' (String c' r') with
                  | Some (vs, r'') => Some (VArr vs, r'')
                  | None => None
                  end
            | EmptyString => None
            end
          else if (c =? dquote)%char then
            match parse_string r with
            | Some (str, r') => Some (VStr str, r')
            | None => None
            end
          else if (c =? "t")%char then
            match strip_prefix "rue" r with
            | Some r' => Some (VBool true, r')
            | None => None
            end
          else if (c =? "f")%char then
            match strip_prefix "alse" r with
            | Some r' => Some (VBool false, r')
            | None => None
            end
          else if (c =? "n")%char then
            match strip_prefix "ull" r with
            | Some r' => Some (VNull, r')
            | None => None
            end
          else
            match parse_number (String c r) with
            | Some (n, r') => Some (VNum n, r')
            | None => None
            end
      end
  end

with parse_members (fuel : nat) (s : string) {struct fuel}
  : option (list (string * value) * string) :=
  match fuel with
  | O => None
  | S fuel' =>
      match skip_ws s with
      | String q r =>
          if (q =? dquote)%char then
            match parse_string r with
            | Some (k, r1) =>
                match skip_ws r1 with
                | String col r2 =>
                    if (col =? ":")%char then
                      match parse_value fuel' r2 with
                      | Some (v, r3) =>
                          match skip_ws r3 with
                          | String d r4 =>
                              if (d =? ",")%char then
                                match parse_members fuel' r4 with
                                | Some (kvs, r5) => Some ((k, v) :: kvs, r5)
                                | None => None
                                end
                              else if (d =? "}")%char then Some ([(k, v)], r4)
                              else None
                          | EmptyString => None
                          end
                      | None => None
                      end
                    else None
                | EmptyString => None
                end
            | None => None
            end
          else None
      | EmptyString => None
      end
  end

with parse_elements (fuel : nat) (s : string) {struct fuel}
  : option (list value * string) :=
  match fuel with
  | O => None
  | S fuel' =>
      match parse_value fuel' s with
      | Some (v, r) =>
          match skip_ws r with
          | String d r' =>
              if (d =? ",")%char then
                match parse_elements fuel' r' with
                | Some (vs, r'') => Some (v :: vs, r'')
                | None => None
                end
              else if (d =? "]")%char then Some ([v], r')
              else None
          | EmptyString => None
          end
      | None => None
      end
  end.

(** [JSON.parse(text)]: one value, white space around it, nothing else.
    [None] is the [SyntaxError]. *)
Definition JSON_parse (text : string) : option value :=
  match parse_value (2 * String.length text + 2) text with
  | Some (v, r) =>
      match skip_ws r with
      | EmptyString => Some v
      | String _ _ => None
      end
  | None => None
  end.

End Js.

(* ===================================================================== *)
(** ** The worker's runtime: exceptions, bindings, effects *)
(* ===================================================================== *)

Module Runtime.
Import JsString Js.

(** What a [catch] clause receives: an [Error] (of any class) with its
    message, or some other thrown value. *)
Inductive exn : Set :=
| JsError (message : string)
| JsThrown (v : value).

(** [err instanceof Error ? err.message : "Unknown error"] *)
Definition error_message (e : exn) : string :=
  match e with
  | JsError m => m
  | JsThrown _ => "Unknown error"
  end.

Inductive Res (A : Type) : Type :=
| Ok (a : A)
| Throw (e : exn).
Arguments Ok {A} a.
Arguments Throw {A} e.

(** *** Bindings of [c.env] *)

(** Output of the speech-to-text model, with the fields the code reads. *)
Record SpeechOutput : Set := {
  so_text : option string;
  so_transcription : option string;
  so_language : option string;
  so_language_confidence : option number
}.

Record Message : Set := { role : string; content : string }.

Record ChatInputs : Set := {
  messages : list Message;
  max_tokens : Z;
  temperature : number
}.

(** How a backend call ends: after [latency] milliseconds, with a result or
    a rejection. *)
Record Reply (A : Type) : Type := { latency : Z; outcome : Res A }.
Arguments latency {A} r.
Arguments outcome {A} r.

(** The [AI] binding. [ai.run(model, inputs)] is typed per model; the two
    shapes of [inputs] the code sends are two fields here. The result of a
    speech call may be [null] or [undefined] ([None]); the result of a chat
    call is any plain value. *)
Record Ai : Type := {
  run_audio : string -> string -> Reply (option SpeechOutput);
  run_messages : string -> ChatInputs -> Reply value
}.

(** A storage binding: not configured, configured without the method the
    code looks for ([put], [prepare]), or usable. *)
Inductive binding : Set := Missing | NoMethod | Usable.

Record Env : Type := {
  AI : option Ai;
  AUDIO_BUCKET : binding;
  audio2features : binding
}.

(** *** The relational store *)

(** A value bound to a statement or stored in a column. [SqlJson v] is the
    text [JSON.stringify(v)]. *)
Inductive sqlval : Set :=
| SqlNull
| SqlText (s : string)
| SqlNumber (n : number)
| SqlInteger (z : Z)
| SqlJson (v : value).

Definition is_null (v : sqlval) : bool :=
  match v with SqlNull => true | _ => false end.

(** A row of [audio_files]. *)
Record AudioFileRow : Set := {
  af_id : string;
  af_file_name : string;
  af_file_size : Z;
  af_file_type : string;
  af_r2_key : option string;
  af_created_at : Z
}.

(** A row of [feature_requests]. *)
Record FeatureRequestRow : Set := {
  fr_id : string;
  fr_audio_file_id : string;
  fr_title : sqlval;
  fr_description : sqlval;
  fr_priority : sqlval;
  fr_category : sqlval;
  fr_confidence : sqlval;
  fr_potential_recommendation : sqlval;
  fr_summary : sqlval;
  fr_created_at : Z
}.

Inductive Statement : Set :=
| CreateAudioFiles
| CreateFeatureRequests
| InsertAudioFile (row : AudioFileRow)
| InsertFeatureRequest (row : FeatureRequestRow).

Record R2Object : Set := {
  r2_key : string;
  r2_body : string;
  r2_content_type : string
}.

Inductive Event : Set :=
| EvAiRun (model : string)
| EvSleep (ms : Z)
| EvR2Put (key : string)
| EvSql (stmt : Statement)
| EvConsoleError (label : string).

(** *** The world a request runs in *)

Record World : Type := {
  now : Z;                                        (* [Date.now()] *)
  minted : nat;                                   (* identifiers handed out *)
  bucket : list R2Object;                         (* the R2 bucket *)
  audio_files : option (list AudioFileRow);       (* [None]: no such table *)
  feature_requests : option (list FeatureRequestRow);
  r2_faults : list (option exn);                  (* one entry per [put] *)
  d1_faults : list (option exn);                  (* one entry per [run()] *)
  trace : list Event                              (* newest first *)
}.

Definition M (A : Type) : Type := World -> Res A * World.

Definition ret {A : Type} (a : A) : M A := fun w => (Ok a, w).

Definition bind {A B : Type} (m : M A) (k : A -> M B) : M B :=
  fun w =>
    match m w with
    | (Ok a, w') => k a w'
    | (Throw e, w') => (Throw e, w')
    end.

Definition throw {A : Type} (e : exn) : M A := fun w => (Throw e, w).

(** [try { body } catch (e) { handler }] *)
Definition try_catch {A : Type} (body : M A) (handler : exn -> M A) : M A :=
  fun w =>
    match body w with
    | (Ok a, w') => (Ok a, w')
    | (Throw e, w') => handler e w'
    end.

Definition lift {A : Type} (r : Res A) : M A := fun w => (r, w).

Declare Scope js_scope.
Delimit Scope js_scope with js.
Notation "x <- m ;; k" := (bind m (fun x => k))
  (at level 61, m at next level, right associativity) : js_scope.
Notation "m ;;; k" := (bind m (fun _ => k))
  (at level 61, right associativity) : js_scope.
Local Open Scope js_scope.

Definition log (e : Event) (w : World) : World :=
  {| now := now w; minted := minted w; bucket := bucket w;
     audio_files := audio_files w; feature_requests := feature_requests w;
     r2_faults := r2_faults w; d1_faults := d1_faults w;
     trace := e :: trace w |}.

Definition advance (ms : Z) (w : World) : World :=
  {| now := (now w + ms)%Z; minted := minted w; bucket := bucket w;
     audio_files := audio_files w; feature_requests := feature_requests w;
     r2_faults := r2_faults w; d1_faults := d1_faults w;
     trace := trace w |}.

(** [Date.now()] *)
Definition Date_now : M Z := fun w => (Ok (now w), w).

(** [await new Promise(resolve => setTimeout(resolve, ms))] *)
Definition sleep (ms : Z) : M unit :=
  fun w => (Ok tt, log (EvSleep ms) (advance ms w)).

(** [console.error(label, ...)] *)
Definition console_error (label : string) : M unit :=
  fun w => (Ok tt, log (EvConsoleError label) w).

(** The [n]-th identifier of [crypto.randomUUID()]: distinct calls give
    distinct strings. *)
Definition uuid_of (n : nat) : string := "uuid-" ++ index_key n.

Definition randomUUID : M string :=
  fun w =>
    (Ok (uuid_of (minted w)),
     {| now := now w; minted := S (minted w); bucket := bucket w;
        audio_files := audio_files w; feature_requests := feature_requests w;
        r2_faults := r2_faults w; d1_faults := d1_faults w;
        trace := trace w |}).

(** [await ai.run(model, { audio })] *)
Definition ai_run_audio (ai : Ai) (model : string) (audio : string)
  : M (option SpeechOutput) :=
  fun w =>
    let r := run_audio ai model audio in
    (outcome r, log (EvAiRun model) (advance (latency r) w)).

(** [await ai.run(model, { messages, max_tokens, temperature })] *)
Definition ai_run_messages (ai : Ai) (model : string) (inputs : ChatInputs)
  : M value :=
  fun w =>
    let r := run_messages ai model inputs in
    (outcome r, log (EvAiRun model) (advance (latency r) w)).

Definition next_fault (faults : list (option exn)) : option exn * list (option exn) :=
  match faults with
  | [] => (None, [])
  | f :: r => (f, r)
  end.

(** [await r2.put(key, body, { httpMetadata: { contentType } })] *)
Definition r2_put (key body contentType : string) : M unit :=
  fun w =>
    let (f, rest) := next_fault (r2_faults w) in
    let w1 :=
      {| now := now w; minted := minted w; bucket := bucket w;
         audio_files := audio_files w; feature_requests := feature_requests w;
         r2_faults := rest; d1_faults := d1_faults w;
         trace := EvR2Put key :: trace w |} in
    match f with
    | Some e => (Throw e, w1)
    | None =>
        (Ok tt,
         {| now := now w1; minted := minted w1;
            bucket := bucket w1 ++
                      [{| r2_key := key; r2_body := body;
                          r2_content_type := contentType |}];
            audio_files := audio_files w1;
            feature_requests := feature_requests w1;
            r2_faults := r2_faults w1; d1_faults := d1_faults w1;
            trace := trace w1 |})
    end.

(** What [.bind(...)] accepts: [null], numbers, strings and booleans (as
    integers); [undefined], arrays and objects are a [D1_TYPE_ERROR]. *)
Definition bind_value (v : value) : Res sqlval :=
  match v with
  | VNull => Ok SqlNull
  | VStr s => Ok (SqlText s)
  | VNum n => Ok (SqlNumber n)
  | VBool b => Ok (SqlInteger (if b then 1 else 0))
  | VUndefined | VArr _ | VObj _ =>
      Throw (JsError "D1_TYPE_ERROR: Type not supported for value")
  end.

Definition set_tables (w : World) (af : option (list AudioFileRow))
  (fr : option (list FeatureRequestRow)) : World :=
  {| now := now w; minted := minted w; bucket := bucket w;
     audio_files := af; feature_requests := fr;
     r2_faults := r2_faults w; d1_faults := d1_faults w;
     trace := trace w |}.

Definition has_audio_id (rows : list AudioFileRow) (id : string) : bool :=
  existsb (fun r => af_id r =? id) rows.

Definition has_feature_id (rows : list FeatureRequestRow) (id : string) : bool :=
  existsb (fun r => fr_id r =? id) rows.

(** The statement executed against the tables, with the constraints of the
    two [CREATE TABLE] statements: [PRIMARY KEY], [NOT NULL] (on the
    columns a statement can leave null: [title] and [description]), and the
    [FOREIGN KEY] from [feature_requests.audio_file_id] to
    [audio_files.id], which D1 enforces. *)
Definition execute (stmt : Statement) (w : World) : Res unit * World :=
  match stmt with
  | CreateAudioFiles =>
      match audio_files w with
      | Some _ => (Ok tt, w)
      | None => (Ok tt, set_tables w (Some []) (feature_requests w))
      end
  | CreateFeatureRequests =>
      match feature_requests w with
      | Some _ => (Ok tt, w)
      | None => (Ok tt, set_tables w (audio_files w) (Some []))
      end
  | InsertAudioFile row =>
      match audio_files w with
      | None => (Throw (JsError "D1_ERROR: no such table: audio_files"), w)
      | Some rows =>
          if has_audio_id rows (af_id row) then
            (Throw (JsError "D1_ERROR: UNIQUE constraint failed: audio_files.id"), w)
          else (Ok tt, set_tables w (Some (rows ++ [row])) (feature_requests w))
      end
  | InsertFeatureRequest row =>
      match feature_requests w with
      | None => (Throw (JsError "D1_ERROR: no such table: feature_requests"), w)
      | Some rows =>
          if is_null (fr_title row) then
            (Throw (JsError "D1_ERROR: NOT NULL constraint failed: feature_requests.title"), w)
          else if is_null (fr_description row) then
            (Throw (JsError "D1_ERROR: NOT NULL constraint failed: feature_requests.description"), w)
          else if has_feature_id rows (fr_id row) then
            (Throw (JsError "D1_ERROR: UNIQUE constraint failed: feature_requests.id"), w)
          else
            match audio_files w with
            | None => (Throw (JsError "D1_ERROR: no such table: audio_files"), w)
            | Some parents =>
                if has_audio_id parents (fr_audio_file_id row) then
                  (Ok tt, set_tables w (audio_files w) (Some (rows ++ [row])))
                else (Throw (JsError "D1_ERROR: FOREIGN KEY constraint failed"), w)
            end
      end
  end.

(** [await db.prepare(sql).bind(...).run()]: the store may fail on its own
    account (the fault schedule), otherwise the statement is executed. *)
Definition d1_run (stmt : Statement) : M unit :=
  fun w =>
    let (f, rest) := next_fault (d1_faults w) in
    let w1 :=
      {| now := now w; minted := minted w; bucket := bucket w;
         audio_files := audio_files w; feature_requests := feature_requests w;
         r2_faults := r2_faults w; d1_faults := rest;
         trace := EvSql stmt :: trace w |} in
    match f with
    | Some e => (Throw e, w1)
    | None => execute stmt w1
    end.

(** [v.k] for a data property [k] (not [length], not an inherited
    method): reading a property of [null] or [undefined] is a
    [TypeError]. *)
Definition get_prop (v : value) (k : string) : Res value :=
  match v with
  | VUndefined | VNull =>
      Throw (JsError "Cannot read properties of undefined")
  | VObj o => Ok (match get_own o k with Some x => x | None => VUndefined end)
  | VArr _ | VStr _ =>
      Ok (match get_own (own_enumerable v) k with
          | Some x => x
          | None => VUndefined
          end)
  | VBool _ | VNum _ => Ok VUndefined
  end.

(** A method of [String.prototype] called on [v]: plain data other than a
    string has no such method, the call is a [TypeError]. *)
Definition as_string (v : value) : Res string :=
  match v with
  | VStr s => Ok s
  | _ => Throw (JsError "is not a function")
  end.

(** Sequential loop [for (const x of l) await f(x)]. *)
Fixpoint for_each {A : Type} (f : A -> M unit) (l : list A) : M unit :=
  match l with
  | [] => ret tt
  | x :: r => f x ;;; for_each f r
  end.

End Runtime.

(* ===================================================================== *)
(** ** [src/index.ts] *)
(* ===================================================================== *)

Module App.
Import JsString Js Runtime.
Local Open Scope js_scope.

Definition nl : string := String (chr 10) EmptyString.
Definition quoted (s : string) : string :=
  String dquote s ++ String dquote EmptyString.

Definition vnum (z : Z) : value := VNum (Num z 0).
Definition vopt (o : option string) : value :=
  match o with
  | Some s => VStr s
  | None => VUndefined
  end.

(** The uploaded [File] of the multipart field [audio]. *)
Record File : Set := {
  name : string;
  type : string;
  lastModified : Z;
  arrayBuffer : string
}.

Definition size (f : File) : Z := Z.of_nat (String.length (arrayBuffer f)).

Record Response : Set := { status : Z; body : value }.

(** [c.json(body, status)]: the value handed over, before serialisation
    (which leaves out the properties that are [undefined]). *)
Definition json (b : value) (st : Z) : Response := {| status := st; body := b |}.

(** *** [ensureFeatureRequestsTable] *)
Definition ensureFeatureRequestsTable : M unit := d1_run CreateFeatureRequests.

(** *** [extractFeatureRequests] *)

Definition extraction_model : string := "@cf/mistral/mistral-7b-instruct-v0.2-lora".

Definition prompt_of (transcription : string) : string :=
  "You are a developer for first responders analyzing user feedback from audio transcriptions. Extract feature requests from the following transcription and format them as structured data.

TRANSCRIPTION:
" ++ quoted transcription ++ "

Please analyze this transcription and extract any feature requests, suggestions, or product improvements mentioned. For each feature request, provide:
1. A clear, concise title
2. A detailed description of what the user is addressing
3. Priority level (high/medium/low)
4. Category (enhancement/bug-fix/new-feature/improvement)
5. Confidence score (0.0-1.0)
6. Potential recommendation: 1-2 possible solutions nicely formatted (could be bullet points)

Format your response as a JSON object with this structure:
{
  " ++ quoted "requests" ++ ": [
    {
      " ++ quoted "id" ++ ": " ++ quoted "unique-id" ++ ",
      " ++ quoted "title" ++ ": " ++ quoted "Feature request title" ++ ",
      " ++ quoted "description" ++ ": " ++ quoted "Detailed description" ++ ",
      " ++ quoted "priority" ++ ": " ++ quoted "high|medium|low" ++ ",
      " ++ quoted "category" ++ ": " ++ quoted "enhancement|bug-fix|new-feature|improvement" ++ ",
      " ++ quoted "confidence" ++ ": 0.8,
      " ++ quoted "potentialRecommendation" ++ ": " ++ quoted "1-2 possible solutions nicely formatted (could be bullet points)" ++ "
    }
  ],
  " ++ quoted "summary" ++ ": " ++ quoted "Brief summary of all extracted requests" ++ "
}

If no clear feature requests are found, return an empty requests array but still provide a summary of the transcription content.".

Definition system_message : string :=
  "You are a developer manager for first responders who extracts actionable feature requests from user feedback. Always respond with valid JSON.".

Definition chat_inputs (transcription : string) : ChatInputs :=
  {| messages :=
       [ {| role := "system"; content := system_message |};
         {| role := "user"; content := prompt_of transcription |} ];
     max_tokens := 900;
     temperature := Num 2 (-1) |}.

(** The record substituted when the response cannot be parsed. *)
Definition parse_error_record : value :=
  VObj [ ("id", VStr "parse-error-1");
         ("title", VStr "Unable to parse AI response");
         ("description", VStr "The AI model returned a response that couldn't be parsed as structured feature requests.");
         ("priority", VStr "low");
         ("category", VStr "improvement");
         ("confidence", VNum (Num 1 (-1)));
         ("potentialRecommendation",
          VStr ("• Check AI model configuration" ++ nl ++ "• Implement better error handling")) ].

Definition parse_error_result : value :=
  VObj [ ("requests", VArr [parse_error_record]);
         ("summary", VStr "Error in processing AI response") ].

(** The record substituted when the backend call fails. *)
Definition fallback_record : value :=
  VObj [ ("id", VStr "fallback-1");
         ("title", VStr "[Fallback] Feature extraction failed");
         ("description", VStr "The AI model failed to process the transcription. This could be due to network issues, model unavailability, or configuration problems.");
         ("priority", VStr "medium");
         ("category", VStr "improvement");
         ("confidence", VNum (Num 3 (-1)));
         ("potentialRecommendation",
          VStr ("• Verify Cloudflare Workers AI configuration" ++ nl ++ "• Check network connectivity and model availability")) ].

Definition fallback_result (err : exn) : value :=
  VObj [ ("requests", VArr [fallback_record]);
         ("summary", VStr "Feature extraction failed - using fallback response");
         ("extractionTimeMs", vnum 300);
         ("model", VStr extraction_model);
         ("error", VStr (error_message err)) ].

(** [result.response || result.text || (empty string)] *)
Definition response_text (result : value) : Res value :=
  match get_prop result "response" with
  | Throw e => Throw e
  | Ok response =>
      if truthy response then Ok response
      else
        match get_prop result "text" with
        | Throw e => Throw e
        | Ok text => Ok (or_else text (VStr EmptyString))
        end
  end.

(** [responseText.match(/\{[\s\S]*\}/)], then [JSON.parse(jsonMatch[0])]
    or [throw new Error("No valid JSON found in response")]. *)
Definition decode_span (responseText : string) : Res value :=
  match match_brace_span responseText with
  | Some jsonMatch =>
      match JSON_parse jsonMatch with
      | Some parsed => Ok parsed
      | None => Throw (JsError "Unexpected token in JSON")
      end
  | None => Throw (JsError "No valid JSON found in response")
  end.

(** The inner [try] block. *)
Definition parse_response (result : value) : Res value :=
  match response_text result with
  | Throw e => Throw e
  | Ok responseText =>
      match as_string responseText with
      | Throw e => Throw e
      | Ok text => decode_span text
      end
  end.

Definition extractFeatureRequests (transcription : string) (ai : option Ai)
  : M value :=
  let modelId := extraction_model in
  try_catch
    (match ai with
     | None => throw (JsError "AI binding not available")
     | Some ai =>
         startedAt <- Date_now ;;
         result <- ai_run_messages ai modelId (chat_inputs transcription) ;;
         finishedAt <- Date_now ;;
         let processingMs := (finishedAt - startedAt)%Z in
         parsedResult <-
           try_catch (lift (parse_response result))
             (fun parseError =>
                console_error "Failed to parse AI response:" ;;;
                ret parse_error_result) ;;
         ret (spread_with parsedResult
                [ ("extractionTimeMs", vnum processingMs);
                  ("model", VStr modelId);
                  ("originalTranscription", VStr transcription) ])
     end)
    (fun err =>
       console_error "Feature extraction failed:" ;;;
       sleep 300 ;;;
       ret (fallback_result err)).

(** *** [processAudioWithAI] *)

Definition transcription_model : string := "@cf/openai/whisper-tiny-en".

(** [a || b] on an optional string field: absent and empty are falsy. *)
Definition or_text (a : option string) (b : string) : string :=
  match a with
  | Some s => if (s =? EmptyString) then b else s
  | None => b
  end.

(** [result?.text || result?.transcription || (empty string)] *)
Definition transcription_text (result : option SpeechOutput) : string :=
  match result with
  | None => EmptyString
  | Some r => or_text (so_text r) (or_text (so_transcription r) EmptyString)
  end.

(** [result?.language ? { detected, confidence } : undefined] *)
Definition language_of (result : option SpeechOutput) : value :=
  match result with
  | None => VUndefined
  | Some r =>
      match so_language r with
      | Some l =>
          if (l =? EmptyString) then VUndefined
          else VObj [ ("detected", VStr l);
                      ("confidence",
                       match so_language_confidence r with
                       | Some n => VNum n
                       | None => VUndefined
                       end) ]
      | None => VUndefined
      end
  end.

Definition mock_record : value :=
  VObj [ ("id", VStr "mock-1");
         ("title", VStr "[Mock] Feature Request Example");
         ("description", VStr "This is a mock feature request extracted from the transcription.");
         ("priority", VStr "medium");
         ("category", VStr "enhancement");
         ("confidence", VNum (Num 8 (-1)));
         ("potentialRecommendation",
          VStr ("• Implement user feedback collection system" ++ nl ++ "• Add feature request tracking dashboard")) ].

Definition mock_feature_requests (err : exn) : value :=
  VObj [ ("requests", VArr [mock_record]);
         ("extractionTimeMs", vnum 500);
         ("model", VStr extraction_model);
         ("error", VStr (error_message err)) ].

Definition mock_transcription : string :=
  "[mock] This is a mock transcription. Workers AI call failed or is not configured yet.".

Definition mock_result (err : exn) : value :=
  VObj [ ("transcription", VStr mock_transcription);
         ("language", VObj [ ("detected", VStr "en");
                             ("confidence", VNum (Num 9 (-1))) ]);
         ("processingTimeMs", vnum 500);
         ("model", VStr transcription_model);
         ("featureRequests", mock_feature_requests err);
         ("error", VStr (error_message err)) ].

Definition processAudioWithAI (audioBuffer : string) (ai : option Ai) : M value :=
  let modelId := transcription_model in
  try_catch
    (match ai with
     | None => throw (JsError "AI binding not available")
     | Some run =>
         startedAt <- Date_now ;;
         result <- ai_run_audio run modelId audioBuffer ;;
         finishedAt <- Date_now ;;
         let processingMs := (finishedAt - startedAt)%Z in
         let transcriptionText := transcription_text result in
         featureRequests <- extractFeatureRequests transcriptionText ai ;;
         ret (VObj [ ("transcription", VStr transcriptionText);
                     ("language", language_of result);
                     ("processingTimeMs", vnum processingMs);
                     ("model", VStr modelId);
                     ("featureRequests", featureRequests) ])
     end)
    (fun err =>
       sleep 500 ;;;
       ret (mock_result err)).

(** *** [POST /upload] *)

Definition maxSize : Z := 25 * 1024 * 1024.

(** [b && typeof b.method === "function"] *)
Definition usable (b : binding) : bool :=
  match b with
  | Usable => true
  | Missing | NoMethod => false
  end.

Definition is_array (v : value) : bool :=
  match v with
  | VArr _ => true
  | _ => false
  end.

Definition items_of (v : value) : list value :=
  match v with
  | VArr l => l
  | _ => []
  end.

(** The R2 block: [r2Stored] at its end. *)
Definition store_audio (env : Env) (r2Key : string) (f : File) : M bool :=
  try_catch
    (if usable (AUDIO_BUCKET env) then
       r2_put r2Key (arrayBuffer f) (type f) ;;;
       ret true
     else ret false)
    (fun e => console_error "R2 put failed:" ;;; ret false).

(** The first D1 block: [d1Inserted] at its end. *)
Definition store_metadata (env : Env) (fileId : string) (f : File)
  (r2Stored : bool) (r2Key : string) : M bool :=
  try_catch
    (if usable (audio2features env) then
       d1_run CreateAudioFiles ;;;
       ensureFeatureRequestsTable ;;;
       createdAt <- Date_now ;;
       d1_run (InsertAudioFile
                 {| af_id := fileId;
                    af_file_name := name f;
                    af_file_size := size f;
                    af_file_type := type f;
                    af_r2_key := if r2Stored then Some r2Key else None;
                    af_created_at := createdAt |}) ;;;
       ret true
     else ret false)
    (fun e => console_error "D1 insert failed:" ;;; ret false).

Definition audio_info (f : File) (fileId : string) (r2Stored : bool)
  (r2Key : string) : value :=
  VObj [ ("fileName", VStr (name f));
         ("fileSize", vnum (size f));
         ("fileType", VStr (type f));
         ("lastModified", vnum (lastModified f));
         ("duration", VStr "Unknown");
         ("sampleRate", VStr "Unknown");
         ("channels", VStr "Unknown");
         ("fileId", VStr fileId);
         ("r2Key", if r2Stored then VStr r2Key else VUndefined) ].

(** The callback of [requests.filter]:
    [req.title && !req.title.toLowerCase().includes('parse error')
               && !req.title.toLowerCase().includes('fallback')]. *)
Definition actionable (req : value) : Res bool :=
  match get_prop req "title" with
  | Throw e => Throw e
  | Ok title =>
      if negb (truthy title) then Ok false
      else
        match as_string title with
        | Throw e => Throw e
        | Ok t =>
            if includes (toLowerCase t) "parse error" then Ok false
            else Ok (negb (includes (toLowerCase t) "fallback"))
        end
  end.

(** [l.filter(p)] for a callback that may throw. *)
Fixpoint filter_res (p : value -> Res bool) (l : list value) : Res (list value) :=
  match l with
  | [] => Ok []
  | x :: r =>
      match p x with
      | Throw e => Throw e
      | Ok b =>
          match filter_res p r with
          | Throw e => Throw e
          | Ok r' => Ok (if b then x :: r' else r')
          end
      end
  end.

(** The value bound for [potential_recommendation]. *)
Definition recommendation_column (v : value) : sqlval :=
  match v with
  | VStr s => SqlText s
  | VArr _ => SqlJson v
  | _ => SqlNull
  end.

(** One turn of the loop over [actionableRequests]. *)
Definition insert_request (fileId : string) (summary : value) (req : value)
  : M unit :=
  id <- randomUUID ;;
  title <- lift (get_prop req "title") ;;
  description <- lift (get_prop req "description") ;;
  priority <- lift (get_prop req "priority") ;;
  category <- lift (get_prop req "category") ;;
  confidence <- lift (get_prop req "confidence") ;;
  recommendation <- lift (get_prop req "potentialRecommendation") ;;
  b_title <- lift (bind_value (or_else title (VStr EmptyString))) ;;
  b_description <- lift (bind_value (or_else description (VStr EmptyString))) ;;
  b_priority <- lift (bind_value (or_else priority VNull)) ;;
  b_category <- lift (bind_value (or_else category VNull)) ;;
  b_confidence <- lift (bind_value (coalesce confidence VNull)) ;;
  b_summary <- lift (bind_value summary) ;;
  createdAt <- Date_now ;;
  d1_run (InsertFeatureRequest
            {| fr_id := id;
               fr_audio_file_id := fileId;
               fr_title := b_title;
               fr_description := b_description;
               fr_priority := b_priority;
               fr_category := b_category;
               fr_confidence := b_confidence;
               fr_potential_recommendation := recommendation_column recommendation;
               fr_summary := b_summary;
               fr_created_at := createdAt |}).

(** The [else] branch: the row written when nothing is actionable. *)
Definition insert_placeholder (fileId : string) (summary : value) : M unit :=
  id <- randomUUID ;;
  b_summary <- lift (bind_value summary) ;;
  createdAt <- Date_now ;;
  d1_run (InsertFeatureRequest
            {| fr_id := id;
               fr_audio_file_id := fileId;
               fr_title := SqlNull;
               fr_description := SqlNull;
               fr_priority := SqlNull;
               fr_category := SqlNull;
               fr_confidence := SqlNull;
               fr_potential_recommendation := SqlNull;
               fr_summary := b_summary;
               fr_created_at := createdAt |}).

(** The block "Store feature requests in D1". *)
Definition store_feature_requests (env : Env) (fileId : string)
  (aiFeatures : value) : M unit :=
  try_catch
    (if usable (audio2features env) then
       featureRequests <- lift (get_prop aiFeatures "featureRequests") ;;
       if truthy featureRequests then
         requests0 <- lift (get_prop featureRequests "requests") ;;
         if is_array requests0 then
           ensureFeatureRequestsTable ;;;
           summary0 <- lift (get_prop featureRequests "summary") ;;
           let summary := or_else summary0 VNull in
           let requests := items_of (or_else requests0 (VArr [])) in
           actionableRequests <- lift (filter_res actionable requests) ;;
           if (0 <? length actionableRequests)%nat then
             for_each (insert_request fileId summary) actionableRequests
           else insert_placeholder fileId summary
         else ret tt
       else ret tt
     else ret tt)
    (fun e => console_error "Feature requests insert failed:").

Definition upload (env : Env) (audioFile : option File) : M Response :=
  try_catch
    (match audioFile with
     | None => ret (json (VObj [("error", VStr "No audio file provided")]) 400)
     | Some f =>
         if negb (startsWith (type f) "audio/") then
           ret (json (VObj [("error", VStr "File must be an audio file")]) 400)
         else if (maxSize <? size f)%Z then
           ret (json (VObj [("error", VStr "File size must be less than 25MB")]) 400)
         else
           let audioBuffer := arrayBuffer f in
           fileId <- randomUUID ;;
           let safeName := sanitize (name f) in
           let r2Key := ("uploads/" ++ fileId ++ "-" ++ safeName)%string in
           r2Stored <- store_audio env r2Key f ;;
           d1Inserted <- store_metadata env fileId f r2Stored r2Key ;;
           let audioInfo := audio_info f fileId r2Stored r2Key in
           aiFeatures <- processAudioWithAI audioBuffer (AI env) ;;
           store_feature_requests env fileId aiFeatures ;;;
           ret (json (VObj [ ("success", VBool true);
                             ("audioInfo", audioInfo);
                             ("aiFeatures", aiFeatures);
                             ("message", VStr "Audio processed successfully") ])
                  200)
     end)
    (fun error =>
       console_error "Error processing audio:" ;;;
       ret (json (VObj [ ("error", VStr "Failed to process audio file");
                         ("details", VStr (error_message error)) ])
              500)).

(** *** [POST /extract-features] *)

(** The decoded request body, typed as the endpoint documents it:
    [{ transcription: string }], the field possibly missing. *)
Record ExtractBody : Set := { transcription : option string }.

Definition extract_features (env : Env) (body : ExtractBody) : M Response :=
  try_catch
    (let transcription := vopt (transcription body) in
     if negb (truthy transcription) then
       ret (json (VObj [("error", VStr "No transcription provided")]) 400)
     else
       text <- lift (as_string transcription) ;;
       featureRequests <- extractFeatureRequests text (AI env) ;;
       ret (json (VObj [ ("success", VBool true);
                         ("featureRequests", featureRequests);
                         ("message", VStr "Feature requests extracted successfully") ])
              200))
    (fun error =>
       console_error "Error extracting features:" ;;;
       ret (json (VObj [ ("error", VStr "Failed to extract feature requests");
                         ("details", VStr (error_message error)) ])
              500)).

End App.

(* ===================================================================== *)
(** ** Vocabulary of the properties *)
(* ===================================================================== *)

Module Props.
Import JsString Js Runtime App.

(** The three properties [extractFeatureRequests] adds after the spread. *)
Definition metadata (ms : Z) (t : string) : list (string * value) :=
  [ ("extractionTimeMs", vnum ms);
    ("model", VStr extraction_model);
    ("originalTranscription", VStr t) ].

(** The world after the [catch] clause of [extractFeatureRequests]. *)
Definition after_extraction_fallback (w : World) : World :=
  log (EvSleep 300)
    (advance 300 (log (EvConsoleError "Feature extraction failed:") w)).

(** The world after a backend call that took [ms]. *)
Definition after_call (model : string) (ms : Z) (w : World) : World :=
  log (EvAiRun model) (advance ms w).

(** The world after the [catch] clause of [processAudioWithAI]. *)
Definition after_mock (w : World) : World := log (EvSleep 500) (advance 500 w).

(** [v.requests] is present and is a sequence. *)
Definition has_requests (v : value) : Prop :=
  exists l, get_prop v "requests" = Ok (VArr l).

(** The failure of the text-generation call, if it fails: the error the
    [catch] clause of [extractFeatureRequests] receives and the world it
    starts in. The handle may be absent, or the call may reject. *)
Definition backend_failure (t : string) (ai : option Ai) (w : World)
  : option (exn * World) :=
  match ai with
  | None => Some (JsError "AI binding not available", w)
  | Some run =>
      let r := run_messages run extraction_model (chat_inputs t) in
      match outcome r with
      | Throw e => Some (e, after_call extraction_model (latency r) w)
      | Ok _ => None
      end
  end.

(** The body of the envelope [processAudioWithAI] returns on success. *)
Definition transcription_envelope (result : option SpeechOutput) (ms : Z)
  (featureRequests : value) : value :=
  VObj [ ("transcription", VStr (transcription_text result));
         ("language", language_of result);
         ("processingTimeMs", vnum ms);
         ("model", VStr transcription_model);
         ("featureRequests", featureRequests) ].

(** Does the character occur in the string? *)
Fixpoint occurs (c : ascii) (s : string) : bool :=
  match s with
  | EmptyString => false
  | String x r => (x =? c)%char || occurs c r
  end.

(** *** The persistence filter *)

(** An upload the handler accepts: an audio MIME type, at most 25 MB. *)
Definition valid_upload (f : File) : Prop :=
  startsWith (type f) "audio/" = true /\ (size f <= maxSize)%Z.

(** [r2Stored] at the end of the R2 block that starts in [w]: the bucket
    is usable and the next [put] does not fail. *)
Definition r2_stored (bucket : binding) (w : World) : bool :=
  usable bucket &&
  match fst (next_fault (r2_faults w)) with
  | Some _ => false
  | None => true
  end.

(** The key under which [/upload] stores the bytes of [f]. *)
Definition r2_key_of (fileId : string) (f : File) : string :=
  "uploads/" ++ fileId ++ "-" ++ sanitize (name f).

Definition audio_rows (w : World) : list AudioFileRow :=
  match audio_files w with
  | Some rows => rows
  | None => []
  end.

Definition feature_rows (w : World) : list FeatureRequestRow :=
  match feature_requests w with
  | Some rows => rows
  | None => []
  end.

(** No identifier still to be handed out is already a key of a table. *)
Definition ids_fresh (w : World) : Prop :=
  forall k, (minted w <= k)%nat ->
    has_audio_id (audio_rows w) (uuid_of k) = false /\
    has_feature_id (feature_rows w) (uuid_of k) = false.

(** The relational store answers every statement of this request. *)
Definition d1_healthy (w : World) : Prop := d1_faults w = [].

(** The world after [crypto.randomUUID()]. *)
Definition mint (w : World) : World :=
  {| now := now w; minted := S (minted w); bucket := bucket w;
     audio_files := audio_files w; feature_requests := feature_requests w;
     r2_faults := r2_faults w; d1_faults := d1_faults w;
     trace := trace w |}.

(** [req.k], [undefined] where there is nothing to read. *)
Definition field (req : value) (k : string) : value :=
  match get_prop req k with
  | Ok v => v
  | Throw _ => VUndefined
  end.

Definition optional_string (v : value) : bool :=
  match v with
  | VUndefined | VNull | VStr _ => true
  | _ => false
  end.

Definition optional_number (v : value) : bool :=
  match v with
  | VUndefined | VNull | VNum _ => true
  | _ => false
  end.

(** A FeatureRequestRecord of the data model: an object whose [title],
    [description], [priority] and [category] are strings when present and
    whose [confidence] is a number when present. *)
Definition typed_record (req : value) : bool :=
  match req with
  | VObj _ =>
      optional_string (field req "title") &&
      optional_string (field req "description") &&
      optional_string (field req "priority") &&
      optional_string (field req "category") &&
      optional_number (field req "confidence")
  | _ => false
  end.

(** Actionable, in the words of the specification: the title is present,
    non-empty, and its lower-case form contains neither "parse error" nor
    "fallback". *)
Definition is_actionable (req : value) : bool :=
  match field req "title" with
  | VStr t =>
      negb (t =? EmptyString) &&
      negb (includes (toLowerCase t) "parse error") &&
      negb (includes (toLowerCase t) "fallback")
  | _ => false
  end.

Definition to_column (v : value) : sqlval :=
  match bind_value v with
  | Ok c => c
  | Throw _ => SqlNull
  end.

(** The row written for an actionable record. *)
Definition row_of (fileId : string) (summary : sqlval) (createdAt : Z)
  (id : string) (req : value) : FeatureRequestRow :=
  {| fr_id := id;
     fr_audio_file_id := fileId;
     fr_title := to_column (or_else (field req "title") (VStr EmptyString));
     fr_description := to_column (or_else (field req "description") (VStr EmptyString));
     fr_priority := to_column (or_else (field req "priority") VNull);
     fr_category := to_column (or_else (field req "category") VNull);
     fr_confidence := to_column (coalesce (field req "confidence") VNull);
     fr_potential_recommendation :=
       recommendation_column (field req "potentialRecommendation");
     fr_summary := summary;
     fr_created_at := createdAt |}.

(** The rows written for a list of records, with the identifiers handed
    out from the [n]-th on. *)
Fixpoint rows_from (fileId : string) (summary : sqlval) (createdAt : Z)
  (n : nat) (reqs : list value) : list FeatureRequestRow :=
  match reqs with
  | [] => []
  | req :: r =>
      row_of fileId summary createdAt (uuid_of n) req ::
      rows_from fileId summary createdAt (S n) r
  end.

(** A named row: one whose [title] is not null. *)
Definition named (row : FeatureRequestRow) : bool := negb (is_null (fr_title row)).

(** Two worlds with the same stores: same tables, bucket, fault schedules
    and identifier supply. *)
Definition same_stores (w w' : World) : Prop :=
  minted w' = minted w /\ bucket w' = bucket w /\
  audio_files w' = audio_files w /\ feature_requests w' = feature_requests w /\
  r2_faults w' = r2_faults w /\ d1_faults w' = d1_faults w.

End Props.

(* ===================================================================== *)
(** ** Sample requests and backends *)
(* ===================================================================== *)

Module Samples.
Import JsString Js Runtime App.

Definition world0 : World :=
  {| now := 0; minted := 0; bucket := [];
     audio_files := None; feature_requests := None;
     r2_faults := []; d1_faults := []; trace := [] |}.

(** The same, with a bucket whose next [put] fails. *)
Definition world_r2_down : World :=
  {| now := 0; minted := 0; bucket := [];
     audio_files := None; feature_requests := None;
     r2_faults := [Some (JsError "R2 unavailable")]; d1_faults := [];
     trace := [] |}.

Definition backend (speech : Reply (option SpeechOutput)) (chat : Reply value)
  : Ai :=
  {| run_audio := fun _ _ => speech; run_messages := fun _ _ => chat |}.

Definition heard (text : string) : Reply (option SpeechOutput) :=
  {| latency := 120;
     outcome := Ok (Some {| so_text := Some text; so_transcription := None;
                            so_language := None;
                            so_language_confidence := None |}) |}.

Definition says (text : string) : Reply value :=
  {| latency := 40; outcome := Ok (VObj [("response", VStr text)]) |}.

Definition rejects {A : Type} (e : exn) : Reply A :=
  {| latency := 5; outcome := Throw e |}.

(** [{"requests":[{"title":"Add dark mode","description":"d",
      "priority":"low","category":"enhancement","confidence":0.9}],
     "summary":"s"}] *)
Definition dark_mode_json : string :=
  "{" ++ quoted "requests" ++ ":[{" ++
    quoted "title" ++ ":" ++ quoted "Add dark mode" ++ "," ++
    quoted "description" ++ ":" ++ quoted "d" ++ "," ++
    quoted "priority" ++ ":" ++ quoted "low" ++ "," ++
    quoted "category" ++ ":" ++ quoted "enhancement" ++ "," ++
    quoted "confidence" ++ ":0.9}]," ++
    quoted "summary" ++ ":" ++ quoted "s" ++ "}".

Definition dark_mode_record : value :=
  VObj [ ("title", VStr "Add dark mode");
         ("description", VStr "d");
         ("priority", VStr "low");
         ("category", VStr "enhancement");
         ("confidence", VNum (Num 9 (-1))) ].

(** [{"requests":[],"summary":"small talk"}] *)
Definition nothing_json : string :=
  "{" ++ quoted "requests" ++ ":[]," ++
    quoted "summary" ++ ":" ++ quoted "small talk" ++ "}".

(** [{"requests":[{"id":"r1","title":"Add dark mode","priority":"low"},
                  {"id":"r2","title":"FALLBACK radio channel"},
                  {"id":"r3","title":(empty)}],
     "summary":"three remarks"}] *)
Definition mixed_json : string :=
  "{" ++ quoted "requests" ++ ":[{" ++
    quoted "id" ++ ":" ++ quoted "r1" ++ "," ++
    quoted "title" ++ ":" ++ quoted "Add dark mode" ++ "," ++
    quoted "priority" ++ ":" ++ quoted "low" ++ "},{" ++
    quoted "id" ++ ":" ++ quoted "r2" ++ "," ++
    quoted "title" ++ ":" ++ quoted "FALLBACK radio channel" ++ "},{" ++
    quoted "id" ++ ":" ++ quoted "r3" ++ "," ++
    quoted "title" ++ ":" ++ quoted EmptyString ++ "}]," ++
    quoted "summary" ++ ":" ++ quoted "three remarks" ++ "}".

Definition mixed_records : list value :=
  [ VObj [("id", VStr "r1"); ("title", VStr "Add dark mode"); ("priority", VStr "low")];
    VObj [("id", VStr "r2"); ("title", VStr "FALLBACK radio channel")];
    VObj [("id", VStr "r3"); ("title", VStr EmptyString)] ].

Definition recording : File :=
  {| name := "stand up.mp3"; type := "audio/mpeg"; lastModified := 1700000000000;
     arrayBuffer := "RIFF" |}.

Definition all_bound (ai : Ai) : Env :=
  {| AI := Some ai; AUDIO_BUCKET := Usable; audio2features := Usable |}.

End Samples.

(* ===================================================================== *)
(** ** [src/index.ts], continued: [GET /audio/:id/feature-requests] *)
(* ===================================================================== *)

Module Fetch.
Import JsString Js Runtime App.
Local Open Scope js_scope.

(** [await db.prepare("SELECT * FROM feature_requests WHERE audio_file_id
    = ?1").bind(audioId).all()], the [results] of it: the store may fail on
    its own account (the fault schedule); otherwise the rows of the table
    that refer to [audioId], in the order they were inserted. A query
    changes no table and has no event of its own in the trace. *)
Definition d1_select_feature_requests (audioId : string)
  : M (list FeatureRequestRow) :=
  fun w =>
    let (f, rest) := next_fault (d1_faults w) in
    let w1 :=
      {| now := now w; minted := minted w; bucket := bucket w;
         audio_files := audio_files w; feature_requests := feature_requests w;
         r2_faults := r2_faults w; d1_faults := rest;
         trace := trace w |} in
    match f with
    | Some e => (Throw e, w1)
    | None =>
        match feature_requests w1 with
        | None =>
            (Throw (JsError "D1_ERROR: no such table: feature_requests"), w1)
        | Some rows =>
            (Ok (filter (fun r => fr_audio_file_id r =? audioId) rows), w1)
        end
    end.

(** [e instanceof Error ? e.message : String(e)]: the message, or the
    string conversion of the thrown value, which is left as it is. *)
Inductive detail : Set :=
| Message (m : string)
| StringOf (v : value).

Definition details_of (e : exn) : detail :=
  match e with
  | JsError m => Message m
  | JsThrown v => StringOf v
  end.

(** The two bodies of the endpoint:
    [{ success: true, featureRequests: results }] and
    [{ error, details }] ([details] left out where the code gives none). *)
Inductive FetchBody : Set :=
| FetchedRows (featureRequests : list FeatureRequestRow)
| FetchError (error : string) (details : option detail).

Record FetchResponse : Set := { fetch_status : Z; fetch_body : FetchBody }.

Definition get_feature_requests (env : Env) (audioId : string)
  : M FetchResponse :=
  try_catch
    (if usable (audio2features env) then
       ensureFeatureRequestsTable ;;;
       results <- d1_select_feature_requests audioId ;;
       ret {| fetch_status := 200; fetch_body := FetchedRows results |}
     else
       ret {| fetch_status := 500;
              fetch_body := FetchError "D1 binding not available" None |})
    (fun e =>
       ret {| fetch_status := 500;
              fetch_body := FetchError "Failed to fetch feature requests"
                              (Some (details_of e)) |}).

End Fetch.

(* ===================================================================== *)
(** ** More vocabulary *)
(* ===================================================================== *)

Module MoreProps.
Import JsString Js Runtime App Props.

(** A computation that, from every world, ends in a world related to it
    by [P]. *)
Definition keeps {A : Type} (P : World -> World -> Prop) (m : M A) : Prop :=
  forall w, P w (snd (m w)).

(** The rows of the two tables are as before (a missing table may have
    been created, empty). *)
Definition same_rows (w w' : World) : Prop :=
  audio_rows w' = audio_rows w /\ feature_rows w' = feature_rows w.

(** Nothing but the feature requests may have changed in the stores: the
    audio rows, the bucket and its fault schedule are as before. *)
Definition same_audio (w w' : World) : Prop :=
  audio_rows w' = audio_rows w /\ bucket w' = bucket w /\
  r2_faults w' = r2_faults w.

(** The rows of [feature_requests] are as before. *)
Definition same_feature_rows (w w' : World) : Prop :=
  feature_rows w' = feature_rows w.

(** The bucket and its fault schedule are as before. *)
Definition same_bucket (w w' : World) : Prop :=
  bucket w' = bucket w /\ r2_faults w' = r2_faults w.

(** A relational store that answers stays one that answers. *)
Definition stays_healthy (w w' : World) : Prop :=
  d1_faults w = [] -> d1_faults w' = [].

(** No identifier still to be handed out is referred to by a row of
    [feature_requests]. *)
Definition refs_fresh (w : World) : Prop :=
  forall k, (minted w <= k)%nat ->
    existsb (fun r => fr_audio_file_id r =? uuid_of k) (feature_rows w) = false.

(** The rows of the table that refer to [audioId]. *)
Definition rows_of_audio (audioId : string) (rows : list FeatureRequestRow)
  : list FeatureRequestRow :=
  filter (fun r => fr_audio_file_id r =? audioId) rows.

(** The events a computation added to the trace of [w]. *)
Definition added_events (w w' : World) (new : list Event) : Prop :=
  trace w' = new ++ trace w.

(** The row [/upload] writes to [audio_files]. *)
Definition audio_row_of (f : File) (fileId : string) (stored : bool)
  (createdAt : Z) : AudioFileRow :=
  {| af_id := fileId;
     af_file_name := name f;
     af_file_size := size f;
     af_file_type := type f;
     af_r2_key := if stored then Some (r2_key_of fileId f) else None;
     af_created_at := createdAt |}.

(** All the characters of a string pass the test. *)
Fixpoint all_chars (p : ascii -> bool) (s : string) : bool :=
  match s with
  | EmptyString => true
  | String c r => p c && all_chars p r
  end.

(** The result of the text model has nothing to decode: it is [null] or
    [undefined], or both [result.response] and [result.text] are falsy
    (absent, [null], the empty string, [0], [false]). *)
Definition carries_no_text (result : value) : bool :=
  match result with
  | VUndefined | VNull => true
  | _ => negb (truthy (field result "response")) &&
         negb (truthy (field result "text"))
  end.

End MoreProps.

(* ===================================================================== *)
(** ** More samples *)
(* ===================================================================== *)

Module MoreSamples.
Import JsString Js Runtime App Samples.

(** A database that holds one upload with one feature request. *)
Definition world_with_rows : World :=
  {| now := 5000; minted := 2; bucket := [];
     audio_files :=
       Some [ {| af_id := uuid_of 0; af_file_name := "monday.mp3";
                 af_file_size := 4; af_file_type := "audio/mpeg";
                 af_r2_key := None; af_created_at := 100 |} ];
     feature_requests :=
       Some [ {| fr_id := uuid_of 1; fr_audio_file_id := uuid_of 0;
                 fr_title := SqlText "Add dark mode";
                 fr_description := SqlText "d";
                 fr_priority := SqlText "low";
                 fr_category := SqlNull;
                 fr_confidence := SqlNull;
                 fr_potential_recommendation := SqlNull;
                 fr_summary := SqlText "s";
                 fr_created_at := 160 |} ];
     r2_faults := []; d1_faults := []; trace := [] |}.

(** The stores are not configured. *)
Definition unbound (ai : Ai) : Env :=
  {| AI := Some ai; AUDIO_BUCKET := Missing; audio2features := Missing |}.

(** [{"requests":[{"title":"Add dark mode"},{"title":5}],"summary":"s"}] *)
Definition malformed_json : string :=
  "{" ++ quoted "requests" ++ ":[{" ++
    quoted "title" ++ ":" ++ quoted "Add dark mode" ++ "},{" ++
    quoted "title" ++ ":5}]," ++
    quoted "summary" ++ ":" ++ quoted "s" ++ "}".

Definition malformed_records : list value :=
  [ VObj [("title", VStr "Add dark mode")];
    VObj [("title", VNum (Num 5 0))] ].

(** [{"requests":[{"title":"Add dark mode"},{"title":"Export to CSV"}],
     "summary":"s"}] *)
Definition two_requests_json : string :=
  "{" ++ quoted "requests" ++ ":[{" ++
    quoted "title" ++ ":" ++ quoted "Add dark mode" ++ "},{" ++
    quoted "title" ++ ":" ++ quoted "Export to CSV" ++ "}]," ++
    quoted "summary" ++ ":" ++ quoted "s" ++ "}".

Definition two_records : list value :=
  [ VObj [("title", VStr "Add dark mode")];
    VObj [("title", VStr "Export to CSV")] ].

(** An empty database that answers [n] statements and fails the next. *)
Definition world_d1_fails_after (n : nat) : World :=
  {| now := 0; minted := 0; bucket := [];
     audio_files := None; feature_requests := None;
     r2_faults := [];
     d1_faults := repeat None n ++ [Some (JsError "D1_ERROR: Network connection lost")];
     trace := [] |}.

End MoreSamples.

(* ===================================================================== *)
(** ** JSON texts *)
(* ===================================================================== *)

(** The JSON grammar (ECMA-404), written down on its own: a text is given
    by its syntax tree, which records every token as it is spelled, white
    space, escapes and the digits of numbers included. [tree_text] is the
    text of a tree and [tree_value] the value it denotes. Every text of
    the grammar is the text of one well-formed tree. A text function takes
    the text that follows as a second argument. *)
Module JsonText.
Import JsString Js.

(** White space: space, horizontal tab, line feed, carriage return. *)
Inductive space : Set := Space | Tab | LineFeed | Return.

Definition space_char (s : space) : ascii :=
  match s with
  | Space => " "%char
  | Tab => chr 9
  | LineFeed => chr 10
  | Return => chr 13
  end.

Fixpoint blank_text (b : list space) (k : string) : string :=
  match b with
  | [] => k
  | s :: r => String (space_char s) (blank_text r k)
  end.

(** Decimal digits. *)
Inductive digit : Set :=
| Zero | One | Two | Three | Four | Five | Six | Seven | Eight | Nine.

Definition digit_char (d : digit) : ascii :=
  match d with
  | Zero => "0" | One => "1" | Two => "2" | Three => "3" | Four => "4"
  | Five => "5" | Six => "6" | Seven => "7" | Eight => "8" | Nine => "9"
  end%char.

Definition digit_value (d : digit) : Z :=
  match d with
  | Zero => 0 | One => 1 | Two => 2 | Three => 3 | Four => 4
  | Five => 5 | Six => 6 | Seven => 7 | Eight => 8 | Nine => 9
  end%Z.

Fixpoint digits_text (ds : list digit) (k : string) : string :=
  match ds with
  | [] => k
  | d :: r => String (digit_char d) (digits_text r k)
  end.

(** The number a row of digits denotes, most significant digit first. *)
Fixpoint decimal_from (acc : Z) (ds : list digit) : Z :=
  match ds with
  | [] => acc
  | d :: r => decimal_from (10 * acc + digit_value d) r
  end.

Definition decimal (ds : list digit) : Z := decimal_from 0 ds.

(** The exponent part: [e] or [E], a sign or none, digits. *)
Inductive sign : Set := NoSign | Plus | Minus.

Record exponent : Set :=
  { capital : bool; exp_sign : sign; exp_digits : list digit }.

(** A number: a minus sign or none, the integer digits, the digits after
    the point if there is one, the exponent part if there is one. *)
Record numeral : Set :=
  { negative : bool;
    int_digits : list digit;
    frac_digits : option (list digit);
    exp_part : option exponent }.

Definition sign_text (s : sign) (k : string) : string :=
  match s with
  | NoSign => k
  | Plus => String "+" k
  | Minus => String "-" k
  end.

Definition exponent_text (e : option exponent) (k : string) : string :=
  match e with
  | None => k
  | Some x =>
      String (if capital x then "E" else "e")%char
        (sign_text (exp_sign x) (digits_text (exp_digits x) k))
  end.

Definition fraction_text (f : option (list digit)) (k : string) : string :=
  match f with
  | None => k
  | Some ds => String "." (digits_text ds k)
  end.

Definition numeral_text (n : numeral) (k : string) : string :=
  let body := digits_text (int_digits n)
                (fraction_text (frac_digits n) (exponent_text (exp_part n) k)) in
  if negative n then String "-" body else body.

(** The integer part is [0] or starts with another digit; a point and an
    exponent mark are followed by at least one digit. *)
Definition numeral_ok (n : numeral) : bool :=
  match int_digits n with
  | [] => false
  | Zero :: r => match r with [] => true | _ => false end
  | _ :: _ => true
  end &&
  match frac_digits n with
  | Some [] => false
  | _ => true
  end &&
  match exp_part n with
  | Some x => match exp_digits x with [] => false | _ => true end
  | None => true
  end.

Definition fraction_digits (n : numeral) : list digit :=
  match frac_digits n with
  | Some ds => ds
  | None => []
  end.

Definition exponent_value (e : option exponent) : Z :=
  match e with
  | None => 0
  | Some x =>
      match exp_sign x with
      | Minus => - decimal (exp_digits x)
      | _ => decimal (exp_digits x)
      end
  end%Z.

(** [d1...dm.f1...fn e x] denotes [d1...dm f1...fn * 10^(x - n)]. *)
Definition numeral_value (n : numeral) : number :=
  let m := decimal (int_digits n ++ fraction_digits n) in
  Num (if negative n then - m else m)%Z
      (exponent_value (exp_part n) - Z.of_nat (length (fraction_digits n)))%Z.

(** The escapes of one letter. *)
Inductive escape : Set :=
| EQuote | EBackslash | ESlash | EBackspace | EFormFeed | ELineFeed
| EReturn | ETab.

(** The character written after the backslash. *)
Definition escape_letter (e : escape) : ascii :=
  match e with
  | EQuote => dquote
  | EBackslash => "\"
  | ESlash => "/"
  | EBackspace => "b"
  | EFormFeed => "f"
  | ELineFeed => "n"
  | EReturn => "r"
  | ETab => "t"
  end%char.

(** The character the escape stands for. *)
Definition escape_char (e : escape) : ascii :=
  match e with
  | EQuote => dquote
  | EBackslash => "\"%char
  | ESlash => "/"%char
  | EBackspace => chr 8
  | EFormFeed => chr 12
  | ELineFeed => chr 10
  | EReturn => chr 13
  | ETab => chr 9
  end.

(** Hexadecimal digits: a decimal digit, or a letter from [a] to [f] in
    either case. *)
Inductive letter : Set := LA | LB | LC | LD | LE | LF.

Inductive hex : Set :=
| HexDigit (d : digit)
| HexLower (l : letter)
| HexUpper (l : letter).

Definition letter_index (l : letter) : nat :=
  match l with
  | LA => 0 | LB => 1 | LC => 2 | LD => 3 | LE => 4 | LF => 5
  end.

Definition hex_char (h : hex) : ascii :=
  match h with
  | HexDigit d => digit_char d
  | HexLower l => chr (97 + letter_index l)
  | HexUpper l => chr (65 + letter_index l)
  end.

Definition hex_value (h : hex) : N :=
  match h with
  | HexDigit d => Z.to_N (digit_value d)
  | HexLower l | HexUpper l => N.of_nat (10 + letter_index l)
  end.

(** One element of a string literal: a character written as it is (not a
    quote, not a backslash, not a control character), an escape of one
    letter, or [\u] and four hexadecimal digits for a UTF-16 code unit. *)
Inductive item : Set :=
| Plain (c : ascii)
| Escaped (e : escape)
| Unicode (h1 h2 h3 h4 : hex).

Definition unit_of (h1 h2 h3 h4 : hex) : N :=
  (((hex_value h1 * 16 + hex_value h2) * 16 + hex_value h3) * 16 + hex_value h4)%N.

Definition item_ok (i : item) : bool :=
  match i with
  | Plain c =>
      (32 <=? code c)%nat && negb (c =? dquote)%char && negb (c =? "\")%char
  | _ => true
  end.

Definition item_text (i : item) (k : string) : string :=
  match i with
  | Plain c => String c k
  | Escaped e => String "\" (String (escape_letter e) k)
  | Unicode h1 h2 h3 h4 =>
      String "\" (String "u" (String (hex_char h1) (String (hex_char h2)
        (String (hex_char h3) (String (hex_char h4) k)))))
  end.

Fixpoint items_text (l : list item) (k : string) : string :=
  match l with
  | [] => k
  | i :: r => item_text i (items_text r k)
  end.

(** A string literal: its items between quotes. *)
Definition literal_text (l : list item) (k : string) : string :=
  String dquote (items_text l (String dquote k)).

(** The string a literal denotes. A code unit in D800..DBFF followed by
    one in DC00..DFFF is one code point above FFFF; every other code
    unit is the code point of that number. *)
Fixpoint literal_value (l : list item) : string :=
  match l with
  | [] => EmptyString
  | Plain c :: r => String c (literal_value r)
  | Escaped e :: r => String (escape_char e) (literal_value r)
  | Unicode h1 h2 h3 h4 :: r =>
      let u := unit_of h1 h2 h3 h4 in
      match r with
      | Unicode g1 g2 g3 g4 :: r' =>
          let v := unit_of g1 g2 g3 g4 in
          if ((55296 <=? u) && (u <=? 56319) && (56320 <=? v) && (v <=? 57343))%N
          then utf8 (65536 + (u - 55296) * 1024 + (v - 56320))%N ++ literal_value r'
          else utf8 u ++ literal_value r
      | _ => utf8 u ++ literal_value r
      end
  end.

(** Values, the elements of an array and the members of an object, each
    with the white space that may surround its tokens. *)
Inductive tree : Set :=
| TNull
| TTrue
| TFalse
| TNumber (n : numeral)
| TString (l : list item)
| TEmptyArray (b : list space)
| TArray (b : list space) (es : elements)
| TEmptyObject (b : list space)
| TObject (b : list space) (ms : members)
with elements : Set :=
| LastElement (t : tree) (after : list space)
| Element (t : tree) (after : list space) (before : list space) (r : elements)
with members : Set :=
| LastMember (key : list item) (b1 b2 : list space) (t : tree)
    (after : list space)
| Member (key : list item) (b1 b2 : list space) (t : tree)
    (after : list space) (before : list space) (r : members).

Scheme tree_mut := Induction for tree Sort Prop
  with elements_mut := Induction for elements Sort Prop
  with members_mut := Induction for members Sort Prop.

Combined Scheme tree_mutind from tree_mut, elements_mut, members_mut.

(** [null], [true], [false], a number, a string, [[ elements ]],
    [{ members }]; elements are values separated by commas, members are
    [key : value] pairs separated by commas. *)
Fixpoint tree_text (t : tree) (k : string) : string :=
  match t with
  | TNull => "null" ++ k
  | TTrue => "true" ++ k
  | TFalse => "false" ++ k
  | TNumber n => numeral_text n k
  | TString l => literal_text l k
  | TEmptyArray b => String "[" (blank_text b (String "]" k))
  | TArray b es => String "[" (blank_text b (elements_text es (String "]" k)))
  | TEmptyObject b => String "{" (blank_text b (String "}" k))
  | TObject b ms => String "{" (blank_text b (members_text ms (String "}" k)))
  end
with elements_text (es : elements) (k : string) : string :=
  match es with
  | LastElement t after => tree_text t (blank_text after k)
  | Element t after before r =>
      tree_text t (blank_text after
        (String "," (blank_text before (elements_text r k))))
  end
with members_text (ms : members) (k : string) : string :=
  match ms with
  | LastMember key b1 b2 t after =>
      literal_text key (blank_text b1
        (String ":" (blank_text b2 (tree_text t (blank_text after k)))))
  | Member key b1 b2 t after before r =>
      literal_text key (blank_text b1
        (String ":" (blank_text b2 (tree_text t (blank_text after
          (String "," (blank_text before (members_text r k))))))))
  end.

(** The value of a tree. The properties of an object are defined in the
    order of the members: a key written twice keeps its first place and
    takes its last value. *)
Fixpoint tree_value (t : tree) : value :=
  match t with
  | TNull => VNull
  | TTrue => VBool true
  | TFalse => VBool false
  | TNumber n => VNum (numeral_value n)
  | TString l => VStr (literal_value l)
  | TEmptyArray _ => VArr []
  | TArray _ es => VArr (elements_value es)
  | TEmptyObject _ => VObj []
  | TObject _ ms => VObj (define_all [] (members_value ms))
  end
with elements_value (es : elements) : list value :=
  match es with
  | LastElement t _ => [tree_value t]
  | Element t _ _ r => tree_value t :: elements_value r
  end
with members_value (ms : members) : list (string * value) :=
  match ms with
  | LastMember key _ _ t _ => [(literal_value key, tree_value t)]
  | Member key _ _ t _ _ r => (literal_value key, tree_value t) :: members_value r
  end.

(** Every number and every string literal of the tree is well formed. *)
Fixpoint tree_ok (t : tree) : bool :=
  match t with
  | TNumber n => numeral_ok n
  | TString l => forallb item_ok l
  | TArray _ es => elements_ok es
  | TObject _ ms => members_ok ms
  | _ => true
  end
with elements_ok (es : elements) : bool :=
  match es with
  | LastElement t _ => tree_ok t
  | Element t _ _ r => tree_ok t && elements_ok r
  end
with members_ok (ms : members) : bool :=
  match ms with
  | LastMember key _ _ t _ => forallb item_ok key && tree_ok t
  | Member key _ _ t _ _ r => forallb item_ok key && tree_ok t && members_ok r
  end.

(** The piece [parse_string_body] makes of an item. *)
Definition piece_of (i : item) : piece :=
  match i with
  | Plain c => Raw c
  | Escaped e => Raw (escape_char e)
  | Unicode h1 h2 h3 h4 => Unit16 (unit_of h1 h2 h3 h4)
  end.

(** The text of a tree on its own. *)
Definition text_of (t : tree) : string := tree_text t EmptyString.

(** The text does not go on with a digit. *)
Definition no_digit_ahead (k : string) : bool :=
  match k with
  | EmptyString => true
  | String c _ => negb (is_digit c)
  end.

(** What may follow a number: anything but a digit, a point and an
    exponent mark. *)
Definition delimited (k : string) : bool :=
  match k with
  | EmptyString => true
  | String c _ =>
      negb (is_digit c || (c =? ".")%char || (c =? "e")%char || (c =? "E")%char)
  end.

(** *** A sample text *)

(** The items of a string written without an escape. *)
Definition plain (s : string) : list item := map Plain (list_ascii_of_string s).

Definition indent (n : nat) : list space := LineFeed :: repeat Space n.

(** The member [key : value,] on a line of its own. *)
Definition line (n : nat) (key : string) (t : tree) (r : members) : members :=
  Member (plain key) [] [Space] t [] (indent n) r.

Definition last_line (n : nat) (key : string) (t : tree) : members :=
  LastMember (plain key) [] [Space] t (indent n).

(** Three requests, laid out over several lines, with escapes in the
    titles, numbers with a fraction and with an exponent, an array inside
    a request and a key written twice (the double quotes of the text are
    shown as apostrophes here):
<<
{
  'requests': [
    {
      'title': 'Add \'dark\' mode',
      'priority': 'high',
      'category': 'new-feature',
      'confidence': 0.9
    },{'title':'Export\tto C\u0053V \ud83d\ude00','priority':'low',
       'category':'enhancement','confidence':1E-1,
       'potentialRecommendation':[ 'a\/b' , [] , null , true ]},
    {
      'title': 'Fix caf\u00E9 crash',
      'priority': 'medium',
      'category': 'bug-fix',
      'confidence': -25e+0,
      'priority': 'low'
    }
  ],
  'summary': 'three\nrequests'
}
>> *)
Definition sample_document : tree :=
  TObject (indent 2)
    (line 2 "requests"
       (TArray (indent 4)
          (Element
             (TObject (indent 6)
                (line 6 "title"
                   (TString (plain "Add " ++ [Escaped EQuote] ++ plain "dark" ++
                             [Escaped EQuote] ++ plain " mode"))
                (line 6 "priority" (TString (plain "high"))
                (line 6 "category" (TString (plain "new-feature"))
                (last_line 4 "confidence"
                   (TNumber {| negative := false; int_digits := [Zero];
                               frac_digits := Some [Nine];
                               exp_part := None |}))))))
             [] []
          (Element
             (TObject []
                (Member (plain "title") [] []
                   (TString (plain "Export" ++ [Escaped ETab] ++ plain "to C" ++
                             [Unicode (HexDigit Zero) (HexDigit Zero)
                                (HexDigit Five) (HexDigit Three)] ++
                             plain "V " ++
                             [Unicode (HexLower LD) (HexDigit Eight)
                                (HexDigit Three) (HexLower LD);
                              Unicode (HexLower LD) (HexLower LE)
                                (HexDigit Zero) (HexDigit Zero)]))
                   [] []
                (Member (plain "priority") [] [] (TString (plain "low"))
                   [] (indent 7)
                (Member (plain "category") [] [] (TString (plain "enhancement"))
                   [] []
                (Member (plain "confidence") [] []
                   (TNumber {| negative := false; int_digits := [One];
                               frac_digits := None;
                               exp_part := Some {| capital := true;
                                                   exp_sign := Minus;
                                                   exp_digits := [One] |} |})
                   [] (indent 7)
                (LastMember (plain "potentialRecommendation") [] []
                   (TArray [Space]
                      (Element (TString (plain "a" ++ [Escaped ESlash] ++ plain "b"))
                         [Space] [Space]
                      (Element (TEmptyArray []) [Space] [Space]
                      (Element TNull [Space] [Space]
                      (LastElement TTrue [Space])))))
                   []))))))
             [] (indent 4)
          (LastElement
             (TObject (indent 6)
                (line 6 "title"
                   (TString (plain "Fix caf" ++
                             [Unicode (HexDigit Zero) (HexDigit Zero)
                                (HexUpper LE) (HexDigit Nine)] ++
                             plain " crash"))
                (line 6 "priority" (TString (plain "medium"))
                (line 6 "category" (TString (plain "bug-fix"))
                (line 6 "confidence"
                   (TNumber {| negative := true; int_digits := [Two; Five];
                               frac_digits := None;
                               exp_part := Some {| capital := false;
                                                   exp_sign := Plus;
                                                   exp_digits := [Zero] |} |})
                (last_line 4 "priority" (TString (plain "low"))))))))
             (indent 2)))))
    (last_line 0 "summary"
       (TString (plain "three" ++ [Escaped ELineFeed] ++ plain "requests")))).

(** The requests of the sample, as values. *)
Definition sample_requests : list value :=
  [ VObj [ ("title", VStr ("Add " ++ String dquote "dark" ++ String dquote " mode"));
           ("priority", VStr "high");
           ("category", VStr "new-feature");
           ("confidence", VNum (Num 9 (-1))) ];
    VObj [ ("title", VStr ("Export" ++ String (chr 9) "to CSV " ++ utf8 128512));
           ("priority", VStr "low");
           ("category", VStr "enhancement");
           ("confidence", VNum (Num 1 (-1)));
           ("potentialRecommendation",
            VArr [VStr "a/b"; VArr []; VNull; VBool true]) ];
    VObj [ ("title", VStr ("Fix caf" ++ utf8 233 ++ " crash"));
           ("priority", VStr "low");
           ("category", VStr "bug-fix");
           ("confidence", VNum (Num (-25) 0)) ] ].

End JsonText.

(* ===================================================================== *)
(** ** Properties *)
(* ===================================================================== *)

Import JsString Js Runtime App Props Samples.
Local Open Scope js_scope.

(** *** Objects *)

Lemma get_own_set_prop_same (o : object) k v :
  get_own (set_prop o k v) k = Some v.
Proof.
  induction o as [|[k' v'] o IH]; simpl.
  - now rewrite String.eqb_refl.
  - destruct (String.eqb_spec k' k) as [->|Hne]; simpl.
    + now rewrite String.eqb_refl.
    + destruct (String.eqb_spec k' k); [contradiction|exact IH].
Qed.

Lemma get_own_set_prop_other (o : object) k k' v :
  k' <> k -> get_own (set_prop o k' v) k = get_own o k.
Proof.
  intros Hne. induction o as [|[k0 v0] o IH]; simpl.
  - destruct (String.eqb_spec k' k); [contradiction|reflexivity].
  - destruct (String.eqb_spec k0 k') as [->|Hk0]; simpl.
    + destruct (String.eqb_spec k' k); [contradiction|reflexivity].
    + destruct (String.eqb_spec k0 k); [reflexivity|exact IH].
Qed.

Lemma get_own_define_all_other (kvs : list (string * value)) (o : object) k :
  Forall (fun kv => fst kv <> k) kvs ->
  get_own (define_all o kvs) k = get_own o k.
Proof.
  unfold define_all. revert o.
  induction kvs as [|[k' v'] kvs IH]; intros o H; simpl.
  - reflexivity.
  - inversion H as [|? ? Hk Hr]; subst.
    rewrite IH by exact Hr. now apply get_own_set_prop_other.
Qed.

Lemma get_own_metadata_requests (o : object) ms t :
  get_own (define_all o (metadata ms t)) "requests" = get_own o "requests".
Proof.
  apply get_own_define_all_other.
  repeat constructor; simpl; discriminate.
Qed.

(** *** The regular expression: from the first opening brace to the last
    closing one *)

Lemma occurs_app c a b : occurs c (a ++ b)%string = occurs c a || occurs c b.
Proof.
  induction a as [|x a IH]; cbn [String.append occurs]; [reflexivity|].
  now rewrite IH, orb_assoc.
Qed.

Lemma greedy_close_none r : greedy_close r = None -> occurs "}" r = false.
Proof.
  induction r as [|c r IH]; cbn [greedy_close occurs]; [reflexivity|].
  destruct (greedy_close r); [discriminate|].
  destruct (c =? "}")%char; [discriminate|]. intros _. now rewrite IH.
Qed.

Lemma greedy_close_spec r : forall m,
  greedy_close r = Some m ->
  exists mid post,
    (m = mid ++ "}")%string /\ (r = mid ++ "}" ++ post)%string /\ occurs "}" post = false.
Proof.
  induction r as [|c r IH]; intros m; cbn [greedy_close]; [discriminate|].
  destruct (greedy_close r) as [m'|] eqn:E.
  - intros [= <-]. destruct (IH m' eq_refl) as (mid & post & -> & -> & Hp).
    exists (String c mid), post. repeat split. exact Hp.
  - destruct (Ascii.eqb_spec c "}") as [->|]; [|discriminate].
    intros [= <-]. exists EmptyString, r. repeat split.
    now apply greedy_close_none.
Qed.

Lemma match_brace_span_spec s : forall m,
  match_brace_span s = Some m ->
  exists pre mid post,
    (s = pre ++ "{" ++ mid ++ "}" ++ post)%string /\
    (m = "{" ++ mid ++ "}")%string /\
    occurs "{" pre = false /\
    occurs "}" post = false.
Proof.
  induction s as [|c s IH]; intros m; cbn [match_brace_span]; [discriminate|].
  destruct (Ascii.eqb_spec c "{") as [->|Hc].
  - destruct (greedy_close s) as [m'|] eqn:E.
    + intros [= <-].
      destruct (greedy_close_spec s m' E) as (mid & post & -> & -> & Hp).
      exists EmptyString, mid, post. repeat split. exact Hp.
    + intros H. destruct (IH m H) as (pre & mid & post & -> & _).
      apply greedy_close_none in E.
      rewrite !occurs_app in E. cbn [occurs] in E.
      rewrite Ascii.eqb_refl in E. cbn in E.
      rewrite !orb_true_r in E. discriminate.
  - intros H. destruct (IH m H) as (pre & mid & post & -> & -> & Hpre & Hpost).
    exists (String c pre), mid, post. repeat split; [|exact Hpost].
    cbn [occurs]. rewrite Hpre.
    destruct (Ascii.eqb_spec c "{"); [contradiction|reflexivity].
Qed.

Lemma match_brace_span_none s :
  match_brace_span s = None ->
  forall pre mid post, (s <> pre ++ "{" ++ mid ++ "}" ++ post)%string.
Proof.
  induction s as [|c s IH]; cbn [match_brace_span].
  - intros _ [|x pre] mid post; discriminate.
  - destruct (Ascii.eqb_spec c "{") as [->|Hc].
    + destruct (greedy_close s) as [m'|] eqn:E; [discriminate|].
      intros _ pre mid post Hs. apply greedy_close_none in E.
      destruct pre as [|x pre]; cbn [String.append] in Hs; inversion Hs; subst;
        rewrite ?occurs_app in E; cbn [String.append occurs] in E;
        rewrite ?occurs_app in E; cbn [String.append occurs] in E;
        rewrite ?Ascii.eqb_refl in E; cbn [orb] in E;
        rewrite ?orb_true_r in E; discriminate.
    + intros H pre mid post Hs.
      destruct pre as [|x pre]; cbn [String.append] in Hs.
      * inversion Hs; subst. contradiction.
      * inversion Hs; subst. now apply (IH H pre mid post).
Qed.

(** *** The brace span and its decoding *)

Lemma match_brace_span_head s m :
  match_brace_span s = Some m -> exists r, m = String "{" r.
Proof.
  induction s as [|c s IH]; simpl; [discriminate|].
  destruct (Ascii.eqb_spec c "{") as [->|Hc].
  - destruct (greedy_close s) as [m'|].
    + intros [= <-]. now exists m'.
    + exact IH.
  - exact IH.
Qed.

Lemma parse_value_brace fuel r v rest :
  parse_value fuel (String "{" r) = Some (v, rest) -> exists o, v = VObj o.
Proof.
  destruct fuel as [|fuel]; [discriminate|].
  cbn [parse_value skip_ws]. change (is_ws "{") with false. cbv iota.
  change ("{" =? "{")%char with true. cbv iota.
  destruct (skip_ws r) as [|c' r']; [discriminate|].
  destruct (c' =? "}")%char.
  - intros [= <- _]. now exists [].
  - destruct (parse_members fuel (String c' r')) as [[kvs r'']|]; [|discriminate].
    intros [= <- _]. now eexists.
Qed.

Lemma JSON_parse_brace r v :
  JSON_parse (String "{" r) = Some v -> exists o, v = VObj o.
Proof.
  unfold JSON_parse.
  destruct (parse_value _ _) as [[v' rest]|] eqn:E; [|discriminate].
  destruct (skip_ws rest); [|discriminate].
  intros [= <-]. eapply parse_value_brace; eauto.
Qed.

Lemma decode_span_object text v :
  decode_span text = Ok v -> exists o, v = VObj o.
Proof.
  unfold decode_span.
  destruct (match_brace_span text) as [m|] eqn:Em; [|discriminate].
  destruct (match_brace_span_head _ _ Em) as [r ->].
  destruct (JSON_parse _) as [p|] eqn:Ep; [|discriminate].
  intros [= <-]. eapply JSON_parse_brace; eauto.
Qed.

Lemma parse_response_object result v :
  parse_response result = Ok v -> exists o, v = VObj o.
Proof.
  unfold parse_response.
  destruct (response_text result) as [rt|]; [|discriminate].
  destruct (as_string rt) as [text|]; [|discriminate].
  apply decode_span_object.
Qed.


(** *** [JSON.parse]: the fuel is enough *)

Lemma skip_ws_length s : String.length (skip_ws s) <= String.length s.
Proof.
  induction s as [|c s IH]; cbn [skip_ws]; [lia|].
  destruct (is_ws c); cbn [String.length] in *; lia.
Qed.

Lemma strip_prefix_length p : forall s r,
  strip_prefix p s = Some r -> String.length r <= String.length s.
Proof.
  induction p as [|a p IH]; intros s r; cbn [strip_prefix].
  - intros [= ->]. lia.
  - destruct s as [|b s]; [discriminate|].
    destruct (a =? b)%char; [|discriminate].
    intros H. apply IH in H. cbn [String.length]. lia.
Qed.

Lemma take_digits_length s :
  String.length (snd (take_digits s)) <= String.length s.
Proof.
  induction s as [|c s IH]; cbn [take_digits]; [cbn; lia|].
  destruct (is_digit c); [|cbn; lia].
  destruct (take_digits s) as [ds r]. cbn [snd String.length] in *. lia.
Qed.

Lemma parse_int_length s ds r :
  parse_int s = Some (ds, r) -> String.length r < String.length s.
Proof.
  unfold parse_int. destruct s as [|c s]; [discriminate|].
  destruct (c =? "0")%char.
  - intros [= _ <-]. cbn. lia.
  - destruct (is_digit c); [|discriminate].
    pose proof (take_digits_length s) as H.
    destruct (take_digits s) as [ds' r']. intros [= _ <-].
    cbn [snd String.length] in *. lia.
Qed.

Lemma parse_frac_length s ds r :
  parse_frac s = Some (ds, r) -> String.length r <= String.length s.
Proof.
  unfold parse_frac. destruct s as [|c s]; [intros [= _ <-]; lia|].
  destruct (c =? ".")%char; [|intros [= _ <-]; lia].
  pose proof (take_digits_length s) as H.
  destruct (take_digits s) as [[|d ds'] r']; [discriminate|].
  intros [= _ <-]. cbn [snd String.length] in *. lia.
Qed.

Lemma exponent_sign_length s :
  String.length (snd (exponent_sign s)) <= String.length s.
Proof.
  unfold exponent_sign. destruct s as [|sg r]; [cbn; lia|].
  destruct (sg =? "-")%char; [cbn; lia|].
  destruct (sg =? "+")%char; cbn; lia.
Qed.

Lemma parse_exp_length s e r :
  parse_exp s = Some (e, r) -> String.length r <= String.length s.
Proof.
  unfold parse_exp. destruct s as [|c s]; [intros [= _ <-]; lia|].
  destruct ((c =? "e")%char || (c =? "E")%char); [|intros [= _ <-]; lia].
  pose proof (exponent_sign_length s) as H1.
  destruct (exponent_sign s) as [neg r1].
  pose proof (take_digits_length r1) as H2.
  destruct (take_digits r1) as [[|d ds] r2]; [discriminate|].
  intros [= _ <-]. cbn [snd String.length] in *. lia.
Qed.

Lemma leading_minus_length s :
  String.length (snd (leading_minus s)) <= String.length s.
Proof.
  unfold leading_minus. destruct s as [|c r]; [cbn; lia|].
  destruct (c =? "-")%char; cbn; lia.
Qed.

Lemma parse_number_length s n r :
  parse_number s = Some (n, r) -> String.length r < String.length s.
Proof.
  unfold parse_number.
  pose proof (leading_minus_length s) as H0.
  destruct (leading_minus s) as [neg s1].
  destruct (parse_int s1) as [[ip s2]|] eqn:E1; [|discriminate].
  destruct (parse_frac s2) as [[fp s3]|] eqn:E2; [|discriminate].
  destruct (parse_exp s3) as [[e s4]|] eqn:E3; [|discriminate].
  intros [= _ <-].
  apply parse_int_length in E1. apply parse_frac_length in E2.
  apply parse_exp_length in E3. cbn [snd] in H0. lia.
Qed.

Lemma parse_string_body_length n : forall s ps r,
  String.length s <= n ->
  parse_string_body s = Some (ps, r) -> String.length r < String.length s.
Proof.
  induction n as [|n IH]; intros s ps r Hn.
  - destruct s; [discriminate|cbn in Hn; lia].
  - destruct s as [|c s]; [discriminate|].
    cbn [parse_string_body String.length] in *.
    destruct (c =? dquote)%char; [intros [= _ <-]; lia|].
    destruct (c =? "\")%char.
    + destruct s as [|e r1]; [discriminate|].
      destruct (e =? "u")%char.
      * destruct r1 as [|h1 [|h2 [|h3 [|h4 r2]]]]; try discriminate.
        destruct (hex4 h1 h2 h3 h4); [|discriminate].
        destruct (parse_string_body r2) as [[ps' r3]|] eqn:E; [|discriminate].
        intros [= _ <-]. apply IH in E; cbn [String.length] in *; lia.
      * destruct (simple_escape e); [|discriminate].
        destruct (parse_string_body r1) as [[ps' r3]|] eqn:E; [|discriminate].
        intros [= _ <-]. apply IH in E; cbn [String.length] in *; lia.
    + destruct (code c <? 32)%nat; [discriminate|].
      destruct (parse_string_body s) as [[ps' r3]|] eqn:E; [|discriminate].
      intros [= _ <-]. apply IH in E; lia.
Qed.

Lemma parse_string_length s str r :
  parse_string s = Some (str, r) -> String.length r < String.length s.
Proof.
  unfold parse_string.
  destruct (parse_string_body s) as [[ps r']|] eqn:E; [|discriminate].
  intros [= _ <-]. eapply parse_string_body_length; eauto.
Qed.

Ltac learn H :=
  let T := type of H in
  lazymatch goal with
  | _ : T |- _ => fail
  | _ => pose proof H
  end.

Ltac length_facts :=
  repeat match goal with
  | H : skip_ws ?a = ?b |- _ =>
      learn (eq_ind _ (fun x => String.length x <= String.length a) (skip_ws_length a) _ H)
  | H : strip_prefix _ _ = Some _ |- _ => learn (strip_prefix_length _ _ _ H)
  | H : parse_string _ = Some (_, _) |- _ => learn (parse_string_length _ _ _ H)
  | H : parse_number _ = Some (_, _) |- _ => learn (parse_number_length _ _ _ H)
  end;
  cbn [String.length] in *.

Ltac break_hyp H :=
  match type of H with
  | context [match ?x with _ => _ end] => destruct x eqn:?
  end.

Lemma parse_consumes fuel :
  (forall s v r, parse_value fuel s = Some (v, r) ->
                 String.length r < String.length s) /\
  (forall s kvs r, parse_members fuel s = Some (kvs, r) ->
                   String.length r < String.length s) /\
  (forall s vs r, parse_elements fuel s = Some (vs, r) ->
                  String.length r < String.length s).
Proof.
  induction fuel as [|fuel (IHv & IHm & IHe)]; [repeat split; discriminate|].
  repeat split; intros s x r H; cbn [parse_value parse_members parse_elements] in H;
    repeat (break_hyp H; try discriminate);
    injection H as <- <-;
    repeat match goal with
    | E : parse_value fuel _ = Some (_, _) |- _ => apply IHv in E
    | E : parse_members fuel _ = Some (_, _) |- _ => apply IHm in E
    | E : parse_elements fuel _ = Some (_, _) |- _ => apply IHe in E
    end;
    length_facts; lia.
Qed.

Ltac consumed_facts :=
  repeat match goal with
  | H : parse_value ?f _ = Some (_, _) |- _ =>
      learn (proj1 (parse_consumes f) _ _ _ H)
  | H : parse_members ?f _ = Some (_, _) |- _ =>
      learn (proj1 (proj2 (parse_consumes f)) _ _ _ H)
  | H : parse_elements ?f _ = Some (_, _) |- _ =>
      learn (proj2 (proj2 (parse_consumes f)) _ _ _ H)
  end;
  length_facts.

Lemma parse_fuel f1 : forall f2 s,
  (2 * String.length s + 1 <= f1 -> 2 * String.length s + 1 <= f2 ->
   parse_value f1 s = parse_value f2 s) /\
  (2 * String.length s + 2 <= f1 -> 2 * String.length s + 2 <= f2 ->
   parse_members f1 s = parse_members f2 s) /\
  (2 * String.length s + 2 <= f1 -> 2 * String.length s + 2 <= f2 ->
   parse_elements f1 s = parse_elements f2 s).
Proof.
  induction f1 as [|f1 IH]; intros f2 s; destruct f2 as [|f2];
    repeat split; intros H1 H2; try lia;
    cbn [parse_value parse_members parse_elements];
    repeat first
      [ reflexivity
      | match goal with
        | |- context [parse_value f1 ?a] =>
            rewrite (proj1 (IH f2 a)) by (consumed_facts; lia)
        | |- context [parse_members f1 ?a] =>
            rewrite (proj1 (proj2 (IH f2 a))) by (consumed_facts; lia)
        | |- context [parse_elements f1 ?a] =>
            rewrite (proj2 (proj2 (IH f2 a))) by (consumed_facts; lia)
        end
      | match goal with
        | |- context [match ?x with _ => _ end] => destruct x eqn:?
        end ].
Qed.

(** The fuel of [JSON_parse] is never the reason for a [None]: with any
    larger amount the parser gives the same answer. *)
Lemma JSON_parse_fuel text fuel :
  2 * String.length text + 2 <= fuel ->
  parse_value fuel text = parse_value (2 * String.length text + 2) text.
Proof.
  intros H. apply (proj1 (parse_fuel fuel (2 * String.length text + 2) text)); lia.
Qed.

(** *** Checks on concrete texts *)

Example JSON_parse_dark_mode :
  JSON_parse dark_mode_json =
  Some (VObj [("requests", VArr [dark_mode_record]); ("summary", VStr "s")]).
Proof. reflexivity. Qed.

Example JSON_parse_last_duplicate_wins :
  JSON_parse ("{" ++ quoted "a" ++ ":1," ++ quoted "b" ++ ":[true,null]," ++
              quoted "a" ++ ": -2.50e1 }")%string =
  Some (VObj [("a", VNum (Num (-250) (-1))); ("b", VArr [VBool true; VNull])]).
Proof. reflexivity. Qed.

Example JSON_parse_rejects :
  JSON_parse "{title: 1}" = None /\
  JSON_parse "[1,]" = None /\
  JSON_parse "01" = None /\
  JSON_parse "{} {}" = None.
Proof. repeat split. Qed.

Example JSON_parse_escapes :
  JSON_parse (quoted "a\u00e9\n\ud83d\ude00") =
  Some (VStr (String "a" (utf8 233 ++ String (chr 10) (utf8 128512)))).
Proof. reflexivity. Qed.

Example match_brace_span_is_greedy :
  match_brace_span "one {a} two {b} three" = Some "{a} two {b}" /\
  match_brace_span "} before {" = None.
Proof. split; reflexivity. Qed.

Example toLowerCase_kelvin_sign :
  toLowerCase ("[FALLBAC" ++ utf8 8490 ++ "]") = "[fallback]".
Proof. reflexivity. Qed.

Example sanitize_file_name :
  sanitize ("caf" ++ utf8 233 ++ " n" ++ utf8 128512 ++ ".MP3") = "caf__n__.MP3".
Proof. reflexivity. Qed.

(** *** [extractFeatureRequests], case by case *)

Lemma extractFeatureRequests_eq t ai w :
  extractFeatureRequests t ai w =
  match ai with
  | None =>
      (Ok (fallback_result (JsError "AI binding not available")),
       after_extraction_fallback w)
  | Some run =>
      let r := run_messages run extraction_model (chat_inputs t) in
      let w1 := after_call extraction_model (latency r) w in
      match outcome r with
      | Throw e => (Ok (fallback_result e), after_extraction_fallback w1)
      | Ok result =>
          match parse_response result with
          | Ok parsed => (Ok (spread_with parsed (metadata (latency r) t)), w1)
          | Throw _ =>
              (Ok (spread_with parse_error_result (metadata (latency r) t)),
               log (EvConsoleError "Failed to parse AI response:") w1)
          end
      end
  end.
Proof.
  unfold extractFeatureRequests, try_catch, bind, ai_run_messages, Date_now,
    lift, throw, ret, console_error, sleep, after_call, metadata.
  destruct ai as [run|]; [|reflexivity].
  cbn zeta.
  destruct (outcome (run_messages run extraction_model (chat_inputs t)))
    as [result|e]; [|reflexivity].
  cbn [now log advance].
  rewrite Z.add_simpl_l.
  destruct (parse_response result); reflexivity.
Qed.

(** The Extraction Stage never raises: every call returns an object. *)
Lemma extractFeatureRequests_returns t ai w :
  exists o w', extractFeatureRequests t ai w = (Ok (VObj o), w').
Proof.
  rewrite extractFeatureRequests_eq.
  destruct ai as [run|]; [|unfold fallback_result; eauto].
  cbn zeta.
  destruct (outcome _) as [result|e]; [|unfold fallback_result; eauto].
  destruct (parse_response result); unfold spread_with; eauto.
Qed.

(** *** [processAudioWithAI], case by case *)

Lemma processAudioWithAI_eq audio ai w :
  processAudioWithAI audio ai w =
  match ai with
  | None =>
      (Ok (mock_result (JsError "AI binding not available")), after_mock w)
  | Some run =>
      let r := run_audio run transcription_model audio in
      let w1 := after_call transcription_model (latency r) w in
      match outcome r with
      | Throw e => (Ok (mock_result e), after_mock w1)
      | Ok result =>
          match extractFeatureRequests (transcription_text result) ai w1 with
          | (Ok fr, w2) =>
              (Ok (transcription_envelope result (latency r) fr), w2)
          | (Throw e, w2) => (Ok (mock_result e), after_mock w2)
          end
      end
  end.
Proof.
  unfold processAudioWithAI, try_catch, bind, ai_run_audio, Date_now,
    throw, ret, sleep, after_call, after_mock, transcription_envelope.
  destruct ai as [run|]; [|reflexivity].
  cbn zeta.
  destruct (outcome (run_audio run transcription_model audio))
    as [result|e]; [|reflexivity].
  cbn [now log advance].
  rewrite Z.add_simpl_l.
  destruct (extractFeatureRequests _ _ _) as [[fr|e] w2]; reflexivity.
Qed.

(** The Transcription Stage never raises either. *)
Lemma processAudioWithAI_returns audio ai w :
  exists v w', processAudioWithAI audio ai w = (Ok v, w').
Proof.
  rewrite processAudioWithAI_eq.
  destruct ai as [run|]; [|eauto].
  cbn zeta.
  destruct (outcome _) as [result|e]; [|eauto].
  destruct (extractFeatureRequests_returns (transcription_text result)
              (Some run)
              (after_call transcription_model
                 (latency (run_audio run transcription_model audio)) w))
    as (o & w2 & ->).
  eauto.
Qed.

(** *** C1: what the Transcription Stage embeds *)

(** C1, as stated, fails. A backend whose speech model rejects while its
    text model would answer with valid JSON: the Transcription Stage sleeps
    and returns the mock envelope; the text model is never called, and
    what is embedded as [featureRequests] is not a result the Extraction
    Stage returns on any text, in any world. *)
Lemma transcription_failure_skips_extraction :
  let ai := Some (backend (rejects (JsError "upstream unavailable"))
                    (says dark_mode_json)) in
  exists v w',
    processAudioWithAI (arrayBuffer recording) ai world0 = (Ok v, w') /\
    trace w' = [EvSleep 500; EvAiRun transcription_model] /\
    get_prop v "featureRequests" =
      Ok (mock_feature_requests (JsError "upstream unavailable")) /\
    forall text w1,
      fst (extractFeatureRequests text ai w1) <>
      Ok (mock_feature_requests (JsError "upstream unavailable")).
Proof.
  cbv zeta. do 2 eexists. split; [reflexivity|].
  split; [reflexivity|]. split; [reflexivity|].
  intros text w1. rewrite extractFeatureRequests_eq. discriminate.
Qed.

(** C1, amended. When the speech call resolves, the Extraction Stage is
    run on the text obtained from it (possibly empty), in the world the
    call left, and its result is embedded as [featureRequests]. When the
    handle is absent or the speech call rejects, the Extraction Stage is
    not run: after a 500 ms sleep the fixed mock envelope is returned, with
    the one record [mock-1] as [featureRequests]. *)
Theorem transcription_embeds_extraction_or_mock audio ai w :
  match ai with
  | None =>
      processAudioWithAI audio ai w =
        (Ok (mock_result (JsError "AI binding not available")), after_mock w)
  | Some run =>
      let r := run_audio run transcription_model audio in
      let w1 := after_call transcription_model (latency r) w in
      match outcome r with
      | Throw e =>
          processAudioWithAI audio ai w = (Ok (mock_result e), after_mock w1)
      | Ok result =>
          exists fr w2,
            extractFeatureRequests (transcription_text result) ai w1 =
              (Ok fr, w2) /\
            processAudioWithAI audio ai w =
              (Ok (transcription_envelope result (latency r) fr), w2)
      end
  end.
Proof.
  rewrite processAudioWithAI_eq.
  destruct ai as [run|]; [|reflexivity].
  cbv zeta.
  destruct (outcome (run_audio run transcription_model audio))
    as [result|e]; [|reflexivity].
  destruct (extractFeatureRequests_returns (transcription_text result)
              (Some run)
              (after_call transcription_model
                 (latency (run_audio run transcription_model audio)) w))
    as (o & w2 & E).
  rewrite E. eauto.
Qed.

(** *** C2: the [requests] field *)

(** C2, as stated, fails: the text model answers [{}], a valid JSON object;
    it is spread as it is, and the result has no [requests] at all. *)
Lemma empty_object_has_no_requests :
  exists o w',
    extractFeatureRequests "thanks everyone"
      (Some (backend (heard "thanks everyone") (says "{}"))) world0 =
      (Ok (VObj o), w') /\
    get_own o "requests" = None /\
    ~ has_requests (VObj o).
Proof.
  do 2 eexists. split; [reflexivity|]. split; [reflexivity|].
  intros [l H]. discriminate H.
Qed.

(** C2, amended. The result is always an object. Its [requests] is a
    one-record sequence when the backend call fails ([fallback-1]) or the
    response cannot be parsed ([parse-error-1]); when the response is
    parsed, [requests] is whatever the decoded object holds under that
    key, absent if the object has none. *)
Theorem requests_field_of_extraction t ai w :
  exists o w',
    extractFeatureRequests t ai w = (Ok (VObj o), w') /\
    match ai with
    | None => get_own o "requests" = Some (VArr [fallback_record])
    | Some run =>
        match outcome (run_messages run extraction_model (chat_inputs t)) with
        | Throw _ => get_own o "requests" = Some (VArr [fallback_record])
        | Ok result =>
            match parse_response result with
            | Throw _ => get_own o "requests" = Some (VArr [parse_error_record])
            | Ok parsed =>
                exists p,
                  parsed = VObj p /\
                  get_own o "requests" = get_own p "requests"
            end
        end
    end.
Proof.
  rewrite extractFeatureRequests_eq.
  destruct ai as [run|].
  2:{ do 2 eexists. split; reflexivity. }
  cbv zeta.
  destruct (outcome (run_messages run extraction_model (chat_inputs t)))
    as [result|e].
  2:{ do 2 eexists. split; reflexivity. }
  destruct (parse_response result) as [parsed|e] eqn:Ep.
  - destruct (parse_response_object _ _ Ep) as [p ->].
    do 2 eexists. split; [reflexivity|].
    exists p. split; [reflexivity|]. apply get_own_metadata_requests.
  - do 2 eexists. split; reflexivity.
Qed.

(** *** C3: responses that cannot be parsed *)

(** Whatever goes wrong inside the inner [try] (no response at all, a
    response text that is not a string, no span, a span that is not JSON)
    is recovered in the same way. *)
Lemma parse_failure_is_recovered t run w result e :
  outcome (run_messages run extraction_model (chat_inputs t)) = Ok result ->
  parse_response result = Throw e ->
  extractFeatureRequests t (Some run) w =
    (Ok (spread_with parse_error_result
           (metadata (latency (run_messages run extraction_model (chat_inputs t))) t)),
     log (EvConsoleError "Failed to parse AI response:")
       (after_call extraction_model
          (latency (run_messages run extraction_model (chat_inputs t))) w)).
Proof.
  intros Ho Hp. rewrite extractFeatureRequests_eq. cbv zeta.
  now rewrite Ho, Hp.
Qed.

(** C3. The text model answers, and its response text has no brace span,
    or a span that is not JSON: the Extraction Stage returns (it does not
    raise) exactly one record, [parse-error-1], "Unable to parse AI
    response", priority low, category improvement, confidence 0.1, with the
    summary "Error in processing AI response". *)
Theorem unparsable_response_yields_parse_error t run w result text :
  outcome (run_messages run extraction_model (chat_inputs t)) = Ok result ->
  response_text result = Ok (VStr text) ->
  (match_brace_span text = None \/
   exists span, match_brace_span text = Some span /\ JSON_parse span = None) ->
  exists w',
    extractFeatureRequests t (Some run) w =
      (Ok (VObj [ ("requests", VArr [parse_error_record]);
                  ("summary", VStr "Error in processing AI response");
                  ("extractionTimeMs",
                   vnum (latency (run_messages run extraction_model (chat_inputs t))));
                  ("model", VStr extraction_model);
                  ("originalTranscription", VStr t) ]), w') /\
    get_prop parse_error_record "id" = Ok (VStr "parse-error-1") /\
    get_prop parse_error_record "title" = Ok (VStr "Unable to parse AI response") /\
    get_prop parse_error_record "priority" = Ok (VStr "low") /\
    get_prop parse_error_record "category" = Ok (VStr "improvement") /\
    get_prop parse_error_record "confidence" = Ok (VNum (Num 1 (-1))).
Proof.
  intros Ho Ht Hspan.
  assert (Hp : exists e, parse_response result = Throw e).
  { unfold parse_response. rewrite Ht. cbn [as_string]. unfold decode_span.
    destruct Hspan as [-> | (span & -> & ->)]; eauto. }
  destruct Hp as [e Hp].
  rewrite extractFeatureRequests_eq. cbv zeta. rewrite Ho, Hp.
  eexists. split; [reflexivity|]. repeat split.
Qed.

(** The text model answers with prose around a span that is not JSON. *)
Lemma unparsable_response_yields_parse_error_witness :
  exists w',
    extractFeatureRequests "please add dark mode"
      (Some (backend (heard "please add dark mode")
               (says "I found one request: {title: Add dark mode}")))
      world0 =
      (Ok (VObj [ ("requests", VArr [parse_error_record]);
                  ("summary", VStr "Error in processing AI response");
                  ("extractionTimeMs", vnum 40);
                  ("model", VStr extraction_model);
                  ("originalTranscription", VStr "please add dark mode") ]), w').
Proof.
  destruct (unparsable_response_yields_parse_error "please add dark mode"
              (backend (heard "please add dark mode")
                 (says "I found one request: {title: Add dark mode}"))
              world0
              (VObj [("response", VStr "I found one request: {title: Add dark mode}")])
              "I found one request: {title: Add dark mode}")
    as (w' & H & _).
  - reflexivity.
  - reflexivity.
  - right. exists "{title: Add dark mode}". split; reflexivity.
  - exists w'. exact H.
Defined.

(** *** C4: the backend call fails *)

(** C4, as stated, fails on the error detail: a backend that rejects with
    an [Error] whose message is empty gets the fallback record, and an
    empty [error]. *)
Lemma fallback_error_detail_may_be_empty :
  exists w',
    extractFeatureRequests "please add dark mode"
      (Some (backend (heard "please add dark mode")
               (rejects (JsError EmptyString))))
      world0 =
      (Ok (VObj [ ("requests", VArr [fallback_record]);
                  ("summary", VStr "Feature extraction failed - using fallback response");
                  ("extractionTimeMs", vnum 300);
                  ("model", VStr extraction_model);
                  ("error", VStr EmptyString) ]), w').
Proof. eexists. reflexivity. Qed.

(** C4, amended. The handle is absent or the call rejects: after a 300 ms
    sleep the stage returns exactly one record, [fallback-1], "[Fallback]
    Feature extraction failed", priority medium, category improvement,
    confidence 0.3, with the summary "Feature extraction failed - using
    fallback response", and an [error] that is the message of the failure
    ("AI binding not available" for an absent handle, "Unknown error" for a
    thrown value that is no [Error]); it is empty exactly when the backend
    rejected with an [Error] of empty message. *)
Theorem backend_failure_yields_fallback t ai w err w1 :
  backend_failure t ai w = Some (err, w1) ->
  extractFeatureRequests t ai w =
    (Ok (VObj [ ("requests", VArr [fallback_record]);
                ("summary", VStr "Feature extraction failed - using fallback response");
                ("extractionTimeMs", vnum 300);
                ("model", VStr extraction_model);
                ("error", VStr (error_message err)) ]),
     log (EvSleep 300)
       (advance 300 (log (EvConsoleError "Feature extraction failed:") w1))) /\
  get_prop fallback_record "id" = Ok (VStr "fallback-1") /\
  get_prop fallback_record "title" = Ok (VStr "[Fallback] Feature extraction failed") /\
  get_prop fallback_record "priority" = Ok (VStr "medium") /\
  get_prop fallback_record "category" = Ok (VStr "improvement") /\
  get_prop fallback_record "confidence" = Ok (VNum (Num 3 (-1))) /\
  (ai = None -> error_message err = "AI binding not available") /\
  (error_message err = EmptyString <-> err = JsError EmptyString).
Proof.
  intros Hf. rewrite extractFeatureRequests_eq.
  unfold backend_failure in Hf.
  destruct ai as [run|].
  - cbv zeta in Hf |- *.
    destruct (outcome (run_messages run extraction_model (chat_inputs t)))
      as [result|e]; [discriminate|].
    injection Hf as -> <-.
    split; [reflexivity|]. repeat split; try discriminate.
    + destruct err as [m|v]; simpl; [intros ->; reflexivity|discriminate].
    + intros ->. reflexivity.
  - injection Hf as <- <-.
    split; [reflexivity|]. repeat split; discriminate.
Qed.

(** No [AI] binding at all. *)
Lemma backend_failure_yields_fallback_witness :
  backend_failure "please add dark mode" None world0 =
    Some (JsError "AI binding not available", world0) /\
  extractFeatureRequests "please add dark mode" None world0 =
    (Ok (VObj [ ("requests", VArr [fallback_record]);
                ("summary", VStr "Feature extraction failed - using fallback response");
                ("extractionTimeMs", vnum 300);
                ("model", VStr extraction_model);
                ("error", VStr "AI binding not available") ]),
     log (EvSleep 300)
       (advance 300 (log (EvConsoleError "Feature extraction failed:") world0))).
Proof.
  split; [reflexivity|].
  exact (proj1 (backend_failure_yields_fallback "please add dark mode" None
                  world0 (JsError "AI binding not available") world0
                  eq_refl)).
Defined.

Import JsonText.

(** *** [JSON.parse] reads every text of the grammar *)

Lemma skip_ws_blank b k : skip_ws (blank_text b k) = skip_ws k.
Proof.
  induction b as [|s b IH]; [reflexivity|].
  destruct s; exact IH.
Qed.

Lemma take_digits_text ds k :
  no_digit_ahead k = true ->
  take_digits (digits_text ds k) = (map digit_value ds, k).
Proof.
  intros Hk. induction ds as [|d ds IH].
  - destruct k as [|c k]; [reflexivity|].
    cbn [digits_text take_digits]. cbn [no_digit_ahead] in Hk.
    apply negb_true_iff in Hk. now rewrite Hk.
  - cbn [digits_text map]. destruct d; cbn [take_digits digit_char];
      (change (is_digit _) with true; cbv iota; rewrite IH; reflexivity).
Qed.

Lemma fold_digits ds : forall acc,
  fold_left (fun a d => 10 * a + d)%Z (map digit_value ds) acc = decimal_from acc ds.
Proof.
  induction ds as [|d ds IH]; intros acc; [reflexivity|].
  cbn [map fold_left decimal_from]. apply IH.
Qed.

Lemma digits_value_decimal ds : digits_value (map digit_value ds) = decimal ds.
Proof. apply fold_digits. Qed.

Lemma no_digit_ahead_fraction f e k :
  delimited k = true ->
  no_digit_ahead (fraction_text f (exponent_text e k)) = true.
Proof.
  intros Hk. destruct f as [ds|]; [reflexivity|].
  destruct e as [[[|] sg ds]|]; try reflexivity.
  cbn [fraction_text exponent_text].
  destruct k as [|c k]; [reflexivity|]. cbn [delimited no_digit_ahead] in *.
  apply negb_true_iff in Hk. apply orb_false_iff in Hk as [Hk _].
  apply orb_false_iff in Hk as [Hk _]. apply orb_false_iff in Hk as [Hk _].
  now rewrite Hk.
Qed.

Lemma no_digit_ahead_exponent e k :
  delimited k = true -> no_digit_ahead (exponent_text e k) = true.
Proof. intros Hk. apply (no_digit_ahead_fraction None e k Hk). Qed.

Lemma no_digit_ahead_delimited k : delimited k = true -> no_digit_ahead k = true.
Proof. intros Hk. apply (no_digit_ahead_fraction None None k Hk). Qed.

Lemma exponent_sign_digits d ds k :
  exponent_sign (digits_text (d :: ds) k) = (false, digits_text (d :: ds) k).
Proof. destruct d; reflexivity. Qed.

Lemma parse_exp_text e k :
  match e with
  | Some x => exp_digits x <> []
  | None => True
  end ->
  delimited k = true ->
  parse_exp (exponent_text e k) = Some (exponent_value e, k).
Proof.
  intros He Hk. destruct e as [[cap sg ds]|].
  - cbn [exp_digits] in He. destruct ds as [|d ds]; [contradiction|].
    cbn [exponent_text capital exp_sign exp_digits exponent_value].
    assert (Hd : take_digits (digits_text (d :: ds) k) =
                 (digit_value d :: map digit_value ds, k)).
    { apply (take_digits_text (d :: ds) k), no_digit_ahead_delimited, Hk. }
    assert (Hv : digits_value (digit_value d :: map digit_value ds) =
                 decimal (d :: ds)).
    { apply (digits_value_decimal (d :: ds)). }
    destruct cap; cbn [parse_exp];
      [ change (("E" =? "e")%char || ("E" =? "E")%char) with true
      | change (("e" =? "e")%char || ("e" =? "E")%char) with true ];
      cbv iota; destruct sg; cbn [sign_text];
      [ rewrite exponent_sign_digits
      | change (exponent_sign (String "+" (digits_text (d :: ds) k)))
          with (false, digits_text (d :: ds) k)
      | change (exponent_sign (String "-" (digits_text (d :: ds) k)))
          with (true, digits_text (d :: ds) k)
      | rewrite exponent_sign_digits
      | change (exponent_sign (String "+" (digits_text (d :: ds) k)))
          with (false, digits_text (d :: ds) k)
      | change (exponent_sign (String "-" (digits_text (d :: ds) k)))
          with (true, digits_text (d :: ds) k) ];
      cbv beta iota; rewrite Hd, Hv; reflexivity.
  - cbn [exponent_text exponent_value]. destruct k as [|c k]; [reflexivity|].
    cbn [delimited] in Hk. apply negb_true_iff in Hk.
    apply orb_false_iff in Hk as [Hk HE]. apply orb_false_iff in Hk as [Hk He'].
    cbn [parse_exp]. now rewrite He', HE.
Qed.

Lemma parse_frac_text f e k :
  f <> Some [] ->
  delimited k = true ->
  parse_frac (fraction_text f (exponent_text e k)) =
  Some (map digit_value (match f with Some ds => ds | None => [] end),
        exponent_text e k).
Proof.
  intros Hf Hk. destruct f as [[|d ds]|]; [congruence| |].
  - cbn [fraction_text parse_frac]. change ("." =? ".")%char with true. cbv iota.
    rewrite (take_digits_text (d :: ds)) by now apply no_digit_ahead_exponent.
    reflexivity.
  - cbn [fraction_text map].
    destruct e as [[[|] sg ds]|]; try reflexivity.
    cbn [exponent_text]. destruct k as [|c k]; [reflexivity|].
    cbn [delimited] in Hk. apply negb_true_iff in Hk.
    apply orb_false_iff in Hk as [Hk _]. apply orb_false_iff in Hk as [Hk _].
    apply orb_false_iff in Hk as [_ Hk].
    cbn [parse_frac]. now rewrite Hk.
Qed.

Lemma parse_int_text ds k :
  match ds with
  | [] => False
  | Zero :: r => r = []
  | _ :: _ => True
  end ->
  no_digit_ahead k = true ->
  parse_int (digits_text ds k) = Some (map digit_value ds, k).
Proof.
  intros Hds Hk. destruct ds as [|d ds]; [contradiction|].
  destruct d; try (subst ds; reflexivity);
    cbn [digits_text digit_char parse_int];
    match goal with |- context [(?c =? "0")%char] =>
      change (c =? "0")%char with false; change (is_digit c) with true
    end; cbv iota; rewrite (take_digits_text ds k Hk); reflexivity.
Qed.

Lemma leading_minus_digits d ds k :
  leading_minus (digits_text (d :: ds) k) = (false, digits_text (d :: ds) k).
Proof. destruct d; reflexivity. Qed.

Lemma parse_number_text n k :
  numeral_ok n = true ->
  delimited k = true ->
  parse_number (numeral_text n k) = Some (numeral_value n, k).
Proof.
  intros Hn Hk. destruct n as [neg ip fp ex].
  unfold numeral_ok in Hn. cbn [int_digits frac_digits exp_part] in Hn.
  apply andb_true_iff in Hn as [Hn Hex]. apply andb_true_iff in Hn as [Hip Hfp].
  assert (Hip' : match ip with [] => False | Zero :: r => r = [] | _ :: _ => True end).
  { destruct ip as [|[] [|? ?]]; try discriminate; auto. }
  assert (Hfp' : fp <> Some []).
  { intros ->. discriminate. }
  assert (Hex' : match ex with Some x => exp_digits x <> [] | None => True end).
  { destruct ex as [x|]; [|exact I]. destruct (exp_digits x); [discriminate|].
    discriminate. }
  pose (fd := match fp with Some ds => ds | None => [] end).
  assert (Hbody :
    parse_number (digits_text ip (fraction_text fp (exponent_text ex k))) =
      Some (Num (decimal (ip ++ fd))
              (exponent_value ex - Z.of_nat (length fd))%Z, k) /\
    parse_number
      (String "-" (digits_text ip (fraction_text fp (exponent_text ex k)))) =
      Some (Num (- decimal (ip ++ fd))%Z
              (exponent_value ex - Z.of_nat (length fd))%Z, k)).
  { unfold parse_number.
    change (leading_minus (String "-" ?r)) with (true, r).
    destruct ip as [|d ip]; [contradiction|].
    rewrite leading_minus_digits.
    change (leading_minus (String "-" (digits_text (d :: ip)
              (fraction_text fp (exponent_text ex k)))))
      with (true, digits_text (d :: ip) (fraction_text fp (exponent_text ex k))).
    rewrite (parse_int_text (d :: ip)) by
      (try exact Hip'; now apply no_digit_ahead_fraction).
    rewrite (parse_frac_text fp ex k Hfp' Hk).
    rewrite (parse_exp_text ex k Hex' Hk).
    fold fd. rewrite <- map_app, digits_value_decimal, length_map.
    split; reflexivity. }
  unfold numeral_text, numeral_value, fraction_digits.
  cbn [negative int_digits frac_digits exp_part].
  destruct neg; [exact (proj2 Hbody)|exact (proj1 Hbody)].
Qed.

Lemma hex_val_char h : hex_val (hex_char h) = Some (hex_value h).
Proof. destruct h as [d|l|l]; [destruct d|destruct l|destruct l]; reflexivity. Qed.

Lemma hex4_chars h1 h2 h3 h4 :
  hex4 (hex_char h1) (hex_char h2) (hex_char h3) (hex_char h4) =
  Some (unit_of h1 h2 h3 h4).
Proof. unfold hex4. now rewrite !hex_val_char. Qed.

Lemma parse_string_body_items l k :
  forallb item_ok l = true ->
  parse_string_body (items_text l (String dquote k)) = Some (map piece_of l, k).
Proof.
  induction l as [|i l IH]; intros Hl.
  - cbn [items_text parse_string_body]. now rewrite Ascii.eqb_refl.
  - cbn [forallb] in Hl. apply andb_true_iff in Hl as [Hi Hl].
    specialize (IH Hl). cbn [items_text map].
    destruct i as [c|e|h1 h2 h3 h4]; cbn [item_text piece_of].
    + cbn [item_ok] in Hi. apply andb_true_iff in Hi as [Hi Hb].
      apply andb_true_iff in Hi as [Hc Hq].
      apply negb_true_iff in Hq, Hb. apply Nat.leb_le in Hc.
      cbn [parse_string_body]. rewrite Hq, Hb, IH.
      destruct (Nat.ltb_spec (code c) 32); [lia|reflexivity].
    + cbn [parse_string_body].
      change ("\" =? dquote)%char with false.
      change ("\" =? "\")%char with true. cbv iota.
      destruct e; cbn [escape_letter escape_char];
        match goal with |- context [(?x =? "u")%char] =>
          change (x =? "u")%char with false
        end; cbv iota;
        match goal with |- context [simple_escape ?x] =>
          let y := eval vm_compute in (simple_escape x) in
          change (simple_escape x) with y
        end; cbv iota; rewrite IH; reflexivity.
    + cbn [parse_string_body].
      change ("\" =? dquote)%char with false.
      change ("\" =? "\")%char with true.
      change ("u" =? "u")%char with true. cbv iota.
      rewrite hex4_chars, IH. reflexivity.
Qed.

Lemma assemble_unit u ps :
  is_high_surrogate u = false ->
  assemble (Unit16 u :: ps) = (utf8 u ++ assemble ps)%string.
Proof.
  intros Hu. cbn [assemble]. destruct ps as [|[c|v] ps]; try reflexivity.
  now rewrite Hu.
Qed.

Lemma assemble_items_upto n : forall l,
  length l <= n -> assemble (map piece_of l) = literal_value l.
Proof.
  induction n as [|n IH]; intros l Hn.
  - destruct l; [reflexivity|cbn in Hn; lia].
  - destruct l as [|i l]; [reflexivity|]. cbn [length] in Hn.
    destruct i as [c|e|h1 h2 h3 h4]; cbn [map piece_of].
    + cbn [assemble literal_value]. now rewrite IH by lia.
    + cbn [assemble literal_value]. now rewrite IH by lia.
    + destruct l as [|j l].
      * reflexivity.
      * destruct j as [c|e|g1 g2 g3 g4].
        -- change (assemble (Unit16 (unit_of h1 h2 h3 h4) :: map piece_of (Plain c :: l)))
             with (utf8 (unit_of h1 h2 h3 h4) ++ assemble (map piece_of (Plain c :: l)))%string.
           cbn [literal_value]. rewrite (IH (Plain c :: l)) by lia. reflexivity.
        -- change (assemble (Unit16 (unit_of h1 h2 h3 h4) :: map piece_of (Escaped e :: l)))
             with (utf8 (unit_of h1 h2 h3 h4) ++ assemble (map piece_of (Escaped e :: l)))%string.
           cbn [literal_value]. rewrite (IH (Escaped e :: l)) by lia. reflexivity.
        -- cbn [length] in Hn.
           change (literal_value (Unicode h1 h2 h3 h4 :: Unicode g1 g2 g3 g4 :: l))
             with (let u := unit_of h1 h2 h3 h4 in
                   let v := unit_of g1 g2 g3 g4 in
                   if ((55296 <=? u) && (u <=? 56319) &&
                       (56320 <=? v) && (v <=? 57343))%N
                   then (utf8 (65536 + (u - 55296) * 1024 + (v - 56320))%N ++
                         literal_value l)%string
                   else (utf8 u ++
                         literal_value (Unicode g1 g2 g3 g4 :: l))%string).
           change (assemble (Unit16 (unit_of h1 h2 h3 h4) ::
                             map piece_of (Unicode g1 g2 g3 g4 :: l)))
             with (let u := unit_of h1 h2 h3 h4 in
                   let v := unit_of g1 g2 g3 g4 in
                   if is_high_surrogate u && is_low_surrogate v
                   then (utf8 (65536 + (u - 55296) * 1024 + (v - 56320))%N ++
                         assemble (map piece_of l))%string
                   else (utf8 u ++
                         assemble (map piece_of (Unicode g1 g2 g3 g4 :: l)))%string).
           cbv zeta. unfold is_high_surrogate, is_low_surrogate.
           rewrite (IH l) by lia.
           rewrite (IH (Unicode g1 g2 g3 g4 :: l)) by (cbn [length]; lia).
           rewrite andb_assoc. reflexivity.
Qed.

Lemma assemble_items l : assemble (map piece_of l) = literal_value l.
Proof. apply (assemble_items_upto (length l)). lia. Qed.

Lemma parse_string_literal l k :
  forallb item_ok l = true ->
  parse_string (items_text l (String dquote k)) = Some (literal_value l, k).
Proof.
  intros Hl. unfold parse_string.
  now rewrite (parse_string_body_items l k Hl), assemble_items.
Qed.

Lemma blank_text_length b k :
  String.length (blank_text b k) = length b + String.length k.
Proof. induction b as [|s b IH]; cbn [blank_text String.length length]; lia. Qed.

Lemma items_text_length l k : String.length k <= String.length (items_text l k).
Proof.
  induction l as [|i l IH]; cbn [items_text]; [lia|].
  destruct i; cbn [item_text String.length]; lia.
Qed.

Lemma parse_value_blank fuel b k :
  parse_value fuel (blank_text b k) = parse_value fuel k.
Proof.
  destruct fuel; [reflexivity|]. cbn [parse_value]. now rewrite skip_ws_blank.
Qed.

Lemma parse_members_blank fuel b k :
  parse_members fuel (blank_text b k) = parse_members fuel k.
Proof.
  destruct fuel; [reflexivity|]. cbn [parse_members]. now rewrite skip_ws_blank.
Qed.

Lemma parse_elements_blank fuel b k :
  parse_elements fuel (blank_text b k) = parse_elements fuel k.
Proof.
  destruct fuel; [reflexivity|]. cbn [parse_elements].
  now rewrite parse_value_blank.
Qed.

(** What follows a value inside an array or an object does not go on a
    number. *)
Lemma delimited_blank b c k :
  delimited (String c k) = true -> delimited (blank_text b (String c k)) = true.
Proof. intros H. destruct b as [|[] b]; [exact H| | | |]; reflexivity. Qed.

Lemma numeral_head n k :
  numeral_ok n = true ->
  exists c r, numeral_text n k = String c r /\
              (c = "-"%char \/ exists d, c = digit_char d).
Proof.
  intros Hn. destruct n as [neg ip fp ex]. unfold numeral_text.
  cbn [negative int_digits frac_digits exp_part].
  destruct neg; [do 2 eexists; split; [reflexivity|now left]|].
  destruct ip as [|d ip]; [discriminate|].
  cbn [digits_text]. do 2 eexists. split; [reflexivity|]. right. now exists d.
Qed.

Lemma parse_value_number fuel c r :
  (c = "-"%char \/ exists d, c = digit_char d) ->
  parse_value (S fuel) (String c r) =
  match parse_number (String c r) with
  | Some (n, r') => Some (VNum n, r')
  | None => None
  end.
Proof. intros [->|[d ->]]; [|destruct d]; reflexivity. Qed.

(** The first character of a value: no white space, no closing bracket. *)
Lemma tree_head t k :
  tree_ok t = true ->
  exists c r, tree_text t k = String c r /\
              skip_ws (String c r) = String c r /\
              (c =? "]")%char = false.
Proof.
  intros Ht. destruct t; try (do 2 eexists; repeat split; reflexivity).
  cbn [tree_ok tree_text] in *.
  destruct (numeral_head n k Ht) as (c & r & -> & [->|[d ->]]);
    [|destruct d]; do 2 eexists; repeat split; reflexivity.
Qed.

Ltac fuel_step fuel :=
  destruct fuel as [|fuel]; [cbn [String.length] in *; lia|].

Lemma parse_reads_tree :
  (forall t, tree_ok t = true -> forall k fuel,
     delimited k = true ->
     2 * String.length (tree_text t k) + 1 <= fuel ->
     parse_value fuel (tree_text t k) = Some (tree_value t, k)) /\
  (forall es, elements_ok es = true -> forall k fuel,
     2 * String.length (elements_text es (String "]" k)) + 2 <= fuel ->
     parse_elements fuel (elements_text es (String "]" k)) =
       Some (elements_value es, k)) /\
  (forall ms, members_ok ms = true -> forall k fuel,
     2 * String.length (members_text ms (String "}" k)) + 2 <= fuel ->
     parse_members fuel (members_text ms (String "}" k)) =
       Some (members_value ms, k)).
Proof.
  apply tree_mutind.
  - (* null *) intros _ k fuel _ Hf. fuel_step fuel. reflexivity.
  - intros _ k fuel _ Hf. fuel_step fuel. reflexivity.
  - intros _ k fuel _ Hf. fuel_step fuel. reflexivity.
  - (* number *)
    intros n Hn k fuel Hk Hf. cbn [tree_ok tree_text tree_value] in *.
    fuel_step fuel.
    destruct (numeral_head n k Hn) as (c & r & E & Hc).
    rewrite E, (parse_value_number fuel c r Hc), <- E.
    now rewrite (parse_number_text n k Hn Hk).
  - (* string *)
    intros l Hl k fuel _ Hf. cbn [tree_ok tree_text tree_value] in *.
    fuel_step fuel. unfold literal_text.
    change (parse_value (S fuel) (String dquote (items_text l (String dquote k))))
      with (match parse_string (items_text l (String dquote k)) with
            | Some (str, r') => Some (VStr str, r')
            | None => None
            end).
    now rewrite (parse_string_literal l k Hl).
  - (* empty array *)
    intros b _ k fuel _ Hf. cbn [tree_text tree_value] in *. fuel_step fuel.
    change (parse_value (S fuel) (String "[" (blank_text b (String "]" k))))
      with (match skip_ws (blank_text b (String "]" k)) with
            | String c' r' =>
                if (c' =? "]")%char then Some (VArr [], r')
                else
                  match parse_elements fuel (String c' r') with
                  | Some (vs, r'') => Some (VArr vs, r'')
                  | None => None
                  end
            | EmptyString => None
            end).
    rewrite skip_ws_blank. reflexivity.
  - (* array *)
    intros b es IH Hes k fuel _ Hf. cbn [tree_ok tree_text tree_value] in *.
    fuel_step fuel.
    change (parse_value (S fuel)
              (String "[" (blank_text b (elements_text es (String "]" k)))))
      with (match skip_ws (blank_text b (elements_text es (String "]" k))) with
            | String c' r' =>
                if (c' =? "]")%char then Some (VArr [], r')
                else
                  match parse_elements fuel (String c' r') with
                  | Some (vs, r'') => Some (VArr vs, r'')
                  | None => None
                  end
            | EmptyString => None
            end).
    rewrite skip_ws_blank.
    assert (Hh : exists c r, elements_text es (String "]" k) = String c r /\
                             skip_ws (String c r) = String c r /\
                             (c =? "]")%char = false).
    { destruct es as [t a|t a b' r]; cbn [elements_ok elements_text] in *;
        [|apply andb_true_iff in Hes as [Hes _]]; apply tree_head; exact Hes. }
    destruct Hh as (c & r & E & Hs & Hc).
    cbn [String.length] in Hf. rewrite blank_text_length in Hf.
    rewrite E, Hs, Hc, <- E. rewrite (IH Hes k fuel) by lia. reflexivity.
  - (* empty object *)
    intros b _ k fuel _ Hf. cbn [tree_text tree_value] in *. fuel_step fuel.
    change (parse_value (S fuel) (String "{" (blank_text b (String "}" k))))
      with (match skip_ws (blank_text b (String "}" k)) with
            | String c' r' =>
                if (c' =? "}")%char then Some (VObj [], r')
                else
                  match parse_members fuel (String c' r') with
                  | Some (kvs, r'') => Some (VObj (define_all [] kvs), r'')
                  | None => None
                  end
            | EmptyString => None
            end).
    rewrite skip_ws_blank. reflexivity.
  - (* object *)
    intros b ms IH Hms k fuel _ Hf. cbn [tree_ok tree_text tree_value] in *.
    fuel_step fuel.
    change (parse_value (S fuel)
              (String "{" (blank_text b (members_text ms (String "}" k)))))
      with (match skip_ws (blank_text b (members_text ms (String "}" k))) with
            | String c' r' =>
                if (c' =? "}")%char then Some (VObj [], r')
                else
                  match parse_members fuel (String c' r') with
                  | Some (kvs, r'') => Some (VObj (define_all [] kvs), r'')
                  | None => None
                  end
            | EmptyString => None
            end).
    rewrite skip_ws_blank.
    assert (Hh : exists r, members_text ms (String "}" k) = String dquote r).
    { destruct ms; eexists; reflexivity. }
    destruct Hh as (r & E).
    cbn [String.length] in Hf. rewrite blank_text_length in Hf.
    rewrite E. change (skip_ws (String dquote r)) with (String dquote r).
    change (dquote =? "}")%char with false. cbv iota.
    rewrite <- E. rewrite (IH Hms k fuel) by lia. reflexivity.
  - (* last element *)
    intros t IH a Ht k fuel Hf. cbn [elements_ok elements_text elements_value] in *.
    fuel_step fuel. cbn [parse_elements].
    rewrite (IH Ht (blank_text a (String "]" k)) fuel) by
      (try (apply delimited_blank; reflexivity); lia).
    rewrite skip_ws_blank. reflexivity.
  - (* element *)
    intros t IHt a b r IHr Hes k fuel Hf.
    cbn [elements_ok elements_text elements_value] in *.
    apply andb_true_iff in Hes as [Ht Hr].
    fuel_step fuel. cbn [parse_elements].
    set (K := blank_text a (String "," (blank_text b (elements_text r (String "]" k))))) in *.
    assert (Hv : parse_value fuel (tree_text t K) = Some (tree_value t, K)).
    { apply IHt; [exact Ht|apply delimited_blank; reflexivity|lia]. }
    rewrite Hv. apply (proj1 (parse_consumes fuel)) in Hv.
    unfold K in *. rewrite skip_ws_blank.
    change (skip_ws (String "," ?x)) with (String "," x).
    change ("," =? ",")%char with true. cbv iota.
    rewrite parse_elements_blank.
    rewrite !blank_text_length in Hv. cbn [String.length] in Hv.
    rewrite blank_text_length in Hv.
    rewrite (IHr Hr k fuel) by lia. reflexivity.
  - (* last member *)
    intros key b1 b2 t IH a Hms k fuel Hf.
    cbn [members_ok members_text members_value] in *.
    apply andb_true_iff in Hms as [Hkey Ht].
    fuel_step fuel. unfold literal_text in *.
    set (K := blank_text b1 (String ":" (blank_text b2
                (tree_text t (blank_text a (String "}" k)))))) in *.
    change (parse_members (S fuel) (String dquote (items_text key (String dquote K))))
      with (match parse_string (items_text key (String dquote K)) with
            | Some (k0, r1) =>
                match skip_ws r1 with
                | String col r2 =>
                    if (col =? ":")%char then
                      match parse_value fuel r2 with
                      | Some (v, r3) =>
                          match skip_ws r3 with
                          | String d r4 =>
                              if (d =? ",")%char then
                                match parse_members fuel r4 with
                                | Some (kvs, r5) => Some ((k0, v) :: kvs, r5)
                                | None => None
                                end
                              else if (d =? "}")%char then Some ([(k0, v)], r4)
                              else None
                          | EmptyString => None
                          end
                      | None => None
                      end
                    else None
                | EmptyString => None
                end
            | None => None
            end).
    rewrite (parse_string_literal key K Hkey).
    pose proof (items_text_length key (String dquote K)) as Hlen.
    cbn [String.length] in Hf, Hlen.
    unfold K in *. rewrite skip_ws_blank.
    change (skip_ws (String ":" ?x)) with (String ":" x).
    change (":" =? ":")%char with true. cbv iota.
    rewrite parse_value_blank.
    rewrite blank_text_length in Hlen. cbn [String.length] in Hlen.
    rewrite blank_text_length in Hlen.
    rewrite (IH Ht (blank_text a (String "}" k)) fuel) by
      (try (apply delimited_blank; reflexivity); lia).
    rewrite skip_ws_blank. reflexivity.
  - (* member *)
    intros key b1 b2 t IHt a b r IHr Hms k fuel Hf.
    cbn [members_ok members_text members_value] in *.
    apply andb_true_iff in Hms as [Hms Hr].
    apply andb_true_iff in Hms as [Hkey Ht].
    fuel_step fuel. unfold literal_text in *.
    set (K3 := blank_text a (String "," (blank_text b
                 (members_text r (String "}" k))))) in *.
    set (K := blank_text b1 (String ":" (blank_text b2 (tree_text t K3)))) in *.
    change (parse_members (S fuel) (String dquote (items_text key (String dquote K))))
      with (match parse_string (items_text key (String dquote K)) with
            | Some (k0, r1) =>
                match skip_ws r1 with
                | String col r2 =>
                    if (col =? ":")%char then
                      match parse_value fuel r2 with
                      | Some (v, r3) =>
                          match skip_ws r3 with
                          | String d r4 =>
                              if (d =? ",")%char then
                                match parse_members fuel r4 with
                                | Some (kvs, r5) => Some ((k0, v) :: kvs, r5)
                                | None => None
                                end
                              else if (d =? "}")%char then Some ([(k0, v)], r4)
                              else None
                          | EmptyString => None
                          end
                      | None => None
                      end
                    else None
                | EmptyString => None
                end
            | None => None
            end).
    rewrite (parse_string_literal key K Hkey).
    pose proof (items_text_length key (String dquote K)) as Hlen.
    cbn [String.length] in Hf, Hlen.
    unfold K in *. rewrite skip_ws_blank.
    change (skip_ws (String ":" ?x)) with (String ":" x).
    change (":" =? ":")%char with true. cbv iota.
    rewrite parse_value_blank.
    rewrite blank_text_length in Hlen. cbn [String.length] in Hlen.
    rewrite blank_text_length in Hlen.
    assert (Hv : parse_value fuel (tree_text t K3) = Some (tree_value t, K3)).
    { apply IHt; [exact Ht|apply delimited_blank; reflexivity|lia]. }
    rewrite Hv. apply (proj1 (parse_consumes fuel)) in Hv.
    unfold K3 in *. rewrite skip_ws_blank.
    change (skip_ws (String "," ?x)) with (String "," x).
    change ("," =? ",")%char with true. cbv iota.
    rewrite parse_members_blank.
    rewrite !blank_text_length in Hv. cbn [String.length] in Hv.
    rewrite blank_text_length in Hv.
    rewrite (IHr Hr k fuel) by lia. reflexivity.
Qed.

(** [JSON.parse] of the text of a well-formed tree is the value of the
    tree, white space around it or not. *)
Lemma JSON_parse_text_of t b1 b2 :
  tree_ok t = true ->
  JSON_parse (blank_text b1 (tree_text t (blank_text b2 EmptyString))) =
  Some (tree_value t).
Proof.
  intros Ht. unfold JSON_parse. rewrite parse_value_blank.
  set (K := blank_text b2 EmptyString).
  set (fuel := 2 * String.length (blank_text b1 (tree_text t K)) + 2).
  rewrite (proj1 parse_reads_tree t Ht K fuel).
  - unfold K. now rewrite skip_ws_blank.
  - destruct b2 as [|[] b2]; reflexivity.
  - unfold fuel. rewrite blank_text_length. lia.
Qed.

(** *** C7: responses that parse *)

(** The sample text, read by [JSON.parse]. *)
Example JSON_parse_sample_document :
  JSON_parse (text_of sample_document) =
  Some (VObj [ ("requests", VArr sample_requests);
               ("summary", VStr ("three" ++ String (chr 10) "requests")) ]).
Proof. vm_compute. reflexivity. Qed.

(** The result of the Extraction Stage when the span decodes to an object
    with an array under [requests]. *)
Lemma decoded_requests_are_kept t run w result text span parsed items :
  outcome (run_messages run extraction_model (chat_inputs t)) = Ok result ->
  response_text result = Ok (VStr text) ->
  match_brace_span text = Some span ->
  JSON_parse span = Some (VObj parsed) ->
  get_own parsed "requests" = Some (VArr items) ->
  exists o w',
    extractFeatureRequests t (Some run) w = (Ok (VObj o), w') /\
    get_own o "requests" = Some (VArr items) /\
    get_own o "extractionTimeMs" =
      Some (vnum (latency (run_messages run extraction_model (chat_inputs t)))) /\
    get_own o "model" = Some (VStr extraction_model) /\
    get_own o "originalTranscription" = Some (VStr t).
Proof.
  intros Ho Ht Hs Hj Hr.
  assert (Hp : parse_response result = Ok (VObj parsed)).
  { unfold parse_response. rewrite Ht. cbn [as_string]. unfold decode_span.
    now rewrite Hs, Hj. }
  rewrite extractFeatureRequests_eq. cbv zeta. rewrite Ho, Hp.
  unfold spread_with. cbn [own_enumerable].
  do 2 eexists. split; [reflexivity|].
  split; [now rewrite get_own_metadata_requests|].
  unfold metadata, define_all. cbn [fold_left fst snd].
  split; [|split].
  - rewrite !get_own_set_prop_other by discriminate.
    apply get_own_set_prop_same.
  - rewrite get_own_set_prop_other by discriminate.
    apply get_own_set_prop_same.
  - apply get_own_set_prop_same.
Qed.

(** C7. The span from the first to the last brace of the response text is
    a JSON text, given by its syntax tree [doc], and the object it denotes
    has an array under [requests]: the result holds that very array under
    [requests], so as many items as the source array has elements, every
    item with every field ([title], [priority] and [category] among them)
    as the source text denotes it, next to the duration of the call, the
    model and the transcription. *)
Theorem parsed_requests_are_preserved t run w result text doc parsed items :
  outcome (run_messages run extraction_model (chat_inputs t)) = Ok result ->
  response_text result = Ok (VStr text) ->
  match_brace_span text = Some (text_of doc) ->
  tree_ok doc = true ->
  tree_value doc = VObj parsed ->
  get_own parsed "requests" = Some (VArr items) ->
  exists o w',
    extractFeatureRequests t (Some run) w = (Ok (VObj o), w') /\
    get_own o "requests" = Some (VArr items) /\
    get_own o "extractionTimeMs" =
      Some (vnum (latency (run_messages run extraction_model (chat_inputs t)))) /\
    get_own o "model" = Some (VStr extraction_model) /\
    get_own o "originalTranscription" = Some (VStr t).
Proof.
  intros Ho Ht Hs Hok Hv Hr.
  apply (decoded_requests_are_kept t run w result text (text_of doc) parsed items);
    auto.
  rewrite <- Hv. exact (JSON_parse_text_of doc [] [] Hok).
Qed.

(** The text model wraps the sample text in prose: the three requests
    come back, with the quotes, the tab, the letters written as escapes
    and the last value of the key written twice. *)
Lemma parsed_requests_are_preserved_witness :
  exists o w',
    extractFeatureRequests "three wishes"
      (Some (backend (heard "three wishes")
               (says ("Here you go: " ++ text_of sample_document ++ " Anything else?"))))
      world0 = (Ok (VObj o), w') /\
    get_own o "requests" = Some (VArr sample_requests) /\
    length sample_requests = 3%nat.
Proof.
  destruct (parsed_requests_are_preserved "three wishes"
              (backend (heard "three wishes")
                 (says ("Here you go: " ++ text_of sample_document ++ " Anything else?")))
              world0
              (VObj [("response",
                      VStr ("Here you go: " ++ text_of sample_document ++
                            " Anything else?"))])
              ("Here you go: " ++ text_of sample_document ++ " Anything else?")
              sample_document
              [ ("requests", VArr sample_requests);
                ("summary", VStr ("three" ++ String (chr 10) "requests")) ]
              sample_requests)
    as (o & w' & H & Hr & _).
  - reflexivity.
  - reflexivity.
  - vm_compute. reflexivity.
  - reflexivity.
  - vm_compute. reflexivity.
  - reflexivity.
  - exists o, w'. repeat split; assumption.
Defined.

(** *** C8: the guard of [/extract-features] *)

(** C8, as stated, fails: a body whose [transcription] is the empty string
    is answered 400 "No transcription provided", and nothing else happens
    (no backend call, no sleep: the world is as before). *)
Lemma empty_transcription_is_rejected :
  extract_features
    (all_bound (backend (heard "add dark mode") (says dark_mode_json)))
    {| transcription := Some EmptyString |} world0 =
  (Ok {| status := 400;
         body := VObj [("error", VStr "No transcription provided")] |},
   world0).
Proof. reflexivity. Qed.

(** C8, amended. The endpoint answers 400 when [transcription] is missing
    and also when it is the empty string, without running the Extraction
    Stage; every other transcription is passed to the Extraction Stage and
    its result returned with status 200. The stage itself has no minimum
    length: called on the empty string (as the upload path may do), it
    runs and returns. *)
Theorem extract_features_guard env body w :
  (match transcription body with
   | None =>
       extract_features env body w =
         (Ok (json (VObj [("error", VStr "No transcription provided")]) 400), w)
   | Some t =>
       if (t =? EmptyString)%string then
         extract_features env body w =
           (Ok (json (VObj [("error", VStr "No transcription provided")]) 400), w)
       else
         exists fr w',
           extractFeatureRequests t (AI env) w = (Ok fr, w') /\
           extract_features env body w =
             (Ok (json (VObj [ ("success", VBool true);
                               ("featureRequests", fr);
                               ("message", VStr "Feature requests extracted successfully") ])
                    200), w')
   end) /\
  exists o w', extractFeatureRequests EmptyString (AI env) w = (Ok (VObj o), w').
Proof.
  split; [|apply extractFeatureRequests_returns].
  unfold extract_features, try_catch, bind, lift, ret.
  destruct (transcription body) as [t|]; [|reflexivity].
  cbn [vopt truthy negb as_string].
  destruct (t =? EmptyString)%string; [reflexivity|].
  cbn [negb].
  destruct (extractFeatureRequests_returns t (AI env) w) as (o & w' & E).
  rewrite E. eauto.
Qed.

(** *** Identifiers, bindings, statements *)

Lemma index_key_inj a b : index_key a = index_key b -> a = b.
Proof.
  unfold index_key. intros H.
  apply Unsigned.to_uint_inj.
  assert (E : NilEmpty.uint_of_string (NilEmpty.string_of_uint (Nat.to_uint a)) =
              NilEmpty.uint_of_string (NilEmpty.string_of_uint (Nat.to_uint b)))
    by now rewrite H.
  rewrite !NilEmpty.usu in E. now injection E.
Qed.

Lemma uuid_of_inj a b : uuid_of a = uuid_of b -> a = b.
Proof.
  unfold uuid_of. cbn [String.append]. intros [= H]. now apply index_key_inj.
Qed.

Lemma randomUUID_eq w : randomUUID w = (Ok (uuid_of (minted w)), mint w).
Proof. reflexivity. Qed.

Lemma get_prop_obj o k : get_prop (VObj o) k = Ok (field (VObj o) k).
Proof. reflexivity. Qed.

Lemma d1_run_healthy stmt w :
  d1_faults w = [] -> d1_run stmt w = execute stmt (log (EvSql stmt) w).
Proof.
  intros H. unfold d1_run, log. rewrite H. reflexivity.
Qed.

Lemma optional_string_bindable v d :
  optional_string v = true ->
  (exists s, d = VStr s) \/ d = VNull ->
  bind_value (or_else v d) = Ok (to_column (or_else v d)).
Proof.
  intros Hv Hd. unfold to_column, or_else.
  destruct v; try discriminate; simpl;
    try (destruct Hd as [[s0 ->]| ->]; reflexivity).
  destruct (negb (s =? EmptyString)%string); [reflexivity|].
  destruct Hd as [[s0 ->]| ->]; reflexivity.
Qed.

Lemma optional_number_bindable v :
  optional_number v = true ->
  bind_value (coalesce v VNull) = Ok (to_column (coalesce v VNull)).
Proof. destruct v; try discriminate; reflexivity. Qed.

Lemma optional_string_text_column v :
  optional_string v = true ->
  is_null (to_column (or_else v (VStr EmptyString))) = false.
Proof.
  unfold to_column, or_else. destruct v; try discriminate; simpl; try reflexivity.
  destruct (negb (s =? EmptyString)%string); reflexivity.
Qed.

(** *** One row per actionable record *)

Lemma typed_record_inv req :
  typed_record req = true ->
  (exists o, req = VObj o) /\
  optional_string (field req "title") = true /\
  optional_string (field req "description") = true /\
  optional_string (field req "priority") = true /\
  optional_string (field req "category") = true /\
  optional_number (field req "confidence") = true.
Proof.
  unfold typed_record. destruct req; try discriminate.
  rewrite !andb_true_iff. intros [[[[? ?] ?] ?] ?]. eauto 10.
Qed.

Lemma execute_insert_feature row w rows parents :
  feature_requests w = Some rows ->
  audio_files w = Some parents ->
  is_null (fr_title row) = false ->
  is_null (fr_description row) = false ->
  has_feature_id rows (fr_id row) = false ->
  has_audio_id parents (fr_audio_file_id row) = true ->
  execute (InsertFeatureRequest row) w =
    (Ok tt, set_tables w (audio_files w) (Some (rows ++ [row]))).
Proof.
  intros Hf Ha Ht Hd Hid Hfk. unfold execute.
  now rewrite Hf, Ht, Hd, Hid, Ha, Hfk.
Qed.

Lemma insert_request_healthy fileId summary bs req w rows parents :
  bind_value summary = Ok bs ->
  typed_record req = true ->
  feature_requests w = Some rows ->
  audio_files w = Some parents ->
  has_audio_id parents fileId = true ->
  d1_faults w = [] ->
  has_feature_id rows (uuid_of (minted w)) = false ->
  exists w',
    insert_request fileId summary req w = (Ok tt, w') /\
    feature_requests w' =
      Some (rows ++ [row_of fileId bs (now w) (uuid_of (minted w)) req]) /\
    audio_files w' = audio_files w /\
    d1_faults w' = [] /\
    minted w' = S (minted w) /\
    now w' = now w /\
    bucket w' = bucket w /\
    r2_faults w' = r2_faults w.
Proof.
  intros Hs Ht Hf Ha Hfk Hd Hid.
  destruct (typed_record_inv _ Ht) as ([o ->] & Htitle & Hdesc & Hprio & Hcat & Hconf).
  unfold insert_request, bind, lift. rewrite randomUUID_eq.
  rewrite !get_prop_obj.
  rewrite (optional_string_bindable _ (VStr EmptyString) Htitle) by eauto.
  rewrite (optional_string_bindable _ (VStr EmptyString) Hdesc) by eauto.
  rewrite (optional_string_bindable _ VNull Hprio) by eauto.
  rewrite (optional_string_bindable _ VNull Hcat) by eauto.
  rewrite (optional_number_bindable _ Hconf).
  rewrite Hs. unfold Date_now.
  rewrite d1_run_healthy by exact Hd.
  erewrite execute_insert_feature; cbn [log mint feature_requests audio_files
    fr_title fr_description fr_id fr_audio_file_id]; eauto.
  - eexists. split; [reflexivity|]. cbn. repeat split; auto.
  - now apply optional_string_text_column.
  - now apply optional_string_text_column.
Qed.

Lemma has_feature_id_app rows rows' id :
  has_feature_id (rows ++ rows') id =
  has_feature_id rows id || has_feature_id rows' id.
Proof. unfold has_feature_id. apply existsb_app. Qed.

Lemma for_each_insert_healthy fileId summary bs reqs :
  bind_value summary = Ok bs ->
  Forall (fun req => typed_record req = true) reqs ->
  forall w rows parents,
    feature_requests w = Some rows ->
    audio_files w = Some parents ->
    has_audio_id parents fileId = true ->
    d1_faults w = [] ->
    (forall k, (minted w <= k)%nat -> has_feature_id rows (uuid_of k) = false) ->
    exists w',
      for_each (insert_request fileId summary) reqs w = (Ok tt, w') /\
      feature_requests w' =
        Some (rows ++ rows_from fileId bs (now w) (minted w) reqs) /\
      audio_files w' = audio_files w /\
      d1_faults w' = [] /\
      minted w' = (minted w + length reqs)%nat /\
      now w' = now w /\
      bucket w' = bucket w /\
      r2_faults w' = r2_faults w.
Proof.
  intros Hs Hall. induction Hall as [|req reqs Hreq Hall IH];
    intros w rows parents Hf Ha Hfk Hd Hfresh.
  - exists w. cbn. rewrite app_nil_r, Nat.add_0_r. repeat split; auto.
  - destruct (insert_request_healthy fileId summary bs req w rows parents)
      as (w1 & E1 & Hf1 & Ha1 & Hd1 & Hm1 & Hn1 & Hb1 & Hr1); auto.
    destruct (IH w1 (rows ++ [row_of fileId bs (now w) (uuid_of (minted w)) req])
                parents)
      as (w2 & E2 & Hf2 & Ha2 & Hd2 & Hm2 & Hn2 & Hb2 & Hr2); auto.
    + congruence.
    + intros k Hk. rewrite has_feature_id_app, Hfresh by lia.
      unfold has_feature_id. cbn [existsb row_of fr_id orb].
      rewrite orb_false_r. apply String.eqb_neq.
      intros E. apply uuid_of_inj in E. lia.
    + exists w2. cbn [for_each]. unfold bind. rewrite E1, E2.
      split; [reflexivity|].
      rewrite Hf2, Hn1, Hm1, <- app_assoc. cbn [rows_from app length].
      repeat split; try congruence. lia.
Qed.

Lemma actionable_typed req :
  typed_record req = true -> actionable req = Ok (is_actionable req).
Proof.
  intros Ht.
  destruct (typed_record_inv _ Ht) as ([o ->] & Htitle & _).
  unfold actionable, is_actionable. rewrite get_prop_obj.
  destruct (field (VObj o) "title") as [| |b|n|t|l|p]; try discriminate; try reflexivity.
  cbn [truthy as_string].
  destruct (t =? EmptyString)%string; [reflexivity|]. cbn [negb andb].
  destruct (includes (toLowerCase t) "parse error"); reflexivity.
Qed.

Lemma filter_res_typed l :
  Forall (fun req => typed_record req = true) l ->
  filter_res actionable l = Ok (filter is_actionable l).
Proof.
  induction 1 as [|req l Hreq _ IH]; [reflexivity|].
  cbn [filter_res filter]. rewrite (actionable_typed _ Hreq), IH. reflexivity.
Qed.

Lemma filter_typed (p : value -> bool) l :
  Forall (fun req => typed_record req = true) l ->
  Forall (fun req => typed_record req = true) (filter p l).
Proof.
  intros H. rewrite Forall_forall in *. intros x Hx.
  apply filter_In in Hx. now apply H.
Qed.

(** *** The block that stores feature requests *)

Lemma store_feature_requests_healthy env fileId aiFeatures o l w rows parents :
  audio2features env = Usable ->
  get_prop aiFeatures "featureRequests" = Ok (VObj o) ->
  get_own o "requests" = Some (VArr l) ->
  Forall (fun req => typed_record req = true) l ->
  optional_string (field (VObj o) "summary") = true ->
  feature_requests w = Some rows ->
  audio_files w = Some parents ->
  has_audio_id parents fileId = true ->
  d1_faults w = [] ->
  (forall k, (minted w <= k)%nat -> has_feature_id rows (uuid_of k) = false) ->
  exists w',
    store_feature_requests env fileId aiFeatures w = (Ok tt, w') /\
    feature_requests w' =
      Some (rows ++
            rows_from fileId
              (to_column (or_else (field (VObj o) "summary") VNull))
              (now w) (minted w) (filter is_actionable l)) /\
    audio_files w' = audio_files w /\
    now w' = now w.
Proof.
  intros Hdb Hfr Hreq Htyped Hsum Hf Ha Hfk Hd Hfresh.
  unfold store_feature_requests, try_catch, bind, lift, ensureFeatureRequestsTable.
  rewrite Hdb. cbn [usable]. rewrite Hfr. cbn [truthy].
  assert (Hrq : field (VObj o) "requests" = VArr l).
  { unfold field. cbn [get_prop]. now rewrite Hreq. }
  rewrite !get_prop_obj, Hrq.
  cbn [is_array].
  rewrite d1_run_healthy by exact Hd.
  unfold execute at 1. cbn [log feature_requests]. rewrite Hf.
  change (or_else (VArr l) (VArr [])) with (VArr l). cbn [items_of].
  rewrite (filter_res_typed _ Htyped).
  set (w1 := log (EvSql CreateFeatureRequests) w).
  set (summary := or_else (field (VObj o) "summary") VNull).
  assert (Hs : bind_value summary = Ok (to_column summary)).
  { apply optional_string_bindable; auto. }
  destruct (filter is_actionable l) as [|req reqs] eqn:Efil.
  - (* nothing actionable: the placeholder violates NOT NULL *)
    cbn [length Nat.ltb Nat.leb].
    unfold insert_placeholder, bind, lift. rewrite randomUUID_eq, Hs.
    unfold Date_now. rewrite d1_run_healthy by exact Hd.
    unfold execute. cbn [log mint feature_requests fr_title is_null].
    change (feature_requests w1) with (feature_requests w). rewrite Hf.
    cbn [is_null]. eexists. split; [reflexivity|].
    cbn. rewrite app_nil_r. auto.
  - change (0 <? length (req :: reqs))%nat with true. cbv iota.
    destruct (for_each_insert_healthy fileId summary _ (req :: reqs) Hs) with
      (w := w1) (rows := rows) (parents := parents)
      as (w2 & E2 & Hf2 & Ha2 & Hd2 & Hm2 & Hn2 & _); auto.
    + rewrite <- Efil. now apply filter_typed.
    + rewrite E2. exists w2. split; [reflexivity|].
      rewrite Hf2, Ha2, Hn2. auto.
Qed.

Lemma store_feature_requests_returns env fileId aiFeatures w :
  exists w', store_feature_requests env fileId aiFeatures w = (Ok tt, w').
Proof.
  unfold store_feature_requests, try_catch.
  match goal with |- context [match ?b w with _ => _ end] => destruct (b w) as [[[]|e] w1] end.
  - eauto.
  - unfold console_error. eauto.
Qed.

(** *** What the stages leave alone *)

Lemma extractFeatureRequests_value t ai w w' :
  fst (extractFeatureRequests t ai w) = fst (extractFeatureRequests t ai w').
Proof.
  rewrite !extractFeatureRequests_eq.
  destruct ai as [run|]; [|reflexivity]. cbv zeta.
  destruct (outcome _); [|reflexivity].
  destruct (parse_response _); reflexivity.
Qed.

Lemma extractFeatureRequests_stores t ai w :
  same_stores w (snd (extractFeatureRequests t ai w)).
Proof.
  rewrite extractFeatureRequests_eq.
  destruct ai as [run|]; [|repeat split]. cbv zeta.
  destruct (outcome _); [|repeat split].
  destruct (parse_response _); repeat split.
Qed.

Lemma processAudioWithAI_value audio ai w w' :
  fst (processAudioWithAI audio ai w) = fst (processAudioWithAI audio ai w').
Proof.
  rewrite !processAudioWithAI_eq.
  destruct ai as [run|]; [|reflexivity]. cbv zeta.
  destruct (outcome _) as [result|e]; [|reflexivity].
  set (r := run_audio run transcription_model audio).
  pose proof (extractFeatureRequests_value (transcription_text result) (Some run)
                (after_call transcription_model (latency r) w)
                (after_call transcription_model (latency r) w')) as E.
  destruct (extractFeatureRequests _ _ (after_call _ _ w)) as [[fr|e] w2];
  destruct (extractFeatureRequests _ _ (after_call _ _ w')) as [[fr'|e'] w2'];
    cbn [fst] in E |- *; congruence.
Qed.

Lemma same_stores_trans w1 w2 w3 :
  same_stores w1 w2 -> same_stores w2 w3 -> same_stores w1 w3.
Proof. unfold same_stores. intuition congruence. Qed.

Lemma processAudioWithAI_stores audio ai w :
  same_stores w (snd (processAudioWithAI audio ai w)).
Proof.
  rewrite processAudioWithAI_eq.
  destruct ai as [run|]; [|repeat split]. cbv zeta.
  destruct (outcome _) as [result|e]; [|repeat split].
  set (w1 := after_call _ _ w).
  pose proof (extractFeatureRequests_stores (transcription_text result) (Some run) w1) as H.
  destruct (extractFeatureRequests _ _ w1) as [[fr|e] w2]; cbn [snd] in H |- *.
  - eapply same_stores_trans; [|exact H]. repeat split.
  - eapply same_stores_trans; [|eapply same_stores_trans; [exact H|]]; repeat split.
Qed.

Lemma store_audio_returns env key f w :
  exists b w',
    store_audio env key f w = (Ok b, w') /\
    minted w' = minted w /\ audio_files w' = audio_files w /\
    feature_requests w' = feature_requests w /\
    d1_faults w' = d1_faults w /\ now w' = now w.
Proof.
  unfold store_audio, try_catch, bind, ret, r2_put, console_error.
  destruct (usable (AUDIO_BUCKET env)); [|do 2 eexists; repeat split].
  destruct (next_fault (r2_faults w)) as [[e|] rest];
    do 2 eexists; repeat split.
Qed.

Lemma store_audio_result env key f w :
  fst (store_audio env key f w) = Ok (r2_stored (AUDIO_BUCKET env) w).
Proof.
  unfold store_audio, try_catch, bind, ret, r2_put, console_error, r2_stored.
  destruct (usable (AUDIO_BUCKET env)); [|reflexivity].
  destruct (next_fault (r2_faults w)) as [[e|] rest]; reflexivity.
Qed.

Lemma store_metadata_returns env fileId f b key w :
  exists d w', store_metadata env fileId f b key w = (Ok d, w') /\
               minted w' = minted w.
Proof.
  unfold store_metadata, try_catch.
  match goal with |- context [match ?m w with _ => _ end] =>
    assert (Hm : minted (snd (m w)) = minted w); [|destruct (m w) as [[d|e] w1]]
  end.
  - destruct (usable (audio2features env)); [|reflexivity].
    unfold bind, ensureFeatureRequestsTable, d1_run, Date_now, ret.
    destruct (next_fault (d1_faults w)) as [[e|] rest]; [reflexivity|].
    unfold execute at 1. cbn [audio_files log].
    destruct (audio_files w); cbn [d1_faults set_tables];
      destruct (next_fault rest) as [[e|] rest']; try reflexivity;
      unfold execute at 1; cbn [feature_requests set_tables];
      destruct (feature_requests w); cbn [d1_faults set_tables now];
      destruct (next_fault rest') as [[e|] rest'']; try reflexivity;
      unfold execute; cbn [audio_files set_tables af_id];
      match goal with |- context [has_audio_id ?r ?i] =>
        destruct (has_audio_id r i) end; reflexivity.
  - eauto.
  - unfold console_error, ret, bind. cbn. eauto.
Qed.

(** *** The upload handler, step by step *)

Lemma has_audio_id_app rows rows' id :
  has_audio_id (rows ++ rows') id =
  has_audio_id rows id || has_audio_id rows' id.
Proof. unfold has_audio_id. apply existsb_app. Qed.

Lemma store_metadata_healthy env fileId f b key w :
  audio2features env = Usable ->
  d1_faults w = [] ->
  has_audio_id (audio_rows w) fileId = false ->
  exists w',
    store_metadata env fileId f b key w = (Ok true, w') /\
    audio_files w' =
      Some (audio_rows w ++
            [{| af_id := fileId; af_file_name := name f;
                af_file_size := size f; af_file_type := type f;
                af_r2_key := if b then Some key else None;
                af_created_at := now w |}]) /\
    feature_requests w' = Some (feature_rows w) /\
    d1_faults w' = [] /\
    minted w' = minted w /\
    now w' = now w.
Proof.
  intros Hdb Hd Hid.
  unfold store_metadata, try_catch, bind, ensureFeatureRequestsTable, Date_now, ret.
  rewrite Hdb. cbn [usable].
  rewrite d1_run_healthy by exact Hd.
  set (w1 := snd (execute CreateAudioFiles (log (EvSql CreateAudioFiles) w))).
  assert (H1 : execute CreateAudioFiles (log (EvSql CreateAudioFiles) w) = (Ok tt, w1) /\
               audio_files w1 = Some (audio_rows w) /\
               feature_requests w1 = feature_requests w /\
               d1_faults w1 = [] /\ minted w1 = minted w /\ now w1 = now w).
  { subst w1. unfold execute, audio_rows. cbn [log audio_files].
    destruct (audio_files w) eqn:E; cbn; rewrite ?E; repeat split; auto. }
  destruct H1 as (E1 & Ha1 & Hf1 & Hd1 & Hm1 & Hn1). rewrite E1.
  rewrite d1_run_healthy by exact Hd1.
  set (w2 := snd (execute CreateFeatureRequests (log (EvSql CreateFeatureRequests) w1))).
  assert (H2 : execute CreateFeatureRequests (log (EvSql CreateFeatureRequests) w1) = (Ok tt, w2) /\
               audio_files w2 = Some (audio_rows w) /\
               feature_requests w2 = Some (feature_rows w) /\
               d1_faults w2 = [] /\ minted w2 = minted w /\ now w2 = now w).
  { subst w2. unfold execute, feature_rows. cbn [log feature_requests].
    rewrite Hf1. destruct (feature_requests w) eqn:E; cbn; rewrite ?E; repeat split; auto. }
  destruct H2 as (E2 & Ha2 & Hf2 & Hd2 & Hm2 & Hn2). rewrite E2.
  rewrite d1_run_healthy by exact Hd2.
  unfold execute. cbn [log audio_files af_id]. rewrite Ha2, Hid.
  eexists. split; [reflexivity|]. cbn. rewrite Hn2. repeat split; auto.
Qed.

Lemma valid_upload_checks f :
  valid_upload f ->
  negb (startsWith (type f) "audio/") = false /\ (maxSize <? size f)%Z = false.
Proof.
  intros [Ht Hs]. rewrite Ht. split; [reflexivity|]. apply Z.ltb_ge. exact Hs.
Qed.

(** The course of an accepted upload. *)
Lemma upload_valid env f w :
  valid_upload f ->
  let fileId := uuid_of (minted w) in
  let key := r2_key_of fileId f in
  exists r2Stored w2 d1Inserted w3 aiFeatures w4 w5,
    store_audio env key f (mint w) = (Ok r2Stored, w2) /\
    store_metadata env fileId f r2Stored key w2 = (Ok d1Inserted, w3) /\
    processAudioWithAI (arrayBuffer f) (AI env) w3 = (Ok aiFeatures, w4) /\
    store_feature_requests env fileId aiFeatures w4 = (Ok tt, w5) /\
    upload env (Some f) w =
      (Ok (json (VObj [ ("success", VBool true);
                        ("audioInfo", audio_info f fileId r2Stored key);
                        ("aiFeatures", aiFeatures);
                        ("message", VStr "Audio processed successfully") ])
             200), w5).
Proof.
  intros Hv fileId key.
  destruct (valid_upload_checks f Hv) as [Ht Hs].
  destruct (store_audio_returns env key f (mint w)) as (b & w2 & E2 & _).
  destruct (store_metadata_returns env fileId f b key w2) as (d & w3 & E3 & _).
  destruct (processAudioWithAI_returns (arrayBuffer f) (AI env) w3) as (v & w4 & E4).
  destruct (store_feature_requests_returns env fileId v w4) as (w5 & E5).
  exists b, w2, d, w3, v, w4, w5. repeat (split; [assumption|]).
  unfold upload, try_catch, bind. rewrite Ht, Hs, randomUUID_eq.
  fold fileId. change ("uploads/" ++ fileId ++ "-" ++ sanitize (name f))%string with key.
  rewrite E2, E3, E4, E5. reflexivity.
Qed.

(** An accepted upload against a healthy relational store: the response,
    and the rows the request adds to [feature_requests]. *)
Lemma upload_persists env f w aiFeatures o l :
  valid_upload f ->
  audio2features env = Usable ->
  d1_healthy w ->
  ids_fresh w ->
  fst (processAudioWithAI (arrayBuffer f) (AI env) w) = Ok aiFeatures ->
  get_prop aiFeatures "featureRequests" = Ok (VObj o) ->
  get_own o "requests" = Some (VArr l) ->
  Forall (fun req => typed_record req = true) l ->
  optional_string (field (VObj o) "summary") = true ->
  exists r2Stored createdAt w',
    upload env (Some f) w =
      (Ok (json (VObj [ ("success", VBool true);
                        ("audioInfo",
                         audio_info f (uuid_of (minted w)) r2Stored
                           (r2_key_of (uuid_of (minted w)) f));
                        ("aiFeatures", aiFeatures);
                        ("message", VStr "Audio processed successfully") ])
             200), w') /\
    feature_requests w' =
      Some (feature_rows w ++
            rows_from (uuid_of (minted w))
              (to_column (or_else (field (VObj o) "summary") VNull))
              createdAt (S (minted w)) (filter is_actionable l)).
Proof.
  intros Hv Hdb Hd Hfresh Hai Hfr Hreq Htyped Hsum.
  set (fileId := uuid_of (minted w)). set (key := r2_key_of fileId f).
  destruct (valid_upload_checks f Hv) as [Ht Hs].
  destruct (store_audio_returns env key f (mint w))
    as (b & w2 & E2 & Hm2 & Ha2 & Hf2 & Hd2 & Hn2).
  destruct (store_metadata_healthy env fileId f b key w2 Hdb)
    as (w3 & E3 & Ha3 & Hf3 & Hd3 & Hm3 & Hn3).
  { rewrite Hd2. exact Hd. }
  { unfold audio_rows. rewrite Ha2. apply (Hfresh (minted w)). lia. }
  pose proof (processAudioWithAI_value (arrayBuffer f) (AI env) w3 w) as Hval.
  pose proof (processAudioWithAI_stores (arrayBuffer f) (AI env) w3) as Hst.
  destruct (processAudioWithAI (arrayBuffer f) (AI env) w3) as [r w4] eqn:E4.
  cbn [fst snd] in Hval, Hst. rewrite Hai in Hval. subst r.
  destruct Hst as (Hm4 & _ & Ha4 & Hf4 & _ & Hd4).
  destruct (store_feature_requests_healthy env fileId aiFeatures o l w4
              (feature_rows w2)
              (audio_rows w2 ++
               [{| af_id := fileId; af_file_name := name f;
                   af_file_size := size f; af_file_type := type f;
                   af_r2_key := if b then Some key else None;
                   af_created_at := now w2 |}]))
    as (w5 & E5 & Hf5 & _); auto; try congruence.
  { rewrite has_audio_id_app. unfold has_audio_id at 2.
    cbn [existsb af_id]. rewrite String.eqb_refl. apply orb_true_r. }
  { intros k Hk. unfold feature_rows. rewrite Hf2.
    apply (Hfresh k). cbn [mint minted] in *. lia. }
  exists b, (now w4), w5. split.
  - unfold upload, try_catch, bind. rewrite Ht, Hs, randomUUID_eq.
    fold fileId. change ("uploads/" ++ fileId ++ "-" ++ sanitize (name f))%string with key.
    rewrite E2, E3, E4, E5. reflexivity.
  - rewrite Hf5. unfold feature_rows at 1. rewrite Hf2.
    fold (feature_rows w). f_equal. f_equal. f_equal.
    cbn [mint minted] in *. congruence.
Qed.

(** *** C5, C6, C10: what the upload handler persists *)

(** The rows written for [reqs]: as many as records, each with the parent
    identifier and the shared summary, with the identifiers handed out in
    sequence. *)
Lemma rows_from_shape fileId summary createdAt reqs :
  forall n,
    length (rows_from fileId summary createdAt n reqs) = length reqs /\
    Forall (fun row => fr_audio_file_id row = fileId /\ fr_summary row = summary)
      (rows_from fileId summary createdAt n reqs) /\
    map fr_id (rows_from fileId summary createdAt n reqs) =
      map uuid_of (seq n (length reqs)).
Proof.
  induction reqs as [|req reqs IH]; intros n; cbn [rows_from length map seq].
  - repeat split. constructor.
  - destruct (IH (S n)) as (Hl & Hf & Hi). repeat split.
    + now rewrite Hl.
    + constructor; [split; reflexivity|exact Hf].
    + cbn [row_of fr_id]. now rewrite Hi.
Qed.

Lemma uuid_of_seq_NoDup n k : NoDup (map uuid_of (seq n k)).
Proof.
  apply Injective_map_NoDup; [|apply seq_NoDup].
  intros a b. apply uuid_of_inj.
Qed.

Lemma rows_from_named fileId summary createdAt reqs :
  Forall (fun req => typed_record req = true) reqs ->
  forall n, Forall (fun row => named row = true)
              (rows_from fileId summary createdAt n reqs).
Proof.
  induction 1 as [|req reqs Hreq _ IH]; intros n; cbn [rows_from]; constructor.
  - unfold named. cbn [row_of fr_title].
    destruct (typed_record_inv _ Hreq) as (_ & Ht & _).
    now rewrite optional_string_text_column.
  - apply IH.
Qed.

Lemma rows_from_titles fileId summary createdAt reqs :
  Forall (fun req => is_actionable req = true) reqs ->
  forall n,
    map fr_title (rows_from fileId summary createdAt n reqs) =
    map (fun req => to_column (field req "title")) reqs.
Proof.
  induction 1 as [|req reqs Hreq _ IH]; intros n; cbn [rows_from map]; [reflexivity|].
  rewrite IH. f_equal. cbn [row_of fr_title].
  unfold is_actionable in Hreq.
  destruct (field req "title"); try discriminate.
  unfold or_else. cbn [truthy].
  destruct (s =? EmptyString)%string; [discriminate|reflexivity].
Qed.

Lemma filter_actionable_all l :
  Forall (fun req => is_actionable req = true) (filter is_actionable l).
Proof. apply Forall_forall. intros x Hx. now apply filter_In in Hx. Qed.

(** Of the three fixed records, the filter keeps two. The title of the
    parse-error record, "Unable to parse AI response", does not contain
    "parse error": that record is actionable, as the mock record is. *)
Example fixed_records_and_the_filter :
  is_actionable fallback_record = false /\
  is_actionable parse_error_record = true /\
  is_actionable mock_record = true /\
  actionable fallback_record = Ok false /\
  actionable parse_error_record = Ok true /\
  actionable mock_record = Ok true.
Proof. repeat split. Qed.

(** C5. An accepted upload, a relational store that is bound and answers,
    and an ExtractionResult whose records are typed as the data model says.
    The filter of the handler ([actionable]) computes the predicate of the
    specification ([is_actionable]) on every record; the rows the request
    adds to [feature_requests] are named rows, one per actionable record
    and in their order, carrying their titles; no row is written for any
    other record; and the response still carries the whole ExtractionResult,
    every record of [requests] included. *)
Theorem persisted_rows_are_the_actionable_records env f w aiFeatures o l :
  valid_upload f ->
  audio2features env = Usable ->
  d1_healthy w ->
  ids_fresh w ->
  fst (processAudioWithAI (arrayBuffer f) (AI env) w) = Ok aiFeatures ->
  get_prop aiFeatures "featureRequests" = Ok (VObj o) ->
  get_own o "requests" = Some (VArr l) ->
  Forall (fun req => typed_record req = true) l ->
  optional_string (field (VObj o) "summary") = true ->
  exists resp rows w',
    upload env (Some f) w = (Ok resp, w') /\
    get_prop (body resp) "aiFeatures" = Ok aiFeatures /\
    filter_res actionable l = Ok (filter is_actionable l) /\
    feature_requests w' = Some (feature_rows w ++ rows) /\
    Forall (fun row => named row = true) rows /\
    map fr_title rows =
      map (fun req => to_column (field req "title")) (filter is_actionable l).
Proof.
  intros Hv Hdb Hd Hfresh Hai Hfr Hreq Htyped Hsum.
  destruct (upload_persists env f w aiFeatures o l)
    as (b & createdAt & w' & E & Hrows); auto.
  eexists _, _, w'. split; [exact E|]. split; [reflexivity|].
  split; [now apply filter_res_typed|].
  split; [exact Hrows|].
  split; [apply rows_from_named; now apply filter_typed|].
  apply rows_from_titles, filter_actionable_all.
Qed.

Lemma recording_is_valid : valid_upload recording.
Proof. split; [reflexivity|]. unfold size, maxSize. simpl. lia. Qed.

Lemma world0_is_fresh : ids_fresh world0.
Proof. intros k _. split; reflexivity. Qed.

(** Three records, of which one is actionable: one row, three records in
    the response. *)
Lemma persisted_rows_are_the_actionable_records_witness :
  exists resp rows w',
    upload (all_bound (backend (heard "dark mode please") (says mixed_json)))
      (Some recording) world0 = (Ok resp, w') /\
    field (field (field (body resp) "aiFeatures") "featureRequests") "requests" =
      VArr mixed_records /\
    feature_requests w' = Some rows /\
    map fr_title rows = [SqlText "Add dark mode"].
Proof.
  destruct (persisted_rows_are_the_actionable_records
              (all_bound (backend (heard "dark mode please") (says mixed_json)))
              recording world0
              (transcription_envelope
                 (Some {| so_text := Some "dark mode please"; so_transcription := None;
                          so_language := None; so_language_confidence := None |})
                 120
                 (VObj [ ("requests", VArr mixed_records);
                         ("summary", VStr "three remarks");
                         ("extractionTimeMs", vnum 40);
                         ("model", VStr extraction_model);
                         ("originalTranscription", VStr "dark mode please") ]))
              [ ("requests", VArr mixed_records);
                ("summary", VStr "three remarks");
                ("extractionTimeMs", vnum 40);
                ("model", VStr extraction_model);
                ("originalTranscription", VStr "dark mode please") ]
              mixed_records)
    as (resp & rows & w' & E & Hai & _ & Hrows & _ & Htitles).
  - split; [reflexivity|]. unfold size, maxSize. simpl. lia.
  - reflexivity.
  - reflexivity.
  - intros k _. split; reflexivity.
  - reflexivity.
  - reflexivity.
  - reflexivity.
  - repeat constructor.
  - reflexivity.
  - exists resp, rows, w'. split; [exact E|]. split; [|split].
    + unfold field at 3. rewrite Hai. reflexivity.
    + exact Hrows.
    + exact Htitles.
Defined.

(** The first half of C6 holds: with N actionable records the request adds
    N rows, with pairwise distinct fresh identifiers, each with the
    identifier of the audio file and the same summary. *)
Lemma actionable_rows_are_written env f w aiFeatures o l :
  valid_upload f ->
  audio2features env = Usable ->
  d1_healthy w ->
  ids_fresh w ->
  fst (processAudioWithAI (arrayBuffer f) (AI env) w) = Ok aiFeatures ->
  get_prop aiFeatures "featureRequests" = Ok (VObj o) ->
  get_own o "requests" = Some (VArr l) ->
  Forall (fun req => typed_record req = true) l ->
  optional_string (field (VObj o) "summary") = true ->
  exists resp rows w',
    upload env (Some f) w = (Ok resp, w') /\
    feature_requests w' = Some (feature_rows w ++ rows) /\
    length rows = length (filter is_actionable l) /\
    NoDup (map fr_id rows) /\
    Forall (fun row =>
              fr_audio_file_id row = uuid_of (minted w) /\
              fr_summary row = to_column (or_else (field (VObj o) "summary") VNull))
      rows.
Proof.
  intros Hv Hdb Hd Hfresh Hai Hfr Hreq Htyped Hsum.
  destruct (upload_persists env f w aiFeatures o l)
    as (b & createdAt & w' & E & Hrows); auto.
  destruct (rows_from_shape (uuid_of (minted w))
              (to_column (or_else (field (VObj o) "summary") VNull))
              createdAt (filter is_actionable l) (S (minted w)))
    as (Hlen & Hall & Hids).
  eexists _, _, w'. split; [exact E|]. split; [exact Hrows|].
  split; [exact Hlen|]. split; [|exact Hall].
  rewrite Hids. apply uuid_of_seq_NoDup.
Qed.

(** With no actionable record the request adds no row at all. *)
Lemma placeholder_is_never_written env f w aiFeatures o l :
  valid_upload f ->
  audio2features env = Usable ->
  d1_healthy w ->
  ids_fresh w ->
  fst (processAudioWithAI (arrayBuffer f) (AI env) w) = Ok aiFeatures ->
  get_prop aiFeatures "featureRequests" = Ok (VObj o) ->
  get_own o "requests" = Some (VArr l) ->
  Forall (fun req => typed_record req = true) l ->
  optional_string (field (VObj o) "summary") = true ->
  filter is_actionable l = [] ->
  exists resp w',
    upload env (Some f) w = (Ok resp, w') /\
    feature_requests w' = Some (feature_rows w).
Proof.
  intros Hv Hdb Hd Hfresh Hai Hfr Hreq Htyped Hsum Hnone.
  destruct (upload_persists env f w aiFeatures o l)
    as (b & createdAt & w' & E & Hrows); auto.
  rewrite Hnone in Hrows. cbn [rows_from] in Hrows. rewrite app_nil_r in Hrows.
  eauto.
Qed.

(** C6, second half: the code does not do what the claim (and the comment
    in the handler) says. The text model answers with an empty [requests]
    array and a summary; all stores are bound and answer. The handler
    builds the placeholder row, with [title] and [description] null; the
    table created by [ensureFeatureRequestsTable] declares both columns
    [NOT NULL]; the statement is rejected, the rejection is logged and
    swallowed, and [feature_requests] holds no row for the upload. *)
Theorem placeholder_row_is_rejected :
  exists resp rest w',
    upload (all_bound (backend (heard "nice weather today") (says nothing_json)))
      (Some recording) world0 = (Ok resp, w') /\
    status resp = 200%Z /\
    field (field (field (body resp) "aiFeatures") "featureRequests") "requests" =
      VArr [] /\
    field (field (field (body resp) "aiFeatures") "featureRequests") "summary" =
      VStr "small talk" /\
    feature_requests w' = Some [] /\
    trace w' =
      EvConsoleError "Feature requests insert failed:" ::
      EvSql (InsertFeatureRequest
               {| fr_id := uuid_of 1;
                  fr_audio_file_id := uuid_of 0;
                  fr_title := SqlNull;
                  fr_description := SqlNull;
                  fr_priority := SqlNull;
                  fr_category := SqlNull;
                  fr_confidence := SqlNull;
                  fr_potential_recommendation := SqlNull;
                  fr_summary := SqlText "small talk";
                  fr_created_at := 160 |}) :: rest /\
    execute (InsertFeatureRequest
               {| fr_id := uuid_of 1;
                  fr_audio_file_id := uuid_of 0;
                  fr_title := SqlNull;
                  fr_description := SqlNull;
                  fr_priority := SqlNull;
                  fr_category := SqlNull;
                  fr_confidence := SqlNull;
                  fr_potential_recommendation := SqlNull;
                  fr_summary := SqlText "small talk";
                  fr_created_at := 160 |}) w' =
      (Throw (JsError "D1_ERROR: NOT NULL constraint failed: feature_requests.title"), w').
Proof.
  do 3 eexists. split; [vm_compute; reflexivity|].
  repeat split.
Qed.

(** *** C9: the response and the stores *)

(** C9, as stated, fails: the response is not left unchanged. The same
    upload with the same backend, once with a healthy bucket and once with
    a bucket whose [put] fails: both answers are 200 with [success: true]
    and the same AI results, but [audioInfo.r2Key] is the storage key in
    the first and [undefined] in the second. *)
Lemma bucket_failure_changes_audio_info :
  let env := all_bound (backend (heard "add dark mode") (says dark_mode_json)) in
  exists r1 r2 w1 w2,
    upload env (Some recording) world0 = (Ok r1, w1) /\
    upload env (Some recording) world_r2_down = (Ok r2, w2) /\
    body r1 <> body r2 /\
    field (field (body r1) "audioInfo") "r2Key" = VStr "uploads/uuid-0-stand_up.mp3" /\
    field (field (body r2) "audioInfo") "r2Key" = VUndefined /\
    status r1 = status r2 /\
    field (body r1) "success" = field (body r2) "success" /\
    field (body r1) "aiFeatures" = field (body r2) "aiFeatures".
Proof.
  cbv zeta. do 4 eexists.
  split; [vm_compute; reflexivity|]. split; [vm_compute; reflexivity|].
  split; [discriminate|]. repeat split.
Qed.

(** C9, amended. For an accepted upload the AI results in the response are
    fixed by the file and the [AI] binding alone. Whatever the two storage
    bindings are (missing, unusable, usable) and whatever the stores do
    (any fault schedule, any tables), the handler answers 200 with
    [success: true], those same AI results and the same message. The one
    part of the response that follows the stores is [audioInfo.r2Key]: it
    is the storage key when the bucket is usable and its [put] succeeds,
    and [undefined] otherwise. *)
Theorem upload_response_and_stores ai f :
  valid_upload f ->
  exists aiFeatures,
    forall bucket db w,
      exists w',
        upload {| AI := ai; AUDIO_BUCKET := bucket; audio2features := db |}
          (Some f) w =
        (Ok {| status := 200;
               body := VObj [ ("success", VBool true);
                              ("audioInfo",
                               audio_info f (uuid_of (minted w))
                                 (r2_stored bucket w)
                                 (r2_key_of (uuid_of (minted w)) f));
                              ("aiFeatures", aiFeatures);
                              ("message", VStr "Audio processed successfully") ] |},
         w').
Proof.
  intros Hv.
  destruct (processAudioWithAI_returns (arrayBuffer f) ai world0) as (v & w0' & E0).
  exists v. intros bucket db w.
  destruct (upload_valid {| AI := ai; AUDIO_BUCKET := bucket; audio2features := db |}
              f w Hv)
    as (b & w2 & d & w3 & v' & w4 & w5 & E2 & _ & E4 & _ & E).
  cbn [AI] in E4.
  pose proof (processAudioWithAI_value (arrayBuffer f) ai w3 world0) as Hval.
  rewrite E4, E0 in Hval. cbn [fst] in Hval. injection Hval as ->.
  pose proof (store_audio_result
                {| AI := ai; AUDIO_BUCKET := bucket; audio2features := db |}
                (r2_key_of (uuid_of (minted w)) f) f (mint w)) as Hb.
  rewrite E2 in Hb. cbn [fst AUDIO_BUCKET] in Hb. injection Hb as ->.
  exists w5. exact E.
Qed.

(** The sample recording, any stores. *)
Lemma upload_response_and_stores_witness :
  valid_upload recording /\
  exists aiFeatures,
    forall bucket db w,
      exists w',
        upload {| AI := Some (backend (heard "add dark mode") (says dark_mode_json));
                  AUDIO_BUCKET := bucket; audio2features := db |}
          (Some recording) w =
        (Ok {| status := 200;
               body := VObj [ ("success", VBool true);
                              ("audioInfo",
                               audio_info recording (uuid_of (minted w))
                                 (r2_stored bucket w)
                                 (r2_key_of (uuid_of (minted w)) recording));
                              ("aiFeatures", aiFeatures);
                              ("message", VStr "Audio processed successfully") ] |},
         w').
Proof.
  assert (Hv : valid_upload recording).
  { split; [reflexivity|]. unfold size, maxSize. simpl. lia. }
  split; [exact Hv|].
  exact (upload_response_and_stores
           (Some (backend (heard "add dark mode") (says dark_mode_json)))
           recording Hv).
Defined.

(** *** C10: the mock record is stored *)

(** C10. An accepted upload whose transcription fails (no [AI] binding, or
    the speech call rejects), with the relational store bound and
    answering: the response carries exactly one record, [mock-1], "[Mock]
    Feature Request Example"; that title is actionable; and the request
    adds exactly one row to [feature_requests], a named row with the mock
    title. *)
Theorem mock_record_is_persisted env f w err :
  valid_upload f ->
  audio2features env = Usable ->
  d1_healthy w ->
  ids_fresh w ->
  match AI env with
  | None => err = JsError "AI binding not available"
  | Some run => outcome (run_audio run transcription_model (arrayBuffer f)) = Throw err
  end ->
  exists resp createdAt w',
    upload env (Some f) w = (Ok resp, w') /\
    field (field (field (body resp) "aiFeatures") "featureRequests") "requests" =
      VArr [mock_record] /\
    field mock_record "id" = VStr "mock-1" /\
    field mock_record "title" = VStr "[Mock] Feature Request Example" /\
    is_actionable mock_record = true /\
    actionable mock_record = Ok true /\
    feature_requests w' =
      Some (feature_rows w ++
            [ {| fr_id := uuid_of (S (minted w));
                 fr_audio_file_id := uuid_of (minted w);
                 fr_title := SqlText "[Mock] Feature Request Example";
                 fr_description := SqlText "This is a mock feature request extracted from the transcription.";
                 fr_priority := SqlText "medium";
                 fr_category := SqlText "enhancement";
                 fr_confidence := SqlNumber (Num 8 (-1));
                 fr_potential_recommendation :=
                   SqlText ("• Implement user feedback collection system" ++ nl ++
                            "• Add feature request tracking dashboard");
                 fr_summary := SqlNull;
                 fr_created_at := createdAt |} ]).
Proof.
  intros Hv Hdb Hd Hfresh Hfail.
  assert (Hai : fst (processAudioWithAI (arrayBuffer f) (AI env) w) = Ok (mock_result err)).
  { rewrite processAudioWithAI_eq. destruct (AI env) as [run|].
    - cbv zeta. now rewrite Hfail.
    - now rewrite Hfail. }
  destruct (upload_persists env f w (mock_result err)
              [ ("requests", VArr [mock_record]);
                ("extractionTimeMs", vnum 500);
                ("model", VStr extraction_model);
                ("error", VStr (error_message err)) ]
              [mock_record])
    as (b & createdAt & w' & E & Hrows); auto.
  eexists _, createdAt, w'. split; [exact E|].
  repeat (split; [reflexivity|]). exact Hrows.
Qed.

(** No [AI] binding, no bucket, an empty database. *)
Lemma mock_record_is_persisted_witness :
  exists resp createdAt w',
    upload {| AI := None; AUDIO_BUCKET := Missing; audio2features := Usable |}
      (Some recording) world0 = (Ok resp, w') /\
    feature_requests w' =
      Some [ {| fr_id := uuid_of 1;
                fr_audio_file_id := uuid_of 0;
                fr_title := SqlText "[Mock] Feature Request Example";
                fr_description := SqlText "This is a mock feature request extracted from the transcription.";
                fr_priority := SqlText "medium";
                fr_category := SqlText "enhancement";
                fr_confidence := SqlNumber (Num 8 (-1));
                fr_potential_recommendation :=
                  SqlText ("• Implement user feedback collection system" ++ nl ++
                           "• Add feature request tracking dashboard");
                fr_summary := SqlNull;
                fr_created_at := createdAt |} ].
Proof.
  destruct (mock_record_is_persisted
              {| AI := None; AUDIO_BUCKET := Missing; audio2features := Usable |}
              recording world0 (JsError "AI binding not available"))
    as (resp & createdAt & w' & E & _ & _ & _ & _ & _ & Hrows).
  - split; [reflexivity|]. unfold size, maxSize. simpl. lia.
  - reflexivity.
  - reflexivity.
  - intros k _. split; reflexivity.
  - reflexivity.
  - exists resp, createdAt, w'. split; [exact E|exact Hrows].
Defined.

(** *** End to end *)

(** The scenario of the specification: the speech model hears "add dark
    mode", the text model answers with one request in valid JSON. The
    response reports success with one request, and one row with the title
    "Add dark mode" is stored under the identifier of the audio file. *)
Example end_to_end_dark_mode :
  exists resp w',
    upload (all_bound (backend (heard "add dark mode") (says dark_mode_json)))
      (Some recording) world0 = (Ok resp, w') /\
    field (body resp) "success" = VBool true /\
    field (field (field (body resp) "aiFeatures") "featureRequests") "requests" =
      VArr [dark_mode_record] /\
    map (fun row => (fr_audio_file_id row, fr_title row, fr_summary row))
      (feature_rows w') =
      [(uuid_of 0, SqlText "Add dark mode", SqlText "s")] /\
    map af_id (audio_rows w') = [uuid_of 0].
Proof. do 2 eexists. split; [vm_compute; reflexivity|]. repeat split. Qed.

(** The same upload when the text model cannot be reached: the only record
    is [fallback-1], the filter drops it, the placeholder is rejected, and
    nothing is stored for the upload. *)
Example end_to_end_extraction_down :
  exists resp w',
    upload (all_bound (backend (heard "add dark mode")
                         (rejects (JsError "upstream unavailable"))))
      (Some recording) world0 = (Ok resp, w') /\
    field (body resp) "success" = VBool true /\
    field (field (field (body resp) "aiFeatures") "featureRequests") "requests" =
      VArr [fallback_record] /\
    feature_rows w' = [] /\
    hd_error (trace w') = Some (EvConsoleError "Feature requests insert failed:").
Proof. do 2 eexists. split; [vm_compute; reflexivity|]. repeat split. Qed.

(* ===================================================================== *)
(** ** The rest of [src/index.ts]: frames, failures, round trips *)
(* ===================================================================== *)

Import Fetch MoreProps MoreSamples.

(** *** Frames: a relation between the worlds before and after *)

(** A reflexive and transitive relation kept by every step is kept by the
    whole computation. *)
Section Keeps.

Variable P : World -> World -> Prop.
Hypothesis P_refl : forall w, P w w.
Hypothesis P_trans : forall w1 w2 w3, P w1 w2 -> P w2 w3 -> P w1 w3.

Lemma keeps_ret {A : Type} (a : A) : keeps P (ret a).
Proof. intros w. apply P_refl. Qed.

Lemma keeps_throw {A : Type} (e : exn) : keeps P (@throw A e).
Proof. intros w. apply P_refl. Qed.

Lemma keeps_lift {A : Type} (r : Res A) : keeps P (lift r).
Proof. intros w. apply P_refl. Qed.

Lemma keeps_Date_now : keeps P Date_now.
Proof. intros w. apply P_refl. Qed.

Lemma keeps_bind {A B : Type} (m : M A) (k : A -> M B) :
  keeps P m -> (forall a, keeps P (k a)) -> keeps P (bind m k).
Proof.
  intros Hm Hk w. unfold bind. specialize (Hm w).
  destruct (m w) as [[a|e] w1]; cbn [snd] in *; [|exact Hm].
  eapply P_trans; [exact Hm|apply Hk].
Qed.

Lemma keeps_try_catch {A : Type} (m : M A) (h : exn -> M A) :
  keeps P m -> (forall e, keeps P (h e)) -> keeps P (try_catch m h).
Proof.
  intros Hm Hh w. unfold try_catch. specialize (Hm w).
  destruct (m w) as [[a|e] w1]; cbn [snd] in *; [exact Hm|].
  eapply P_trans; [exact Hm|apply Hh].
Qed.

Lemma keeps_for_each {A : Type} (f : A -> M unit) (l : list A) :
  (forall x, keeps P (f x)) -> keeps P (for_each f l).
Proof.
  intros Hf. induction l as [|x l IH]; cbn [for_each].
  - apply keeps_ret.
  - apply keeps_bind; [apply Hf|intros _; exact IH].
Qed.

End Keeps.

Lemma same_audio_refl w : same_audio w w.
Proof. repeat split. Qed.

Lemma same_audio_trans w1 w2 w3 :
  same_audio w1 w2 -> same_audio w2 w3 -> same_audio w1 w3.
Proof. unfold same_audio. intuition congruence. Qed.

Lemma same_feature_rows_refl w : same_feature_rows w w.
Proof. reflexivity. Qed.

Lemma same_feature_rows_trans w1 w2 w3 :
  same_feature_rows w1 w2 -> same_feature_rows w2 w3 -> same_feature_rows w1 w3.
Proof. unfold same_feature_rows. congruence. Qed.

Lemma same_bucket_refl w : same_bucket w w.
Proof. split; reflexivity. Qed.

Lemma same_bucket_trans w1 w2 w3 :
  same_bucket w1 w2 -> same_bucket w2 w3 -> same_bucket w1 w3.
Proof. unfold same_bucket. intuition congruence. Qed.

Lemma stays_healthy_refl w : stays_healthy w w.
Proof. intros H. exact H. Qed.

Lemma stays_healthy_trans w1 w2 w3 :
  stays_healthy w1 w2 -> stays_healthy w2 w3 -> stays_healthy w1 w3.
Proof. unfold stays_healthy. auto. Qed.

Lemma same_rows_refl w : same_rows w w.
Proof. split; reflexivity. Qed.

Lemma same_rows_trans w1 w2 w3 :
  same_rows w1 w2 -> same_rows w2 w3 -> same_rows w1 w3.
Proof. unfold same_rows. intuition congruence. Qed.

(** The side conditions of the lemmas of [Keeps]. *)
Ltac rel_side :=
  solve [ exact same_audio_refl | exact same_feature_rows_refl
        | exact same_bucket_refl | exact stays_healthy_refl
        | exact same_rows_refl
        | exact same_audio_trans | exact same_feature_rows_trans
        | exact same_bucket_trans | exact stays_healthy_trans
        | exact same_rows_trans ].

(** One step through the structure of a computation. *)
Ltac keeps_step :=
  match goal with
  | |- keeps _ (bind _ _) => apply keeps_bind; [rel_side| |intros ?]
  | |- keeps _ (try_catch _ _) => apply keeps_try_catch; [rel_side| |intros ?]
  | |- keeps _ (for_each _ _) =>
      apply keeps_for_each; [rel_side|rel_side|intros ?]
  | |- keeps _ (ret _) => apply keeps_ret; rel_side
  | |- keeps _ (throw _) => apply keeps_throw; rel_side
  | |- keeps _ (lift _) => apply keeps_lift; rel_side
  | |- keeps _ Date_now => apply keeps_Date_now; rel_side
  | |- keeps _ (if ?b then _ else _) => destruct b
  | |- keeps _ (match ?x with _ => _ end) => destruct x
  end.

(** *** What a statement leaves alone *)

Lemma d1_run_stays_healthy stmt : keeps stays_healthy (d1_run stmt).
Proof.
  intros w H. unfold d1_run. rewrite H. cbn [next_fault].
  destruct stmt; unfold execute; cbn [audio_files feature_requests];
    repeat match goal with
    | |- context [match ?x with _ => _ end] => destruct x
    end; reflexivity.
Qed.

Lemma d1_run_same_bucket stmt : keeps same_bucket (d1_run stmt).
Proof.
  intros w. unfold d1_run.
  destruct (next_fault (d1_faults w)) as [[e|] rest]; [split; reflexivity|].
  destruct stmt; unfold execute; cbn [audio_files feature_requests];
    repeat match goal with
    | |- context [match ?x with _ => _ end] => destruct x
    end; split; reflexivity.
Qed.

Lemma execute_same_audio stmt w :
  (forall row, stmt <> InsertAudioFile row) ->
  same_audio w (snd (execute stmt w)).
Proof.
  intros Hs. unfold same_audio, audio_rows.
  destruct stmt as [| |row|row]; [| |exfalso; eapply Hs; reflexivity|];
    unfold execute.
  - destruct (audio_files w) eqn:E; cbn; rewrite ?E; repeat split.
  - destruct (feature_requests w); cbn; repeat split.
  - destruct (feature_requests w); [|repeat split].
    destruct (is_null (fr_title row)); [repeat split|].
    destruct (is_null (fr_description row)); [repeat split|].
    destruct (has_feature_id l (fr_id row)); [repeat split|].
    destruct (audio_files w) eqn:E; [|cbn; rewrite E; repeat split].
    destruct (has_audio_id l0 (fr_audio_file_id row)); cbn; rewrite ?E; repeat split.
Qed.

Lemma d1_run_same_audio stmt :
  (forall row, stmt <> InsertAudioFile row) -> keeps same_audio (d1_run stmt).
Proof.
  intros Hs w. unfold d1_run.
  destruct (next_fault (d1_faults w)) as [[e|] rest]; [repeat split|].
  match goal with |- same_audio w (snd (execute stmt ?w1)) =>
    apply (same_audio_trans w w1); [repeat split|apply execute_same_audio, Hs]
  end.
Qed.

Lemma execute_same_feature_rows stmt w :
  (forall row, stmt <> InsertFeatureRequest row) ->
  same_feature_rows w (snd (execute stmt w)).
Proof.
  intros Hs. unfold same_feature_rows, feature_rows.
  destruct stmt as [| |row|row]; [| | |exfalso; eapply Hs; reflexivity];
    unfold execute.
  - destruct (audio_files w); cbn; reflexivity.
  - destruct (feature_requests w) eqn:E; cbn; rewrite ?E; reflexivity.
  - destruct (audio_files w); [|reflexivity].
    destruct (has_audio_id l (af_id row)); cbn; reflexivity.
Qed.

Lemma d1_run_same_feature_rows stmt :
  (forall row, stmt <> InsertFeatureRequest row) ->
  keeps same_feature_rows (d1_run stmt).
Proof.
  intros Hs w. unfold d1_run.
  destruct (next_fault (d1_faults w)) as [[e|] rest]; [reflexivity|].
  match goal with |- same_feature_rows w (snd (execute stmt ?w1)) =>
    apply (same_feature_rows_trans w w1); [reflexivity|apply execute_same_feature_rows, Hs]
  end.
Qed.

(** *** What the blocks of the upload handler leave alone *)

Ltac keeps_prim :=
  let w := fresh "w" in
  intros w;
  first [ solve [repeat split]
        | solve [let H := fresh in intros H; exact H] ].

Ltac keeps_auto :=
  repeat first
    [ keeps_step
    | apply d1_run_stays_healthy
    | apply d1_run_same_bucket
    | apply d1_run_same_audio; discriminate
    | apply d1_run_same_feature_rows; discriminate
    | match goal with
      | |- keeps _ randomUUID => keeps_prim
      | |- keeps _ (console_error _) => keeps_prim
      | |- keeps _ (sleep _) => keeps_prim
      end ].

Lemma store_feature_requests_same_audio env fileId aiFeatures :
  keeps same_audio (store_feature_requests env fileId aiFeatures).
Proof.
  unfold store_feature_requests, insert_request, insert_placeholder,
    ensureFeatureRequestsTable.
  keeps_auto.
Qed.

Lemma store_feature_requests_stays_healthy env fileId aiFeatures :
  keeps stays_healthy (store_feature_requests env fileId aiFeatures).
Proof.
  unfold store_feature_requests, insert_request, insert_placeholder,
    ensureFeatureRequestsTable.
  keeps_auto.
Qed.

Lemma store_metadata_same_feature_rows env fileId f b key :
  keeps same_feature_rows (store_metadata env fileId f b key).
Proof.
  unfold store_metadata, ensureFeatureRequestsTable. keeps_auto.
Qed.

Lemma store_metadata_same_bucket env fileId f b key :
  keeps same_bucket (store_metadata env fileId f b key).
Proof.
  unfold store_metadata, ensureFeatureRequestsTable. keeps_auto.
Qed.

Lemma store_metadata_stays_healthy env fileId f b key :
  keeps stays_healthy (store_metadata env fileId f b key).
Proof.
  unfold store_metadata, ensureFeatureRequestsTable. keeps_auto.
Qed.

(** *** The upload handler: the answer, and the stores it needs *)

(** A form the handler turns down: answered 400, and nothing has
    happened. *)
Lemma upload_rejected env audioFile w :
  ~ (exists f, audioFile = Some f /\ valid_upload f) ->
  exists resp, upload env audioFile w = (Ok resp, w) /\ status resp = 400%Z.
Proof.
  intros Hn. destruct audioFile as [f|]; [|eexists; split; reflexivity].
  destruct (startsWith (type f) "audio/") eqn:Ht.
  2:{ eexists. split; [unfold upload, try_catch; rewrite Ht; reflexivity|reflexivity]. }
  destruct (maxSize <? size f)%Z eqn:Hs.
  { eexists. split; [unfold upload, try_catch; rewrite Ht, Hs; reflexivity|reflexivity]. }
  exfalso. apply Hn. exists f. split; [reflexivity|].
  split; [exact Ht|]. apply Z.ltb_ge. exact Hs.
Qed.

Lemma valid_upload_dec audioFile :
  (exists f, audioFile = Some f /\ valid_upload f) \/
  ~ (exists f, audioFile = Some f /\ valid_upload f).
Proof.
  destruct audioFile as [f|]; [|right; intros (f & Hf & _); discriminate].
  destruct (startsWith (type f) "audio/") eqn:Ht.
  2:{ right. intros (f' & [= <-] & [Ht' _]). congruence. }
  destruct (Z_le_gt_dec (size f) maxSize) as [Hs|Hs].
  - left. exists f. repeat split; assumption.
  - right. intros (f' & [= <-] & [_ Hs']). lia.
Qed.

(** X1. Given a decoded form (the field [audio] a file, or absent), the
    upload handler returns a response, it never raises, and the status is
    200 or 400, never 500: it is 400 exactly when there is no file, or its
    MIME type does not start with [audio/], or it is larger than 25 MB,
    and then nothing at all has happened (the world is as before); it is
    200 for every other file, whatever the bucket, the database and the
    two models do. *)
Theorem upload_answers_200_or_400 env audioFile w :
  exists resp w',
    upload env audioFile w = (Ok resp, w') /\
    ((status resp = 200%Z /\ exists f, audioFile = Some f /\ valid_upload f) \/
     (status resp = 400%Z /\ w' = w /\
      ~ (exists f, audioFile = Some f /\ valid_upload f))).
Proof.
  destruct (valid_upload_dec audioFile) as [(f & -> & Hv)|Hn].
  - destruct (upload_valid env f w Hv)
      as (b & w2 & d & w3 & v & w4 & w5 & _ & _ & _ & _ & E).
    do 2 eexists. split; [exact E|]. left. split; [reflexivity|]. eauto.
  - destruct (upload_rejected env audioFile w Hn) as (resp & E & Hs).
    exists resp, w. split; [exact E|]. right. auto.
Qed.

Lemma store_metadata_unbound env fileId f b key w :
  usable (audio2features env) = false ->
  store_metadata env fileId f b key w = (Ok false, w).
Proof. intros H. unfold store_metadata, try_catch. now rewrite H. Qed.

Lemma store_feature_requests_unbound env fileId aiFeatures w :
  usable (audio2features env) = false ->
  store_feature_requests env fileId aiFeatures w = (Ok tt, w).
Proof. intros H. unfold store_feature_requests, try_catch. now rewrite H. Qed.

(** X2. Without a usable D1 binding the upload handler sends no statement
    to the database: both tables and the fault schedule of the store are
    as before, for every form and every backend. *)
Theorem upload_without_database env audioFile w :
  usable (audio2features env) = false ->
  exists resp w',
    upload env audioFile w = (Ok resp, w') /\
    audio_files w' = audio_files w /\
    feature_requests w' = feature_requests w /\
    d1_faults w' = d1_faults w.
Proof.
  intros Hdb.
  destruct (valid_upload_dec audioFile) as [(f & -> & Hv)|Hn].
  2:{ destruct (upload_rejected env audioFile w Hn) as (resp & E & _).
      exists resp, w. repeat split. exact E. }
  destruct (upload_valid env f w Hv)
    as (b & w2 & d & w3 & v & w4 & w5 & E2 & E3 & E4 & E5 & E).
  destruct (store_audio_returns env (r2_key_of (uuid_of (minted w)) f) f (mint w))
    as (b' & w2' & E2' & _ & Ha2 & Hf2 & Hd2 & _).
  rewrite E2 in E2'. injection E2' as <- <-.
  rewrite store_metadata_unbound in E3 by exact Hdb. injection E3 as <- <-.
  pose proof (processAudioWithAI_stores (arrayBuffer f) (AI env) w2) as Hst.
  rewrite E4 in Hst. cbn [snd] in Hst.
  destruct Hst as (_ & _ & Ha4 & Hf4 & _ & Hd4).
  rewrite store_feature_requests_unbound in E5 by exact Hdb. injection E5 as <-.
  do 2 eexists. split; [exact E|].
  cbn [mint audio_files feature_requests d1_faults] in *.
  repeat split; congruence.
Qed.

Lemma upload_without_database_witness :
  exists resp w',
    upload (unbound (backend (heard "add dark mode") (says dark_mode_json)))
      (Some recording) world_with_rows = (Ok resp, w') /\
    audio_files w' = audio_files world_with_rows /\
    feature_requests w' = feature_requests world_with_rows /\
    d1_faults w' = d1_faults world_with_rows.
Proof.
  exact (upload_without_database
           (unbound (backend (heard "add dark mode") (says dark_mode_json)))
           (Some recording) world_with_rows eq_refl).
Defined.

(** *** [GET /audio/:id/feature-requests] *)

(** A fetch against a store that answers. *)
Lemma fetch_healthy env audioId w :
  usable (audio2features env) = true ->
  d1_faults w = [] ->
  exists w',
    get_feature_requests env audioId w =
      (Ok {| fetch_status := 200;
             fetch_body := FetchedRows (rows_of_audio audioId (feature_rows w)) |},
       w') /\
    feature_requests w' = Some (feature_rows w) /\
    audio_files w' = audio_files w /\
    bucket w' = bucket w /\
    d1_faults w' = [].
Proof.
  intros Hdb Hd.
  unfold get_feature_requests, try_catch, bind, ensureFeatureRequestsTable, ret.
  rewrite Hdb. rewrite d1_run_healthy by exact Hd.
  unfold execute, d1_select_feature_requests, feature_rows, rows_of_audio.
  cbn [log feature_requests].
  destruct (feature_requests w) as [rows|] eqn:E;
    cbn [log set_tables d1_faults feature_requests]; rewrite ?Hd, ?E;
    cbn [next_fault];
    eexists; (split; [reflexivity|]); cbn; rewrite ?E; auto.
Qed.

(** X3. [GET /audio/:id/feature-requests] against a bound database that
    answers: status 200, and a row is returned if and only if it is a row
    of [feature_requests] whose [audio_file_id] is the identifier of the
    path (so nothing for an unknown identifier, and nothing, rather than
    an error, when the table did not exist). The only change is that the
    table exists afterwards; [audio_files] is as before. *)
Theorem fetch_returns_the_rows_of_the_audio env audioId w :
  usable (audio2features env) = true ->
  d1_healthy w ->
  exists rows w',
    get_feature_requests env audioId w =
      (Ok {| fetch_status := 200; fetch_body := FetchedRows rows |}, w') /\
    (forall row,
       In row rows <->
       In row (feature_rows w) /\ fr_audio_file_id row = audioId) /\
    feature_requests w' = Some (feature_rows w) /\
    audio_files w' = audio_files w.
Proof.
  intros Hdb Hd.
  destruct (fetch_healthy env audioId w Hdb Hd) as (w' & E & Hf & Ha & _).
  exists (rows_of_audio audioId (feature_rows w)), w'.
  split; [exact E|]. split; [|split; assumption].
  intros row. unfold rows_of_audio. rewrite filter_In.
  split; intros [Hin Hid]; (split; [exact Hin|]).
  - now apply String.eqb_eq.
  - now apply String.eqb_eq.
Qed.

Lemma fetch_returns_the_rows_of_the_audio_witness :
  exists rows w',
    get_feature_requests (all_bound (backend (heard "x") (says "y")))
      (uuid_of 0) world_with_rows =
      (Ok {| fetch_status := 200; fetch_body := FetchedRows rows |}, w') /\
    In {| fr_id := uuid_of 1; fr_audio_file_id := uuid_of 0;
          fr_title := SqlText "Add dark mode";
          fr_description := SqlText "d";
          fr_priority := SqlText "low";
          fr_category := SqlNull;
          fr_confidence := SqlNull;
          fr_potential_recommendation := SqlNull;
          fr_summary := SqlText "s";
          fr_created_at := 160 |} rows.
Proof.
  destruct (fetch_returns_the_rows_of_the_audio
              (all_bound (backend (heard "x") (says "y"))) (uuid_of 0)
              world_with_rows eq_refl eq_refl)
    as (rows & w' & E & Hrows & _).
  exists rows, w'. split; [exact E|].
  apply Hrows. split; [left; reflexivity|reflexivity].
Defined.

Lemma d1_select_same_rows audioId : keeps same_rows (d1_select_feature_requests audioId).
Proof.
  intros w. unfold d1_select_feature_requests.
  destruct (next_fault (d1_faults w)) as [[e|] rest]; [split; reflexivity|].
  unfold same_rows, audio_rows, feature_rows. cbn [feature_requests].
  destruct (feature_requests w) eqn:E; cbn; rewrite ?E; split; reflexivity.
Qed.

Lemma d1_select_same_bucket audioId : keeps same_bucket (d1_select_feature_requests audioId).
Proof.
  intros w. unfold d1_select_feature_requests.
  destruct (next_fault (d1_faults w)) as [[e|] rest]; [split; reflexivity|].
  cbn [feature_requests]. destruct (feature_requests w); split; reflexivity.
Qed.

Lemma create_feature_requests_same_rows : keeps same_rows (d1_run CreateFeatureRequests).
Proof.
  intros w. unfold d1_run.
  destruct (next_fault (d1_faults w)) as [[e|] rest]; [split; reflexivity|].
  unfold execute, same_rows, audio_rows, feature_rows. cbn [feature_requests].
  destruct (feature_requests w) eqn:E; cbn; rewrite ?E; split; reflexivity.
Qed.

Lemma get_feature_requests_same_rows env audioId :
  keeps same_rows (get_feature_requests env audioId).
Proof.
  unfold get_feature_requests, ensureFeatureRequestsTable.
  repeat first [ keeps_step | apply create_feature_requests_same_rows
               | apply d1_select_same_rows ].
Qed.

Lemma get_feature_requests_same_bucket env audioId :
  keeps same_bucket (get_feature_requests env audioId).
Proof.
  unfold get_feature_requests, ensureFeatureRequestsTable.
  repeat first [ keeps_step | apply d1_run_same_bucket
               | apply d1_select_same_bucket ].
Qed.

(** X4. The fetch endpoint is read-only and always answers: whatever the
    store does, it returns a response (it never raises); the rows of both
    tables, the bucket and the identifier counter are as before; a body
    with rows has status 200 and holds exactly the rows of that audio
    file, every other body has status 500; and the body [D1 binding not
    available] is given exactly when the binding is not usable, in which
    case nothing has happened. *)
Theorem fetch_never_changes_a_row env audioId w :
  exists resp w',
    get_feature_requests env audioId w = (Ok resp, w') /\
    audio_rows w' = audio_rows w /\
    feature_rows w' = feature_rows w /\
    bucket w' = bucket w /\
    minted w' = minted w /\
    match fetch_body resp with
    | FetchedRows rows =>
        fetch_status resp = 200%Z /\
        rows = rows_of_audio audioId (feature_rows w)
    | FetchError _ _ => fetch_status resp = 500%Z
    end /\
    (if usable (audio2features env)
     then fetch_body resp <> FetchError "D1 binding not available" None
     else w' = w /\
          fetch_body resp = FetchError "D1 binding not available" None).
Proof.
  pose proof (get_feature_requests_same_rows env audioId w) as [Ha Hf].
  pose proof (get_feature_requests_same_bucket env audioId w) as [Hb _].
  revert Ha Hf Hb.
  unfold get_feature_requests, try_catch, bind, ensureFeatureRequestsTable, ret.
  destruct (usable (audio2features env)).
  2:{ intros. do 2 eexists. split; [reflexivity|]. cbn. auto 10. }
  unfold d1_run, d1_select_feature_requests.
  destruct (next_fault (d1_faults w)) as [[e|] rest].
  { intros. do 2 eexists. split; [reflexivity|]. cbn. repeat split; discriminate. }
  unfold execute, feature_rows. cbn [feature_requests].
  destruct (feature_requests w) as [rows|] eqn:E;
    cbn [set_tables d1_faults feature_requests];
    destruct (next_fault rest) as [[e|] rest'];
    intros; do 2 eexists; (split; [reflexivity|]); cbn in *;
    repeat split; auto; discriminate.
Qed.

(** *** The upload handler: the audio row and the object *)

Lemma store_audio_bucket env key f w :
  bucket (snd (store_audio env key f w)) =
  if r2_stored (AUDIO_BUCKET env) w
  then bucket w ++ [{| r2_key := key; r2_body := arrayBuffer f;
                       r2_content_type := type f |}]
  else bucket w.
Proof.
  unfold store_audio, try_catch, bind, ret, r2_put, console_error, r2_stored.
  destruct (usable (AUDIO_BUCKET env)); [|reflexivity].
  destruct (next_fault (r2_faults w)) as [[e|] rest]; reflexivity.
Qed.

(** An accepted upload against a relational store that answers: what the
    stores hold afterwards, apart from the feature requests. *)
Lemma upload_healthy_stores env f w :
  valid_upload f ->
  audio2features env = Usable ->
  d1_healthy w ->
  ids_fresh w ->
  exists aiFeatures w4 w',
    upload env (Some f) w =
      (Ok (json (VObj [ ("success", VBool true);
                        ("audioInfo",
                         audio_info f (uuid_of (minted w))
                           (r2_stored (AUDIO_BUCKET env) w)
                           (r2_key_of (uuid_of (minted w)) f));
                        ("aiFeatures", aiFeatures);
                        ("message", VStr "Audio processed successfully") ])
             200), w') /\
    store_feature_requests env (uuid_of (minted w)) aiFeatures w4 = (Ok tt, w') /\
    feature_rows w4 = feature_rows w /\
    audio_rows w' =
      audio_rows w ++
      [audio_row_of f (uuid_of (minted w)) (r2_stored (AUDIO_BUCKET env) w) (now w)] /\
    bucket w' =
      (if r2_stored (AUDIO_BUCKET env) w
       then bucket w ++ [{| r2_key := r2_key_of (uuid_of (minted w)) f;
                            r2_body := arrayBuffer f;
                            r2_content_type := type f |}]
       else bucket w) /\
    d1_faults w' = [].
Proof.
  intros Hv Hdb Hd Hfresh.
  set (fileId := uuid_of (minted w)). set (key := r2_key_of fileId f).
  destruct (upload_valid env f w Hv)
    as (b & w2 & d & w3 & v & w4 & w5 & E2 & E3 & E4 & E5 & E).
  fold fileId key in E2, E3, E5, E.
  destruct (store_audio_returns env key f (mint w))
    as (b' & w2' & E2' & Hm2 & Ha2 & Hf2 & Hd2 & Hn2).
  rewrite E2 in E2'. injection E2' as <- <-.
  pose proof (store_audio_result env key f (mint w)) as Hb.
  rewrite E2 in Hb. cbn [fst] in Hb. injection Hb as ->.
  pose proof (store_audio_bucket env key f (mint w)) as Hbk.
  rewrite E2 in Hbk. cbn [snd] in Hbk.
  change (r2_stored (AUDIO_BUCKET env) (mint w))
    with (r2_stored (AUDIO_BUCKET env) w) in *.
  destruct (store_metadata_healthy env fileId f (r2_stored (AUDIO_BUCKET env) w) key w2 Hdb)
    as (w3' & E3' & Ha3 & Hf3 & Hd3 & Hm3 & Hn3).
  { rewrite Hd2. exact Hd. }
  { unfold audio_rows. rewrite Ha2. apply (Hfresh (minted w)). lia. }
  rewrite E3 in E3'. injection E3' as -> <-.
  pose proof (store_metadata_same_bucket env fileId f
                (r2_stored (AUDIO_BUCKET env) w) key w2) as [Hb3 _].
  rewrite E3 in Hb3. cbn [snd] in Hb3.
  pose proof (processAudioWithAI_stores (arrayBuffer f) (AI env) w3) as Hst.
  rewrite E4 in Hst. cbn [snd] in Hst.
  destruct Hst as (Hm4 & Hb4 & Ha4 & Hf4 & _ & Hd4).
  pose proof (store_feature_requests_same_audio env fileId v w4) as (Ha5 & Hb5 & _).
  pose proof (store_feature_requests_stays_healthy env fileId v w4) as Hd5.
  rewrite E5 in Ha5, Hb5, Hd5. cbn [snd] in Ha5, Hb5, Hd5.
  exists v, w4, w5. split; [exact E|]. split; [exact E5|].
  split; [|split; [|split]].
  - unfold feature_rows. rewrite Hf4, Hf3. unfold feature_rows. now rewrite Hf2.
  - rewrite Ha5. unfold audio_rows at 1. rewrite Ha4, Ha3.
    unfold audio_rows. rewrite Ha2. cbn [mint audio_files].
    unfold audio_row_of. fold key. rewrite Hn2. reflexivity.
  - rewrite Hb5, Hb4, Hb3, Hbk. reflexivity.
  - apply Hd5. congruence.
Qed.

(** X5. An accepted upload against a healthy database adds exactly one
    row to [audio_files]: its id is the [fileId] of the response, then the
    name, size and type of the file, the time of the request, and as
    [r2_key] the key [uploads/<fileId>-<sanitised name>] when the bucket
    stored the object and NULL when it did not. The bucket gains the bytes
    of the file under that key, with the content type of the file, in the
    first case and is unchanged in the second. *)
Theorem upload_stores_the_audio env f w :
  valid_upload f ->
  audio2features env = Usable ->
  d1_healthy w ->
  ids_fresh w ->
  exists resp w',
    upload env (Some f) w = (Ok resp, w') /\
    field (field (body resp) "audioInfo") "fileId" = VStr (uuid_of (minted w)) /\
    audio_rows w' =
      audio_rows w ++
      [ {| af_id := uuid_of (minted w);
           af_file_name := name f;
           af_file_size := size f;
           af_file_type := type f;
           af_r2_key := if r2_stored (AUDIO_BUCKET env) w
                        then Some (r2_key_of (uuid_of (minted w)) f) else None;
           af_created_at := now w |} ] /\
    bucket w' =
      (if r2_stored (AUDIO_BUCKET env) w
       then bucket w ++ [{| r2_key := r2_key_of (uuid_of (minted w)) f;
                            r2_body := arrayBuffer f;
                            r2_content_type := type f |}]
       else bucket w).
Proof.
  intros Hv Hdb Hd Hfresh.
  destruct (upload_healthy_stores env f w Hv Hdb Hd Hfresh)
    as (v & w4 & w' & E & _ & _ & Ha & Hb & _).
  do 2 eexists. split; [exact E|]. split; [reflexivity|].
  split; [exact Ha|exact Hb].
Qed.

Lemma upload_stores_the_audio_witness :
  exists resp w',
    upload (all_bound (backend (heard "add dark mode") (says dark_mode_json)))
      (Some recording) world_with_rows = (Ok resp, w') /\
    field (field (body resp) "audioInfo") "fileId" = VStr (uuid_of 2) /\
    map af_id (audio_rows w') = [uuid_of 0; uuid_of 2] /\
    map r2_body (bucket w') = ["RIFF"].
Proof.
  destruct (upload_stores_the_audio
              (all_bound (backend (heard "add dark mode") (says dark_mode_json)))
              recording world_with_rows)
    as (resp & w' & E & Hid & Ha & Hb).
  - split; [reflexivity|]. unfold size, maxSize. simpl. lia.
  - reflexivity.
  - reflexivity.
  - intros k Hk. cbn [minted world_with_rows] in Hk.
    unfold audio_rows, feature_rows, has_audio_id, has_feature_id.
    cbn [world_with_rows audio_files feature_requests existsb af_id fr_id].
    rewrite !orb_false_r. split; apply String.eqb_neq; intros H;
      apply uuid_of_inj in H; lia.
  - exists resp, w'. split; [exact E|]. split; [exact Hid|].
    rewrite Ha, Hb. split; reflexivity.
Defined.

(** *** Upload, then fetch *)

Lemma filter_nothing {A : Type} (p : A -> bool) l :
  existsb p l = false -> filter p l = [].
Proof.
  induction l as [|x l IH]; cbn [existsb filter]; [reflexivity|].
  intros H. apply orb_false_iff in H as [Hx Hl]. rewrite Hx. now apply IH.
Qed.

Lemma filter_everything {A : Type} (p : A -> bool) l :
  Forall (fun x => p x = true) l -> filter p l = l.
Proof.
  induction 1 as [|x l Hx _ IH]; cbn [filter]; [reflexivity|].
  now rewrite Hx, IH.
Qed.

Lemma rows_of_audio_new fileId summary createdAt n reqs :
  rows_of_audio fileId (rows_from fileId summary createdAt n reqs) =
  rows_from fileId summary createdAt n reqs.
Proof.
  apply filter_everything.
  destruct (rows_from_shape fileId summary createdAt reqs n) as (_ & H & _).
  eapply Forall_impl; [|exact H].
  intros row [-> _]. apply String.eqb_refl.
Qed.

(** X6. Round trip of an upload and a fetch. After an accepted upload
    (healthy database, records of the documented types, no stored row that
    refers to an identifier not handed out yet), fetching the feature
    requests of the [fileId] of the response answers 200 with exactly the
    rows this upload added to the table: one per actionable record, in the
    order of the records, each with its title and the shared summary. *)
Theorem upload_then_fetch env f w aiFeatures o l :
  valid_upload f ->
  audio2features env = Usable ->
  d1_healthy w ->
  ids_fresh w ->
  refs_fresh w ->
  fst (processAudioWithAI (arrayBuffer f) (AI env) w) = Ok aiFeatures ->
  get_prop aiFeatures "featureRequests" = Ok (VObj o) ->
  get_own o "requests" = Some (VArr l) ->
  Forall (fun req => typed_record req = true) l ->
  optional_string (field (VObj o) "summary") = true ->
  exists resp w' fetched w'',
    upload env (Some f) w = (Ok resp, w') /\
    field (field (body resp) "audioInfo") "fileId" = VStr (uuid_of (minted w)) /\
    get_feature_requests env (uuid_of (minted w)) w' =
      (Ok {| fetch_status := 200; fetch_body := FetchedRows fetched |}, w'') /\
    feature_rows w' = feature_rows w ++ fetched /\
    map fr_title fetched =
      map (fun req => to_column (field req "title")) (filter is_actionable l) /\
    Forall (fun row =>
              fr_summary row = to_column (or_else (field (VObj o) "summary") VNull))
      fetched.
Proof.
  intros Hv Hdb Hd Hfresh Hrefs Hai Hfr Hreq Htyped Hsum.
  destruct (upload_persists env f w aiFeatures o l)
    as (b & createdAt & w' & E & Hrows); auto.
  destruct (upload_healthy_stores env f w Hv Hdb Hd Hfresh)
    as (v & w4 & w1 & E1 & _ & _ & _ & _ & Hd1).
  rewrite E in E1. injection E1 as _ _ <-.
  destruct (fetch_healthy env (uuid_of (minted w)) w') as (w'' & Ef & _).
  { now rewrite Hdb. }
  { exact Hd1. }
  do 4 eexists. split; [exact E|]. split; [reflexivity|].
  split; [exact Ef|].
  assert (Hall : feature_rows w' =
                 feature_rows w ++
                 rows_from (uuid_of (minted w))
                   (to_column (or_else (field (VObj o) "summary") VNull))
                   createdAt (S (minted w)) (filter is_actionable l)).
  { unfold feature_rows at 1. now rewrite Hrows. }
  rewrite Hall at 2 3 4. rewrite Hall.
  unfold rows_of_audio at 1 2 3. rewrite filter_app.
  fold (rows_of_audio (uuid_of (minted w)) (feature_rows w)).
  match goal with |- context [filter ?p (rows_from ?a ?b ?c ?d ?e)] =>
    change (filter p (rows_from a b c d e))
      with (rows_of_audio a (rows_from a b c d e))
  end.
  rewrite rows_of_audio_new.
  unfold rows_of_audio.
  rewrite (filter_nothing _ (feature_rows w)) by (apply Hrefs; lia). cbn [app].
  split; [reflexivity|]. split.
  - apply rows_from_titles, filter_actionable_all.
  - destruct (rows_from_shape (uuid_of (minted w))
                (to_column (or_else (field (VObj o) "summary") VNull))
                createdAt (filter is_actionable l) (S (minted w)))
      as (_ & H & _).
    eapply Forall_impl; [|exact H]. intros row [_ Hs]. exact Hs.
Qed.

Lemma upload_then_fetch_witness :
  exists resp w' fetched w'',
    upload (all_bound (backend (heard "dark mode please") (says mixed_json)))
      (Some recording) world0 = (Ok resp, w') /\
    get_feature_requests
      (all_bound (backend (heard "dark mode please") (says mixed_json)))
      (uuid_of 0) w' =
      (Ok {| fetch_status := 200; fetch_body := FetchedRows fetched |}, w'') /\
    map fr_title fetched = [SqlText "Add dark mode"].
Proof.
  destruct (upload_then_fetch
              (all_bound (backend (heard "dark mode please") (says mixed_json)))
              recording world0
              (transcription_envelope
                 (Some {| so_text := Some "dark mode please"; so_transcription := None;
                          so_language := None; so_language_confidence := None |})
                 120
                 (VObj [ ("requests", VArr mixed_records);
                         ("summary", VStr "three remarks");
                         ("extractionTimeMs", vnum 40);
                         ("model", VStr extraction_model);
                         ("originalTranscription", VStr "dark mode please") ]))
              [ ("requests", VArr mixed_records);
                ("summary", VStr "three remarks");
                ("extractionTimeMs", vnum 40);
                ("model", VStr extraction_model);
                ("originalTranscription", VStr "dark mode please") ]
              mixed_records)
    as (resp & w' & fetched & w'' & E & _ & Ef & _ & Ht & _).
  - split; [reflexivity|]. unfold size, maxSize. simpl. lia.
  - reflexivity.
  - reflexivity.
  - intros k _. split; reflexivity.
  - intros k _. reflexivity.
  - reflexivity.
  - reflexivity.
  - reflexivity.
  - repeat constructor.
  - reflexivity.
  - exists resp, w', fetched, w''. split; [exact E|]. split; [exact Ef|exact Ht].
Defined.

(** *** Records the filter cannot read *)

(** A callback that raises on one element raises for the list. *)
Lemma filter_res_throws p l bad e :
  In bad l -> p bad = Throw e -> exists e', filter_res p l = Throw e'.
Proof.
  induction l as [|x l IH]; intros Hin Hp; [destruct Hin|].
  cbn [filter_res]. destruct Hin as [->|Hin].
  - rewrite Hp. eauto.
  - destruct (p x) as [b|e0]; [|eauto].
    destruct (IH Hin Hp) as (e' & ->). eauto.
Qed.

Lemma store_feature_requests_blocked env fileId aiFeatures o l bad e w :
  get_prop aiFeatures "featureRequests" = Ok (VObj o) ->
  get_own o "requests" = Some (VArr l) ->
  In bad l -> actionable bad = Throw e ->
  same_feature_rows w (snd (store_feature_requests env fileId aiFeatures w)).
Proof.
  intros Hfr Hreq Hin Hbad.
  destruct (filter_res_throws actionable l bad e Hin Hbad) as (e' & Hf).
  unfold store_feature_requests.
  destruct (usable (audio2features env)).
  2:{ apply same_feature_rows_refl. }
  rewrite Hfr.
  unfold try_catch, bind, lift at 1. cbn [truthy].
  unfold get_prop at 1. rewrite Hreq. unfold lift at 1. cbn [is_array].
  pose proof (d1_run_same_feature_rows CreateFeatureRequests
                ltac:(discriminate) w) as Hc.
  unfold ensureFeatureRequestsTable.
  destruct (d1_run CreateFeatureRequests w) as [[[]|e0] w1]; cbn [snd] in Hc |- *.
  - unfold lift at 1. destruct (get_prop (VObj o) "summary") as [s|e1]; cbn [snd].
    + cbn [or_else truthy items_of]. unfold lift at 1. rewrite Hf.
      unfold console_error. cbn [snd]. exact Hc.
    + exact Hc.
  - exact Hc.
Qed.

Lemma upload_feature_rows_before_storing env f w :
  valid_upload f ->
  exists r2Stored aiFeatures w4 w5,
    fst (processAudioWithAI (arrayBuffer f) (AI env) w) = Ok aiFeatures /\
    store_feature_requests env (uuid_of (minted w)) aiFeatures w4 = (Ok tt, w5) /\
    feature_rows w4 = feature_rows w /\
    upload env (Some f) w =
      (Ok (json (VObj [ ("success", VBool true);
                        ("audioInfo",
                         audio_info f (uuid_of (minted w)) r2Stored
                           (r2_key_of (uuid_of (minted w)) f));
                        ("aiFeatures", aiFeatures);
                        ("message", VStr "Audio processed successfully") ])
             200), w5).
Proof.
  intros Hv.
  destruct (upload_valid env f w Hv)
    as (b & w2 & d & w3 & v & w4 & w5 & E2 & E3 & E4 & E5 & E).
  exists b, v, w4, w5.
  split.
  { rewrite (processAudioWithAI_value _ _ w w3), E4. reflexivity. }
  split; [exact E5|]. split; [|exact E].
  destruct (store_audio_returns env (r2_key_of (uuid_of (minted w)) f) f (mint w))
    as (b' & w2' & E2' & _ & _ & Hf2 & _).
  rewrite E2 in E2'. injection E2' as <- <-.
  pose proof (store_metadata_same_feature_rows env (uuid_of (minted w)) f b
                (r2_key_of (uuid_of (minted w)) f) w2) as H3.
  rewrite E3 in H3. cbn [snd] in H3.
  pose proof (processAudioWithAI_stores (arrayBuffer f) (AI env) w3) as H4.
  rewrite E4 in H4. cbn [snd] in H4.
  destruct H4 as (_ & _ & _ & H4 & _).
  unfold same_feature_rows in H3.
  unfold feature_rows in *. rewrite H4, H3, Hf2. reflexivity.
Qed.

(** X7. One record the filter cannot read stops the whole batch: when the
    sequence of records holds a null entry, or a record whose title is
    truthy and not a string, the filter callback raises, the block logs
    the failure, and no row is written, not even for the well-formed
    records; the response is still the 200 answer with all the records. *)
Theorem malformed_record_blocks_the_batch env f w aiFeatures o l bad e :
  valid_upload f ->
  fst (processAudioWithAI (arrayBuffer f) (AI env) w) = Ok aiFeatures ->
  get_prop aiFeatures "featureRequests" = Ok (VObj o) ->
  get_own o "requests" = Some (VArr l) ->
  In bad l ->
  actionable bad = Throw e ->
  exists resp w',
    upload env (Some f) w = (Ok resp, w') /\
    status resp = 200%Z /\
    field (body resp) "aiFeatures" = aiFeatures /\
    feature_rows w' = feature_rows w.
Proof.
  intros Hv Hai Hfr Hreq Hin Hbad.
  destruct (upload_feature_rows_before_storing env f w Hv)
    as (b & v & w4 & w5 & Hai' & E5 & H4 & E).
  rewrite Hai in Hai'. injection Hai' as <-.
  do 2 eexists. split; [exact E|]. split; [reflexivity|]. split; [reflexivity|].
  pose proof (store_feature_requests_blocked env (uuid_of (minted w)) aiFeatures
                o l bad e w4 Hfr Hreq Hin Hbad) as H5.
  rewrite E5 in H5. cbn [snd] in H5. unfold same_feature_rows in H5.
  now rewrite H5.
Qed.

Lemma malformed_record_blocks_the_batch_witness :
  exists resp w',
    upload (all_bound (backend (heard "dark mode please") (says malformed_json)))
      (Some recording) world0 = (Ok resp, w') /\
    status resp = 200%Z /\
    feature_rows w' = feature_rows world0.
Proof.
  edestruct (malformed_record_blocks_the_batch
               (all_bound (backend (heard "dark mode please") (says malformed_json)))
               recording world0)
    as (resp & w' & E & Hs & _ & Hr).
  - split; [reflexivity|]. unfold size, maxSize. simpl. lia.
  - vm_compute. reflexivity.
  - vm_compute. reflexivity.
  - vm_compute. reflexivity.
  - right. left. reflexivity.
  - vm_compute. reflexivity.
  - exists resp, w'. split; [exact E|]. split; [exact Hs|exact Hr].
Defined.

(** *** What is stored when the text model does not deliver *)

(** The envelope of a transcription that succeeded holds the result of the
    Extraction Stage on its text. *)
Lemma transcribed_then_extracted run audio sr w :
  outcome (run_audio run transcription_model audio) = Ok sr ->
  fst (processAudioWithAI audio (Some run) w) =
  Ok (transcription_envelope sr
        (latency (run_audio run transcription_model audio))
        (match fst (extractFeatureRequests (transcription_text sr) (Some run) w) with
         | Ok fr => fr
         | Throw _ => VUndefined
         end)).
Proof.
  intros Ho. rewrite processAudioWithAI_eq. cbv zeta. rewrite Ho.
  set (w1 := after_call _ _ w).
  rewrite (extractFeatureRequests_value _ _ w w1).
  destruct (extractFeatureRequests_returns (transcription_text sr) (Some run) w1)
    as (fr & w2 & ->).
  reflexivity.
Qed.

(** X8. The parse-error record is persisted. Its title, [Unable to parse
    AI response], contains neither [parse error] nor [fallback], so the
    filter keeps it: when the speech model answers and the answer of the
    text model cannot be decoded, an accepted upload against a healthy
    database adds one row with that title, priority low, category
    improvement, confidence 0.1 and the summary [Error in processing AI
    response], under the identifier of the audio file. *)
Theorem unparsable_response_is_stored env run f w sr result e :
  valid_upload f ->
  audio2features env = Usable ->
  d1_healthy w ->
  ids_fresh w ->
  AI env = Some run ->
  outcome (run_audio run transcription_model (arrayBuffer f)) = Ok sr ->
  outcome (run_messages run extraction_model
             (chat_inputs (transcription_text sr))) = Ok result ->
  parse_response result = Throw e ->
  exists resp createdAt w',
    upload env (Some f) w = (Ok resp, w') /\
    status resp = 200%Z /\
    feature_rows w' =
      feature_rows w ++
      [ {| fr_id := uuid_of (S (minted w));
           fr_audio_file_id := uuid_of (minted w);
           fr_title := SqlText "Unable to parse AI response";
           fr_description :=
             SqlText "The AI model returned a response that couldn't be parsed as structured feature requests.";
           fr_priority := SqlText "low";
           fr_category := SqlText "improvement";
           fr_confidence := SqlNumber (Num 1 (-1));
           fr_potential_recommendation :=
             SqlText ("• Check AI model configuration" ++ nl ++
                      "• Implement better error handling")%string;
           fr_summary := SqlText "Error in processing AI response";
           fr_created_at := createdAt |} ].
Proof.
  intros Hv Hdb Hd Hfresh Hai Hs Hc Hp.
  pose proof (transcribed_then_extracted run (arrayBuffer f) sr w Hs) as Hv1.
  rewrite (parse_failure_is_recovered _ run w result e Hc Hp) in Hv1.
  cbn [fst] in Hv1. rewrite <- Hai in Hv1.
  destruct (upload_persists env f w _
              [ ("requests", VArr [parse_error_record]);
                ("summary", VStr "Error in processing AI response");
                ("extractionTimeMs",
                 vnum (latency (run_messages run extraction_model
                                  (chat_inputs (transcription_text sr)))));
                ("model", VStr extraction_model);
                ("originalTranscription", VStr (transcription_text sr)) ]
              [parse_error_record] Hv Hdb Hd Hfresh Hv1)
    as (b & createdAt & w' & E & Hrows).
  - reflexivity.
  - reflexivity.
  - repeat constructor.
  - reflexivity.
  - do 3 eexists. split; [exact E|]. split; [reflexivity|].
    unfold feature_rows at 1. rewrite Hrows. reflexivity.
Qed.

Lemma unparsable_response_is_stored_witness :
  exists resp createdAt w',
    upload (all_bound (backend (heard "dark mode please") (says "Sorry, no idea.")))
      (Some recording) world0 = (Ok resp, w') /\
    map fr_title (feature_rows w') = [SqlText "Unable to parse AI response"] /\
    map fr_created_at (feature_rows w') = [createdAt].
Proof.
  destruct (unparsable_response_is_stored
              (all_bound (backend (heard "dark mode please") (says "Sorry, no idea.")))
              (backend (heard "dark mode please") (says "Sorry, no idea."))
              recording world0
              (Some {| so_text := Some "dark mode please"; so_transcription := None;
                       so_language := None; so_language_confidence := None |})
              (VObj [("response", VStr "Sorry, no idea.")])
              (JsError "No valid JSON found in response"))
    as (resp & createdAt & w' & E & _ & Hr).
  - split; [reflexivity|]. unfold size, maxSize. simpl. lia.
  - reflexivity.
  - reflexivity.
  - intros k _. split; reflexivity.
  - reflexivity.
  - reflexivity.
  - reflexivity.
  - vm_compute. reflexivity.
  - exists resp, createdAt, w'. split; [exact E|]. rewrite Hr. split; reflexivity.
Defined.

(** X9. When the speech model answers and the call of the text model
    fails, an accepted upload against a healthy database still answers
    200, the response carries the single record [fallback-1], and no row
    is added to [feature_requests]. *)
Theorem extraction_outage_stores_no_request env run f w sr e :
  valid_upload f ->
  audio2features env = Usable ->
  d1_healthy w ->
  ids_fresh w ->
  AI env = Some run ->
  outcome (run_audio run transcription_model (arrayBuffer f)) = Ok sr ->
  outcome (run_messages run extraction_model
             (chat_inputs (transcription_text sr))) = Throw e ->
  exists resp w',
    upload env (Some f) w = (Ok resp, w') /\
    status resp = 200%Z /\
    field (field (field (body resp) "aiFeatures") "featureRequests") "requests" =
      VArr [fallback_record] /\
    feature_rows w' = feature_rows w.
Proof.
  intros Hv Hdb Hd Hfresh Hai Hs Hc.
  pose proof (transcribed_then_extracted run (arrayBuffer f) sr w Hs) as Hv1.
  rewrite extractFeatureRequests_eq in Hv1. cbv zeta in Hv1. rewrite Hc in Hv1.
  cbn [fst] in Hv1. rewrite <- Hai in Hv1.
  destruct (upload_persists env f w _
              [ ("requests", VArr [fallback_record]);
                ("summary", VStr "Feature extraction failed - using fallback response");
                ("extractionTimeMs", vnum 300);
                ("model", VStr extraction_model);
                ("error", VStr (error_message e)) ]
              [fallback_record] Hv Hdb Hd Hfresh Hv1)
    as (b & createdAt & w' & E & Hrows).
  - reflexivity.
  - reflexivity.
  - repeat constructor.
  - reflexivity.
  - do 2 eexists. split; [exact E|]. split; [reflexivity|]. split; [reflexivity|].
    unfold feature_rows at 1. rewrite Hrows.
    replace (filter is_actionable [fallback_record]) with (@nil value)
      by (vm_compute; reflexivity).
    apply app_nil_r.
Qed.

Lemma extraction_outage_stores_no_request_witness :
  exists resp w',
    upload (all_bound (backend (heard "dark mode please")
                         (rejects (JsError "model overloaded"))))
      (Some recording) world0 = (Ok resp, w') /\
    status resp = 200%Z /\
    feature_rows w' = [].
Proof.
  destruct (extraction_outage_stores_no_request
              (all_bound (backend (heard "dark mode please")
                            (rejects (JsError "model overloaded"))))
              (backend (heard "dark mode please") (rejects (JsError "model overloaded")))
              recording world0
              (Some {| so_text := Some "dark mode please"; so_transcription := None;
                       so_language := None; so_language_confidence := None |})
              (JsError "model overloaded"))
    as (resp & w' & E & Hs & _ & Hr).
  - split; [reflexivity|]. unfold size, maxSize. simpl. lia.
  - reflexivity.
  - reflexivity.
  - intros k _. split; reflexivity.
  - reflexivity.
  - reflexivity.
  - reflexivity.
  - exists resp, w'. split; [exact E|]. split; [exact Hs|exact Hr].
Defined.

(** *** The regular expression, the other way round *)

Lemma greedy_close_absent post :
  occurs "}" post = false -> greedy_close post = None.
Proof.
  induction post as [|c r IH]; cbn [occurs greedy_close]; [reflexivity|].
  intros H. apply orb_false_iff in H as [Hc Hr].
  rewrite (IH Hr), Hc. reflexivity.
Qed.

Lemma greedy_close_complete mid post :
  occurs "}" post = false ->
  greedy_close (mid ++ "}" ++ post)%string = Some (mid ++ "}")%string.
Proof.
  intros Hp. induction mid as [|c mid IH].
  - cbn [String.append greedy_close]. now rewrite (greedy_close_absent post Hp).
  - cbn [String.append greedy_close] in *. now rewrite IH.
Qed.

Lemma match_brace_span_complete pre mid post :
  occurs "{" pre = false ->
  occurs "}" post = false ->
  match_brace_span (pre ++ "{" ++ mid ++ "}" ++ post)%string =
    Some ("{" ++ mid ++ "}")%string.
Proof.
  intros Hpre Hpost. induction pre as [|c pre IH].
  - change (match_brace_span (String "{" (mid ++ "}" ++ post)%string) =
            Some (String "{" (mid ++ "}")%string)).
    unfold match_brace_span. rewrite Ascii.eqb_refl.
    now rewrite (greedy_close_complete mid post Hpost).
  - cbn [occurs] in Hpre. apply orb_false_iff in Hpre as [Hc Hpre].
    cbn [String.append match_brace_span]. rewrite Hc. exact (IH Hpre).
Qed.

(** X10. The regular expression [/\{[\s\S]*\}/] matches from the first
    opening brace to the last closing brace, and nothing else: [m] is the
    match in [s] if and only if [s] is some text without an opening brace,
    then [m], then some text without a closing brace, where [m] starts
    with an opening and ends with a closing brace. *)
Theorem brace_span_is_first_open_to_last_close s m :
  match_brace_span s = Some m <->
  exists pre mid post,
    (s = pre ++ "{" ++ mid ++ "}" ++ post)%string /\
    (m = "{" ++ mid ++ "}")%string /\
    occurs "{" pre = false /\
    occurs "}" post = false.
Proof.
  split.
  - apply match_brace_span_spec.
  - intros (pre & mid & post & -> & -> & Hpre & Hpost).
    now apply match_brace_span_complete.
Qed.

(** X11. Text around the JSON object is ignored: when the response text
    is prose without an opening brace, an object in braces, and prose
    without a closing brace, and the object is valid JSON, the Extraction
    Stage returns that object with the three metadata fields; it calls the
    model once and logs nothing. *)
Theorem prose_around_the_json_is_ignored t run w result pre mid post parsed :
  outcome (run_messages run extraction_model (chat_inputs t)) = Ok result ->
  response_text result = Ok (VStr (pre ++ "{" ++ mid ++ "}" ++ post)%string) ->
  occurs "{" pre = false ->
  occurs "}" post = false ->
  JSON_parse ("{" ++ mid ++ "}")%string = Some parsed ->
  exists w',
    extractFeatureRequests t (Some run) w =
      (Ok (spread_with parsed
             (metadata (latency (run_messages run extraction_model (chat_inputs t))) t)),
       w') /\
    trace w' = EvAiRun extraction_model :: trace w.
Proof.
  intros Ho Ht Hpre Hpost Hj.
  rewrite extractFeatureRequests_eq. cbv zeta. rewrite Ho.
  unfold parse_response. rewrite Ht. cbn [as_string]. unfold decode_span.
  rewrite (match_brace_span_complete pre mid post Hpre Hpost), Hj.
  eexists. split; reflexivity.
Qed.

Lemma prose_around_the_json_is_ignored_witness :
  exists w',
    extractFeatureRequests "nothing to report"
      (Some (backend (heard "nothing to report")
               (says ("Sure, here it is: " ++ nothing_json ++ " Anything else?"))))
      world0 =
      (Ok (VObj [ ("requests", VArr []);
                  ("summary", VStr "small talk");
                  ("extractionTimeMs", vnum 40);
                  ("model", VStr extraction_model);
                  ("originalTranscription", VStr "nothing to report") ]),
       w').
Proof.
  destruct (prose_around_the_json_is_ignored "nothing to report"
              (backend (heard "nothing to report")
                 (says ("Sure, here it is: " ++ nothing_json ++ " Anything else?")))
              world0
              (VObj [("response",
                      VStr ("Sure, here it is: " ++ nothing_json ++ " Anything else?"))])
              "Sure, here it is: "
              (quoted "requests" ++ ":[]," ++
               quoted "summary" ++ ":" ++ quoted "small talk")
              " Anything else?"
              (VObj [("requests", VArr []); ("summary", VStr "small talk")]))
    as (w' & E & _).
  - reflexivity.
  - reflexivity.
  - reflexivity.
  - reflexivity.
  - vm_compute. reflexivity.
  - exists w'. exact E.
Defined.

(** *** Metadata, call discipline, the text endpoint, file names *)

(** The three fields written after the spread win over the spread. *)
Lemma field_spread_metadata v ms t :
  field (spread_with v (metadata ms t)) "extractionTimeMs" = vnum ms /\
  field (spread_with v (metadata ms t)) "model" = VStr extraction_model /\
  field (spread_with v (metadata ms t)) "originalTranscription" = VStr t.
Proof.
  unfold spread_with, metadata, define_all, field, get_prop.
  cbn [fold_left fst snd].
  repeat split.
  - rewrite !get_own_set_prop_other by discriminate.
    now rewrite get_own_set_prop_same.
  - rewrite get_own_set_prop_other by discriminate.
    now rewrite get_own_set_prop_same.
  - now rewrite get_own_set_prop_same.
Qed.

(** X12. The metadata of the Extraction Stage is the handler's, not the
    model's. Whatever the decoded object holds under [model],
    [extractionTimeMs] and [originalTranscription], the result always has
    the identifier of the extraction model as [model]; when the call
    resolved, [extractionTimeMs] is the measured time of the call and
    [originalTranscription] the input text; when it failed, or there is no
    binding, [extractionTimeMs] is 300, [originalTranscription] is absent
    and [error] is the message of the failure. *)
Theorem extraction_metadata_overrides_the_model t ai w :
  exists v w',
    extractFeatureRequests t ai w = (Ok v, w') /\
    field v "model" = VStr extraction_model /\
    match ai with
    | None =>
        field v "extractionTimeMs" = vnum 300 /\
        field v "originalTranscription" = VUndefined /\
        field v "error" = VStr "AI binding not available"
    | Some run =>
        let r := run_messages run extraction_model (chat_inputs t) in
        match outcome r with
        | Ok _ =>
            field v "extractionTimeMs" = vnum (latency r) /\
            field v "originalTranscription" = VStr t
        | Throw e =>
            field v "extractionTimeMs" = vnum 300 /\
            field v "originalTranscription" = VUndefined /\
            field v "error" = VStr (error_message e)
        end
    end.
Proof.
  rewrite extractFeatureRequests_eq.
  destruct ai as [run|]; [|do 2 eexists; repeat split].
  cbv zeta.
  destruct (outcome _) as [result|e]; [|do 2 eexists; repeat split].
  destruct (parse_response result) as [parsed|e];
    do 2 eexists; (split; [reflexivity|]);
    match goal with |- context [spread_with ?v (metadata ?ms ?t)] =>
      destruct (field_spread_metadata v ms t) as (H1 & H2 & H3)
    end; auto.
Qed.

(** X13. What [processAudioWithAI] does, in order (the list is newest
    first): each model is called at most once, without retry; the text
    model is called only after the speech model has answered; a failed
    speech call, or a missing binding, is followed by a pause of 500 ms; a
    failed text call by a log line and a pause of 300 ms; an answer that
    cannot be decoded by a log line and no pause. *)
Theorem pipeline_calls_each_model_at_most_once audio ai w :
  added_events w (snd (processAudioWithAI audio ai w))
    match ai with
    | None => [EvSleep 500]
    | Some run =>
        match outcome (run_audio run transcription_model audio) with
        | Throw _ => [EvSleep 500; EvAiRun transcription_model]
        | Ok spoken =>
            match outcome (run_messages run extraction_model
                             (chat_inputs (transcription_text spoken))) with
            | Throw _ =>
                [ EvSleep 300; EvConsoleError "Feature extraction failed:";
                  EvAiRun extraction_model; EvAiRun transcription_model ]
            | Ok result =>
                match parse_response result with
                | Ok _ => [EvAiRun extraction_model; EvAiRun transcription_model]
                | Throw _ =>
                    [ EvConsoleError "Failed to parse AI response:";
                      EvAiRun extraction_model; EvAiRun transcription_model ]
                end
            end
        end
    end.
Proof.
  unfold added_events.
  rewrite processAudioWithAI_eq.
  destruct ai as [run|]; [|reflexivity]. cbv zeta.
  destruct (outcome (run_audio run transcription_model audio)) as [spoken|e];
    [|reflexivity].
  rewrite extractFeatureRequests_eq. cbv zeta.
  destruct (outcome (run_messages run extraction_model _)) as [result|e];
    [|reflexivity].
  destruct (parse_response result); reflexivity.
Qed.

(** X14. [POST /extract-features], given a decoded body whose
    [transcription] is a string or absent, returns a response (it never
    raises) with status 200 or 400, never 500; a 400 leaves the world as
    it is, and in both cases no identifier is handed out and the bucket,
    both tables and both fault schedules are as before. *)
Theorem text_endpoint_touches_no_store env body w :
  exists resp w',
    extract_features env body w = (Ok resp, w') /\
    same_stores w w' /\
    (status resp = 200%Z \/ status resp = 400%Z /\ w' = w).
Proof.
  unfold extract_features, try_catch, bind.
  destruct (transcription body) as [s|]; cbn [vopt truthy].
  2:{ do 2 eexists. split; [reflexivity|]. split; [repeat split|]. now right. }
  destruct (s =? EmptyString)%string eqn:Es.
  - cbn [negb]. do 2 eexists. split; [reflexivity|]. split; [repeat split|]. now right.
  - cbn [negb as_string lift].
    pose proof (extractFeatureRequests_stores s (AI env) w) as Hst.
    destruct (extractFeatureRequests_returns s (AI env) w) as (o & w' & E).
    rewrite E in *. cbn [snd] in Hst.
    do 2 eexists. split; [reflexivity|]. split; [exact Hst|]. now left.
Qed.

Lemma sanitize_safe s : all_chars safe_char (sanitize s) = true.
Proof.
  induction s as [|c s IH]; cbn [sanitize]; [reflexivity|].
  destruct (safe_char c) eqn:Ec.
  - cbn [all_chars]. now rewrite Ec.
  - destruct (code c <? 128)%nat; [exact IH|].
    destruct (code c <? 192)%nat; [exact IH|].
    destruct (code c <? 240)%nat; exact IH.
Qed.

Lemma sanitize_fixes_safe s : all_chars safe_char s = true -> sanitize s = s.
Proof.
  induction s as [|c s IH]; cbn [sanitize all_chars]; [reflexivity|].
  intros H. apply andb_true_iff in H as [Hc Hs]. now rewrite Hc, IH.
Qed.

(** X15. The sanitised file name consists of letters, digits, dots,
    underscores and hyphens only, and sanitising is idempotent: a
    sanitised name is left as it is. *)
Theorem sanitized_names_are_safe_and_stable s :
  all_chars safe_char (sanitize s) = true /\
  sanitize (sanitize s) = sanitize s.
Proof.
  split; [apply sanitize_safe|].
  apply sanitize_fixes_safe, sanitize_safe.
Qed.

(** *** A store that fails in the middle of a request *)

Lemma d1_run_answered stmt w fs :
  d1_faults w = None :: fs ->
  d1_run stmt w =
  execute stmt
    {| now := now w; minted := minted w; bucket := bucket w;
       audio_files := audio_files w; feature_requests := feature_requests w;
       r2_faults := r2_faults w; d1_faults := fs;
       trace := EvSql stmt :: trace w |}.
Proof. intros H. unfold d1_run. rewrite H. reflexivity. Qed.

Lemma d1_run_refused stmt w e fs :
  d1_faults w = Some e :: fs ->
  d1_run stmt w =
  (Throw e,
   {| now := now w; minted := minted w; bucket := bucket w;
      audio_files := audio_files w; feature_requests := feature_requests w;
      r2_faults := r2_faults w; d1_faults := fs;
      trace := EvSql stmt :: trace w |}).
Proof. intros H. unfold d1_run. rewrite H. reflexivity. Qed.

Lemma insert_request_answered fileId summary bs req w rows parents fs :
  bind_value summary = Ok bs ->
  typed_record req = true ->
  feature_requests w = Some rows ->
  audio_files w = Some parents ->
  has_audio_id parents fileId = true ->
  d1_faults w = None :: fs ->
  has_feature_id rows (uuid_of (minted w)) = false ->
  exists w',
    insert_request fileId summary req w = (Ok tt, w') /\
    feature_requests w' =
      Some (rows ++ [row_of fileId bs (now w) (uuid_of (minted w)) req]) /\
    audio_files w' = audio_files w /\
    d1_faults w' = fs /\
    minted w' = S (minted w) /\
    now w' = now w.
Proof.
  intros Hs Ht Hf Ha Hfk Hd Hid.
  destruct (typed_record_inv _ Ht) as ([o ->] & Htitle & Hdesc & Hprio & Hcat & Hconf).
  unfold insert_request, bind, lift. rewrite randomUUID_eq.
  rewrite !get_prop_obj.
  rewrite (optional_string_bindable _ (VStr EmptyString) Htitle) by eauto.
  rewrite (optional_string_bindable _ (VStr EmptyString) Hdesc) by eauto.
  rewrite (optional_string_bindable _ VNull Hprio) by eauto.
  rewrite (optional_string_bindable _ VNull Hcat) by eauto.
  rewrite (optional_number_bindable _ Hconf).
  rewrite Hs. unfold Date_now.
  rewrite (d1_run_answered _ _ fs) by exact Hd.
  erewrite execute_insert_feature; cbn [log mint feature_requests audio_files
    fr_title fr_description fr_id fr_audio_file_id]; eauto.
  - eexists. split; [reflexivity|]. cbn. repeat split; auto.
  - now apply optional_string_text_column.
  - now apply optional_string_text_column.
Qed.

Lemma insert_request_refused fileId summary bs req w e fs :
  bind_value summary = Ok bs ->
  typed_record req = true ->
  d1_faults w = Some e :: fs ->
  exists w',
    insert_request fileId summary req w = (Throw e, w') /\
    feature_requests w' = feature_requests w /\
    audio_files w' = audio_files w /\
    d1_faults w' = fs.
Proof.
  intros Hs Ht Hd.
  destruct (typed_record_inv _ Ht) as ([o ->] & Htitle & Hdesc & Hprio & Hcat & Hconf).
  unfold insert_request, bind, lift. rewrite randomUUID_eq.
  rewrite !get_prop_obj.
  rewrite (optional_string_bindable _ (VStr EmptyString) Htitle) by eauto.
  rewrite (optional_string_bindable _ (VStr EmptyString) Hdesc) by eauto.
  rewrite (optional_string_bindable _ VNull Hprio) by eauto.
  rewrite (optional_string_bindable _ VNull Hcat) by eauto.
  rewrite (optional_number_bindable _ Hconf).
  rewrite Hs. unfold Date_now.
  rewrite (d1_run_refused _ _ e fs) by exact Hd.
  eexists. split; [reflexivity|]. cbn. repeat split; auto.
Qed.

Lemma for_each_insert_interrupted fileId summary bs done req rest e fs :
  bind_value summary = Ok bs ->
  Forall (fun r => typed_record r = true) done ->
  typed_record req = true ->
  forall w rows parents,
    feature_requests w = Some rows ->
    audio_files w = Some parents ->
    has_audio_id parents fileId = true ->
    d1_faults w = repeat None (length done) ++ Some e :: fs ->
    (forall k, (minted w <= k)%nat -> has_feature_id rows (uuid_of k) = false) ->
    exists w',
      for_each (insert_request fileId summary) (done ++ req :: rest) w =
        (Throw e, w') /\
      feature_requests w' =
        Some (rows ++ rows_from fileId bs (now w) (minted w) done) /\
      audio_files w' = audio_files w /\
      d1_faults w' = fs.
Proof.
  intros Hs Hall Hreq. induction Hall as [|r done Hr Hall IH];
    intros w rows parents Hf Ha Hfk Hd Hfresh.
  - cbn [length repeat app] in Hd.
    destruct (insert_request_refused fileId summary bs req w e fs Hs Hreq Hd)
      as (w1 & E1 & Hf1 & Ha1 & Hd1).
    exists w1. cbn [app for_each]. unfold bind. rewrite E1.
    split; [reflexivity|]. cbn [rows_from]. rewrite app_nil_r.
    repeat split; congruence.
  - cbn [length repeat app] in Hd.
    destruct (insert_request_answered fileId summary bs r w rows parents _
                Hs Hr Hf Ha Hfk Hd)
      as (w1 & E1 & Hf1 & Ha1 & Hd1 & Hm1 & Hn1).
    { apply Hfresh. lia. }
    destruct (IH w1 (rows ++ [row_of fileId bs (now w) (uuid_of (minted w)) r])
                parents)
      as (w2 & E2 & Hf2 & Ha2 & Hd2); auto.
    + congruence.
    + intros k Hk. rewrite has_feature_id_app, Hfresh by lia.
      unfold has_feature_id. cbn [existsb row_of fr_id orb].
      rewrite orb_false_r. apply String.eqb_neq.
      intros E. apply uuid_of_inj in E. lia.
    + exists w2. cbn [app for_each]. unfold bind. rewrite E1.
      rewrite E2. split; [reflexivity|].
      rewrite Hf2, Hn1, Hm1, <- app_assoc. cbn [rows_from app].
      repeat split; congruence.
Qed.

Lemma store_metadata_answered env fileId f b key w fs :
  audio2features env = Usable ->
  d1_faults w = None :: None :: None :: fs ->
  has_audio_id (audio_rows w) fileId = false ->
  exists w',
    store_metadata env fileId f b key w = (Ok true, w') /\
    audio_files w' =
      Some (audio_rows w ++
            [{| af_id := fileId; af_file_name := name f;
                af_file_size := size f; af_file_type := type f;
                af_r2_key := if b then Some key else None;
                af_created_at := now w |}]) /\
    feature_requests w' = Some (feature_rows w) /\
    d1_faults w' = fs /\
    minted w' = minted w /\
    now w' = now w.
Proof.
  intros Hdb Hd Hid.
  unfold store_metadata, try_catch, bind, ensureFeatureRequestsTable, Date_now, ret.
  rewrite Hdb. cbn [usable].
  rewrite (d1_run_answered _ _ _ Hd).
  match goal with |- context [execute CreateAudioFiles ?x] => set (w0 := x) end.
  set (w1 := snd (execute CreateAudioFiles w0)).
  assert (H1 : execute CreateAudioFiles w0 = (Ok tt, w1) /\
               audio_files w1 = Some (audio_rows w) /\
               feature_requests w1 = feature_requests w /\
               d1_faults w1 = None :: None :: fs /\
               minted w1 = minted w /\ now w1 = now w).
  { subst w1 w0. unfold execute, audio_rows. cbn [audio_files].
    destruct (audio_files w) eqn:E; cbn; rewrite ?E; repeat split; auto. }
  destruct H1 as (E1 & Ha1 & Hf1 & Hd1 & Hm1 & Hn1). rewrite E1.
  rewrite (d1_run_answered _ _ _ Hd1).
  match goal with |- context [execute CreateFeatureRequests ?x] => set (w1' := x) end.
  set (w2 := snd (execute CreateFeatureRequests w1')).
  assert (H2 : execute CreateFeatureRequests w1' = (Ok tt, w2) /\
               audio_files w2 = Some (audio_rows w) /\
               feature_requests w2 = Some (feature_rows w) /\
               d1_faults w2 = None :: fs /\
               minted w2 = minted w /\ now w2 = now w).
  { subst w2 w1'. unfold execute, feature_rows. cbn [feature_requests].
    rewrite Hf1. destruct (feature_requests w) eqn:E; cbn; rewrite ?E;
      repeat split; auto. }
  destruct H2 as (E2 & Ha2 & Hf2 & Hd2 & Hm2 & Hn2). rewrite E2.
  rewrite (d1_run_answered _ _ _ Hd2).
  unfold execute. cbn [audio_files af_id]. rewrite Ha2, Hid.
  eexists. split; [reflexivity|]. cbn. rewrite Hn2. repeat split; auto.
Qed.

Lemma store_feature_requests_interrupted env fileId aiFeatures o l done req rest
  e fs w rows parents :
  audio2features env = Usable ->
  get_prop aiFeatures "featureRequests" = Ok (VObj o) ->
  get_own o "requests" = Some (VArr l) ->
  Forall (fun r => typed_record r = true) l ->
  optional_string (field (VObj o) "summary") = true ->
  filter is_actionable l = done ++ req :: rest ->
  feature_requests w = Some rows ->
  audio_files w = Some parents ->
  has_audio_id parents fileId = true ->
  d1_faults w = None :: repeat None (length done) ++ Some e :: fs ->
  (forall k, (minted w <= k)%nat -> has_feature_id rows (uuid_of k) = false) ->
  exists w',
    store_feature_requests env fileId aiFeatures w = (Ok tt, w') /\
    feature_requests w' =
      Some (rows ++
            rows_from fileId
              (to_column (or_else (field (VObj o) "summary") VNull))
              (now w) (minted w) done) /\
    d1_faults w' = fs.
Proof.
  intros Hdb Hfr Hreq Htyped Hsum Hfil Hf Ha Hfk Hd Hfresh.
  unfold store_feature_requests, try_catch, bind, lift, ensureFeatureRequestsTable.
  rewrite Hdb. cbn [usable]. rewrite Hfr. cbn [truthy].
  assert (Hrq : field (VObj o) "requests" = VArr l).
  { unfold field. cbn [get_prop]. now rewrite Hreq. }
  rewrite !get_prop_obj, Hrq.
  cbn [is_array].
  rewrite (d1_run_answered _ _ _ Hd).
  unfold execute at 1. cbn [feature_requests]. rewrite Hf.
  change (or_else (VArr l) (VArr [])) with (VArr l). cbn [items_of].
  rewrite (filter_res_typed _ Htyped). rewrite Hfil.
  set (summary := or_else (field (VObj o) "summary") VNull).
  assert (Hs : bind_value summary = Ok (to_column summary)).
  { apply optional_string_bindable; auto. }
  assert (Hlen : (0 <? length (done ++ req :: rest))%nat = true).
  { apply Nat.ltb_lt. rewrite length_app. cbn [length]. lia. }
  rewrite Hlen.
  match goal with |- context [for_each _ _ ?x] => set (w1 := x) end.
  assert (Htd : Forall (fun r => typed_record r = true) (done ++ req :: rest)).
  { rewrite <- Hfil. now apply filter_typed. }
  apply Forall_app in Htd as [Htd Htr]. inversion Htr as [|? ? Hrq' _]; subst.
  destruct (for_each_insert_interrupted fileId summary _ done req rest e fs Hs
              Htd Hrq' w1 rows parents)
    as (w2 & E2 & Hf2 & Ha2 & Hd2); auto.
  rewrite E2. unfold console_error. eexists. split; [reflexivity|].
  cbn [log feature_requests d1_faults]. split; [|exact Hd2].
  rewrite Hf2. reflexivity.
Qed.

(** X16. The rows of one upload are not written atomically. The handler
    sends four statements before the loop (two tables, the audio row, the
    table again); when the database answers those and the inserts of the
    first actionable records, and fails the next insert, the rows written
    so far stay in the table, the remaining records are not attempted (the
    store is asked nothing after the failure), the failure is swallowed
    and the response is the 200 answer with all the records. *)
Theorem a_failed_insert_keeps_the_earlier_rows env f w aiFeatures o l
  done req rest e fs :
  valid_upload f ->
  audio2features env = Usable ->
  ids_fresh w ->
  d1_faults w = repeat None (4 + length done) ++ Some e :: fs ->
  fst (processAudioWithAI (arrayBuffer f) (AI env) w) = Ok aiFeatures ->
  get_prop aiFeatures "featureRequests" = Ok (VObj o) ->
  get_own o "requests" = Some (VArr l) ->
  Forall (fun r => typed_record r = true) l ->
  optional_string (field (VObj o) "summary") = true ->
  filter is_actionable l = done ++ req :: rest ->
  exists resp createdAt w',
    upload env (Some f) w = (Ok resp, w') /\
    status resp = 200%Z /\
    field (body resp) "aiFeatures" = aiFeatures /\
    feature_rows w' =
      feature_rows w ++
      rows_from (uuid_of (minted w))
        (to_column (or_else (field (VObj o) "summary") VNull))
        createdAt (S (minted w)) done /\
    d1_faults w' = fs.
Proof.
  intros Hv Hdb Hfresh Hd Hai Hfr Hreq Htyped Hsum Hfil.
  cbn [Nat.add repeat app] in Hd.
  set (fileId := uuid_of (minted w)). set (key := r2_key_of fileId f).
  destruct (valid_upload_checks f Hv) as [Ht Hs].
  destruct (store_audio_returns env key f (mint w))
    as (b & w2 & E2 & Hm2 & Ha2 & Hf2 & Hd2 & Hn2).
  destruct (store_metadata_answered env fileId f b key w2
              (None :: repeat None (length done) ++ Some e :: fs) Hdb)
    as (w3 & E3 & Ha3 & Hf3 & Hd3 & Hm3 & Hn3).
  { rewrite Hd2. exact Hd. }
  { unfold audio_rows. rewrite Ha2. apply (Hfresh (minted w)). lia. }
  pose proof (processAudioWithAI_value (arrayBuffer f) (AI env) w3 w) as Hval.
  pose proof (processAudioWithAI_stores (arrayBuffer f) (AI env) w3) as Hst.
  destruct (processAudioWithAI (arrayBuffer f) (AI env) w3) as [r w4] eqn:E4.
  cbn [fst snd] in Hval, Hst. rewrite Hai in Hval. subst r.
  destruct Hst as (Hm4 & _ & Ha4 & Hf4 & _ & Hd4).
  destruct (store_feature_requests_interrupted env fileId aiFeatures o l
              done req rest e fs w4
              (feature_rows w2)
              (audio_rows w2 ++
               [{| af_id := fileId; af_file_name := name f;
                   af_file_size := size f; af_file_type := type f;
                   af_r2_key := if b then Some key else None;
                   af_created_at := now w2 |}]))
    as (w5 & E5 & Hf5 & Hd5); auto; try congruence.
  { rewrite has_audio_id_app. unfold has_audio_id at 2.
    cbn [existsb af_id]. rewrite String.eqb_refl. apply orb_true_r. }
  { intros k Hk. unfold feature_rows. rewrite Hf2.
    apply (Hfresh k). cbn [mint minted] in *. lia. }
  exists (json (VObj [ ("success", VBool true);
                       ("audioInfo", audio_info f fileId b key);
                       ("aiFeatures", aiFeatures);
                       ("message", VStr "Audio processed successfully") ]) 200),
    (now w4), w5.
  split.
  - unfold upload, try_catch, bind. rewrite Ht, Hs, randomUUID_eq.
    fold fileId. change ("uploads/" ++ fileId ++ "-" ++ sanitize (name f))%string with key.
    rewrite E2, E3, E4, E5. reflexivity.
  - split; [reflexivity|]. split; [reflexivity|]. split; [|exact Hd5].
    unfold feature_rows at 1. rewrite Hf5. unfold feature_rows at 1. rewrite Hf2.
    fold (feature_rows w). f_equal. f_equal.
    cbn [mint minted] in *. congruence.
Qed.

Lemma a_failed_insert_keeps_the_earlier_rows_witness :
  exists resp createdAt w',
    upload (all_bound (backend (heard "two wishes") (says two_requests_json)))
      (Some recording) (world_d1_fails_after 5) = (Ok resp, w') /\
    status resp = 200%Z /\
    map fr_title (feature_rows w') = [SqlText "Add dark mode"] /\
    map fr_created_at (feature_rows w') = [createdAt].
Proof.
  edestruct (a_failed_insert_keeps_the_earlier_rows
               (all_bound (backend (heard "two wishes") (says two_requests_json)))
               recording (world_d1_fails_after 5))
    with (l := two_records)
         (done := [VObj [("title", VStr "Add dark mode")]])
         (req := VObj [("title", VStr "Export to CSV")])
         (rest := @nil value)
         (e := JsError "D1_ERROR: Network connection lost")
         (fs := @nil (option exn))
    as (resp & createdAt & w' & E & Hs & _ & Hr & _).
  - split; [reflexivity|]. unfold size, maxSize. simpl. lia.
  - reflexivity.
  - intros k _. split; reflexivity.
  - reflexivity.
  - vm_compute. reflexivity.
  - vm_compute. reflexivity.
  - vm_compute. reflexivity.
  - repeat constructor.
  - reflexivity.
  - vm_compute. reflexivity.
  - exists resp, createdAt, w'. split; [exact E|]. split; [exact Hs|].
    rewrite Hr. split; reflexivity.
Defined.

(** *** A result without text *)

Lemma no_text_no_parse result :
  carries_no_text result = true -> exists e, parse_response result = Throw e.
Proof.
  unfold carries_no_text, parse_response, response_text, field.
  destruct result as [| |b|n|s|l|o]; try (intros _; cbn; eauto; fail);
    intros H; apply andb_true_iff in H as [H1 H2];
    apply negb_true_iff in H1; apply negb_true_iff in H2;
    destruct (get_prop _ "response") as [r|e1]; eauto;
    rewrite H1;
    destruct (get_prop _ "text") as [tx|e2]; eauto;
    unfold or_else; rewrite H2; cbn; eauto.
Qed.

(** X17. A text model that resolves without text is treated as an answer
    that cannot be decoded, not as a failed call: when the result is
    [null] or [undefined], or its [response] and [text] are both absent or
    falsy, the Extraction Stage logs the parse failure and returns the
    record [parse-error-1] with the metadata of a resolved call (the
    measured time, the model identifier, the transcription); it does not
    pause. *)
Theorem a_result_without_text_is_a_parse_error t run w result :
  outcome (run_messages run extraction_model (chat_inputs t)) = Ok result ->
  carries_no_text result = true ->
  exists w',
    extractFeatureRequests t (Some run) w =
      (Ok (VObj [ ("requests", VArr [parse_error_record]);
                  ("summary", VStr "Error in processing AI response");
                  ("extractionTimeMs",
                   vnum (latency (run_messages run extraction_model (chat_inputs t))));
                  ("model", VStr extraction_model);
                  ("originalTranscription", VStr t) ]),
       w') /\
    trace w' =
      EvConsoleError "Failed to parse AI response:" ::
      EvAiRun extraction_model :: trace w.
Proof.
  intros Ho Hn. destruct (no_text_no_parse result Hn) as (e & Hp).
  rewrite (parse_failure_is_recovered t run w result e Ho Hp).
  eexists. split; reflexivity.
Qed.

Lemma a_result_without_text_is_a_parse_error_witness :
  exists w',
    extractFeatureRequests "dark mode please"
      (Some (backend (heard "dark mode please") {| latency := 40; outcome := Ok VNull |}))
      world0 =
      (Ok (VObj [ ("requests", VArr [parse_error_record]);
                  ("summary", VStr "Error in processing AI response");
                  ("extractionTimeMs", vnum 40);
                  ("model", VStr extraction_model);
                  ("originalTranscription", VStr "dark mode please") ]),
       w').
Proof.
  destruct (a_result_without_text_is_a_parse_error "dark mode please"
              (backend (heard "dark mode please") {| latency := 40; outcome := Ok VNull |})
              world0 VNull)
    as (w' & E & _).
  - reflexivity.
  - reflexivity.
  - exists w'. exact E.
Defined.
